(** * Local sector store (stores/local.go): shallow embedding and properties

    The Go code talks to two external collaborators, the sector index
    ([SectorIndex]) and the host file system.  Both are stateful, so the
    embedding threads an abstract world [W] through every call and records
    each interaction, with its outcome, in a trace of events.  Operations of
    [Local] are functions in the monad [M W A := W -> A * W * list Event].

    The registry lock ([localLk]) and the [context.Context] argument carry no
    data and are not modelled. *)

From Stdlib Require Import ZArith Ascii String.
From stdpp Require Import base option list gmap strings pretty.

Set Default Proof Using "Type".

(** ** Go values *)

(** A Go [error]: [xerrors.New msg], [xerrors.Errorf (msg ++ ": %w") err], or
    an error produced by a collaborator. *)
Inductive error : Type :=
| New (msg : string)
| Wrap (msg : string) (cause : error)
| External (msg : string).

(** A Go result pair [(T, error)]. *)
Inductive Result (A : Type) : Type :=
| Ok (a : A)
| Err (e : error).
Arguments Ok {A} a.
Arguments Err {A} e.

Definition is_Ok {A} (r : Result A) : bool :=
  match r with Ok _ => true | Err _ => false end.

(** [int64] wrap-around, and Go's truncated division on [int64]. *)
Definition wrap64 (z : Z) : Z := ((z + 2 ^ 63) mod 2 ^ 64 - 2 ^ 63)%Z.
Definition int64_mul (a b : Z) : Z := wrap64 (a * b).
Definition int64_add (a b : Z) : Z := wrap64 (a + b).
Definition int64_div (a b : Z) : Z := wrap64 (Z.quot a b).

(** [uint(x)] for a 64-bit [int], and [bits.OnesCount]. *)
Definition uint (z : Z) : Z := (z mod 2 ^ 64)%Z.

Fixpoint popcount (p : positive) : Z :=
  match p with
  | xH => 1
  | xO q => popcount q
  | xI q => 1 + popcount q
  end%Z.

Definition OnesCount (x : Z) : Z :=
  match x with
  | Zpos p => popcount p
  | _ => 0%Z
  end.

(** ** path/filepath

    [filepath.Join] on a system whose separator is the slash: the empty
    leading elements are dropped, the rest are joined with the separator and
    the result is cleaned lexically ([filepath.Clean]). *)
Module filepath.

Definition Separator : Ascii.ascii := "/"%char.

(** The elements of a path between separators; [cur] is the element being
    read. *)
Fixpoint split (s : string) (cur : string) : list string :=
  match s with
  | EmptyString => [cur]
  | String c s' =>
      if Ascii.eqb c Separator then cur :: split s' EmptyString
      else split s' (cur +:+ String c EmptyString)
  end.

(** One pass over the elements; [out] is the written part, last element
    first.  Empty and [.] elements vanish, [..] removes the element written
    before it when there is one to remove. *)
Fixpoint clean_elems (rooted : bool) (elems out : list string) : list string :=
  match elems with
  | [] => rev out
  | e :: rest =>
      if String.eqb e "" then clean_elems rooted rest out
      else if String.eqb e "." then clean_elems rooted rest out
      else if String.eqb e ".." then
        match out with
        | top :: out' =>
            if String.eqb top ".." then clean_elems rooted rest (e :: out)
            else clean_elems rooted rest out'
        | [] =>
            if rooted then clean_elems rooted rest []
            else clean_elems rooted rest [e]
        end
      else clean_elems rooted rest (e :: out)
  end.

Definition is_rooted (p : string) : bool :=
  match p with
  | String c _ => Ascii.eqb c Separator
  | EmptyString => false
  end.

Definition Clean (p : string) : string :=
  let rooted := is_rooted p in
  let body := String.concat "/" (clean_elems rooted (split p "") []) in
  let r := if rooted then ("/" +:+ body) else body in
  if String.eqb r "" then "." else r.

Fixpoint Join (elem : list string) : string :=
  match elem with
  | [] => ""
  | e :: rest =>
      if String.eqb e "" then Join rest
      else Clean (String.concat "/" elem)
  end.

End filepath.

(** ** Data model *)

(** [abi.SectorID] and [abi.RegisteredProof] of specs-actors. *)
Record SectorID : Type := { Miner : Z; Number : Z }.
Definition RegisteredProof : Type := Z.

Definition ID : Type := string.

(** [SectorFileType] is a Go [int] used as a set of bits. *)
Definition SectorFileType : Type := Z.

(** Modelled from the spec: the file-type constants (declared in
    filetype.go, which is not among the sources) are single-bit flags over
    the fixed ordered set Unsealed, Sealed, Cache; [FTNone] is the empty
    set. *)
Definition FTUnsealed : SectorFileType := 1%Z.
Definition FTSealed : SectorFileType := 2%Z.
Definition FTCache : SectorFileType := 4%Z.
Definition FTNone : SectorFileType := 0%Z.

Definition PathTypes : list SectorFileType := [FTUnsealed; FTSealed; FTCache].

(** [PathType] is a Go boolean type: [MoveStorage] passes the constant
    [false] for it. *)
Definition PathType : Type := bool.
Definition AcquireMode : Type := string.

(** Modelled from the spec: [AcquireMove] (declared outside the sources) is
    the Move mode, informational to the caller. *)
Definition AcquireMove : AcquireMode := "move".

(** Modelled from the spec: [SectorPaths] (declared in filetype.go) holds,
    per file type, a file-system path or a storage ID as a string; the empty
    string is the absent entry. *)
Record SectorPaths : Type := {
  Id : SectorID;
  Unsealed : string;
  Sealed : string;
  Cache : string
}.

(** The zero value [SectorPaths{}]. *)
Definition SectorPaths_zero : SectorPaths :=
  {| Id := {| Miner := 0; Number := 0 |}; Unsealed := ""; Sealed := ""; Cache := "" |}.

(** Modelled from the spec: [PathByType] and [SetPathByType] (filetype.go)
    read and write the entry of one file type.  [local.go] calls them on the
    members of [PathTypes] only; on any other value the model reads the empty
    string and writes nothing. *)
Definition PathByType (sps : SectorPaths) (fileType : SectorFileType) : string :=
  if (fileType =? FTUnsealed)%Z then Unsealed sps
  else if (fileType =? FTSealed)%Z then Sealed sps
  else if (fileType =? FTCache)%Z then Cache sps
  else "".

Definition SetPathByType (sps : SectorPaths) (fileType : SectorFileType) (p : string)
  : SectorPaths :=
  if (fileType =? FTUnsealed)%Z then
    {| Id := Id sps; Unsealed := p; Sealed := Sealed sps; Cache := Cache sps |}
  else if (fileType =? FTSealed)%Z then
    {| Id := Id sps; Unsealed := Unsealed sps; Sealed := p; Cache := Cache sps |}
  else if (fileType =? FTCache)%Z then
    {| Id := Id sps; Unsealed := Unsealed sps; Sealed := Sealed sps; Cache := p |}
  else sps.

(** Modelled from the spec: [StorageInfo] (index.go), the index's record of
    one storage path. *)
Record StorageInfo : Type := {
  SI_ID : ID;
  SI_URLs : list string;
  SI_Weight : Z;
  SI_CanSeal : bool;
  SI_CanStore : bool
}.

(** Modelled from the spec: [SectorStorageInfo] (index.go), one holder of a
    sector file as reported by [StorageFindSector]. *)
Record SectorStorageInfo : Type := {
  SSI_ID : ID;
  SSI_URLs : list string;
  SSI_Weight : Z;
  SSI_CanSeal : bool;
  SSI_CanStore : bool;
  SSI_Primary : bool
}.

(** The registry entry of one opened storage path. *)
Record path : Type := { local : string }.

(** [Local]: the registry maps storage IDs to opened paths.  The index and
    the local-storage provider are reached through the world. *)
Record Local : Type := {
  urls : list string;
  paths : gmap ID path
}.

(** ** External collaborators *)

Inductive LogLevel : Type := Debugf | Infof | Warnf | Errorf.

(** One interaction with a collaborator, with its outcome. *)
Inductive Event : Type :=
| EvStorageDeclareSector (storage : ID) (s : SectorID) (ft : SectorFileType)
    (primary : bool) (r : option error)
| EvStorageDropSector (storage : ID) (s : SectorID) (ft : SectorFileType)
    (r : option error)
| EvStorageFindSector (s : SectorID) (ft : SectorFileType) (allowFetch : bool)
    (r : Result (list SectorStorageInfo))
| EvStorageBestAlloc (allocate : SectorFileType) (spt : RegisteredProof)
    (pathType : PathType) (r : Result (list StorageInfo))
| EvStorageInfo (storage : ID) (r : Result StorageInfo)
| EvRemoveAll (spath : string) (r : option error)
| EvMove (from to : string) (r : option error)
| EvLog (lvl : LogLevel) (format : string).

(** The [SectorIndex] interface, as far as [local.go] calls it.  Every method
    may change the world.  ([StorageInfoOf] is the method [StorageInfo].) *)
Class SectorIndex (W : Type) : Type := {
  StorageDeclareSector : ID -> SectorID -> SectorFileType -> bool -> W -> option error * W;
  StorageDropSector : ID -> SectorID -> SectorFileType -> W -> option error * W;
  StorageFindSector :
    SectorID -> SectorFileType -> bool -> W -> Result (list SectorStorageInfo) * W;
  StorageBestAlloc :
    SectorFileType -> RegisteredProof -> PathType -> W -> Result (list StorageInfo) * W;
  StorageInfoOf : ID -> W -> Result StorageInfo * W
}.

(** The host file system: [os.RemoveAll] and the package's [move] helper. *)
Class HostFS (W : Type) : Type := {
  os_RemoveAll : string -> W -> option error * W;
  move : string -> string -> W -> option error * W
}.

(** ** The monad of operations *)

Definition M (W A : Type) : Type := W -> A * W * list Event.

Definition ret {W A} (a : A) : M W A := fun w => (a, w, []).

Definition bind {W A B} (m : M W A) (k : A -> M W B) : M W B :=
  fun w =>
    let '(a, w1, t1) := m w in
    let '(b, w2, t2) := k a w1 in
    (b, w2, t1 ++ t2).

(** A call to a collaborator: run it on the world and record the event. *)
Definition call {W A} (f : W -> A * W) (ev : A -> Event) : M W A :=
  fun w => let '(r, w') := f w in (r, w', [ev r]).

Definition log {W} (lvl : LogLevel) (format : string) : M W unit :=
  fun w => (tt, w, [EvLog lvl format]).

Declare Scope go_scope.
Delimit Scope go_scope with go.
Notation "x <- m ;; k" := (bind m (fun x => k))
  (at level 100, m at next level, k at level 200, right associativity) : go_scope.
Notation "m ;; k" := (bind m (fun _ => k))
  (at level 100, k at level 200, right associativity) : go_scope.

Definition result_of {W A} (r : A * W * list Event) : A := fst (fst r).
Definition world_of {W A} (r : A * W * list Event) : W := snd (fst r).
Definition trace_of {W A} (r : A * W * list Event) : list Event := snd r.

(** The error values of [local.go]. *)
Definition ErrConflictingFileTypeRequest : error :=
  New "can't both find and allocate a sector".
Definition ErrNoSuitableStorage : error :=
  New "couldn't find a suitable path for a sector".
Definition ErrSingleFileTypeRequired : error :=
  New "delete expects one file type".
Definition ErrSectorNotFound : error :=
  New "can't delete sector %v(%d), not found".

Section Store.
Context {W : Type} `{!SectorIndex W} `{!HostFS W}.

(** [SectorName] (filetype.go) is the textual form of a sector ID. *)
Variable SectorName : SectorID -> string.

(** The two [PathType] constants are declared outside the sources; they are
    the two values of the boolean type. *)
Variable PathSealing : PathType.
Definition PathStorage : PathType := negb PathSealing.

(** What [SectorFileType.String] prints for a value that is none of the
    three file types. *)
Variable String_other : SectorFileType -> string.

Open Scope go_scope.

(** Modelled from the spec: [SectorFileType.String] (filetype.go) names the
    three file types unsealed, sealed and cache. *)
Definition SectorFileType_String (t : SectorFileType) : string :=
  if (t =? FTUnsealed)%Z then "unsealed"
  else if (t =? FTSealed)%Z then "sealed"
  else if (t =? FTCache)%Z then "cache"
  else String_other t.

Definition sector_path (p : path) (fileType : SectorFileType) (sid : SectorID) : string :=
  filepath.Join [local p; SectorFileType_String fileType; SectorName sid].

Definition index_StorageFindSector sid ft allowFetch : M W _ :=
  call (StorageFindSector sid ft allowFetch) (EvStorageFindSector sid ft allowFetch).
Definition index_StorageBestAlloc ft spt pathType : M W _ :=
  call (StorageBestAlloc ft spt pathType) (EvStorageBestAlloc ft spt pathType).
Definition index_StorageInfo id : M W _ :=
  call (StorageInfoOf id) (EvStorageInfo id).
Definition index_StorageDropSector id sid ft : M W _ :=
  call (StorageDropSector id sid ft) (EvStorageDropSector id sid ft).
Definition index_StorageDeclareSector id sid ft primary : M W _ :=
  call (StorageDeclareSector id sid ft primary) (EvStorageDeclareSector id sid ft primary).
Definition host_RemoveAll spath : M W _ :=
  call (os_RemoveAll spath) (EvRemoveAll spath).
Definition host_move from to : M W _ :=
  call (move from to) (EvMove from to).

(** *** reportHealth: the sleep interval

    [(HeartbeatInterval*100_000 + time.Duration(rand.Int63n(10_000))) / 100_000]
    on [time.Duration], an [int64]; [r] is the random draw.  The base
    interval [HeartbeatInterval] is declared in index.go, outside the sources,
    and is an argument here. *)
Definition reportHealth_interval (HeartbeatInterval r : Z) : Z :=
  int64_div (int64_add (int64_mul HeartbeatInterval 100000) r) 100000.

(** *** AcquireSector *)

(** The scan of the holders of an existing file (lines 222-238): the first
    holder that is registered with a non-empty root is taken. *)
Fixpoint scan_existing (st : Local) (sid : SectorID) (fileType : SectorFileType)
    (si : list SectorStorageInfo) (out storageIDs : SectorPaths)
    (existing : SectorFileType) : SectorPaths * SectorPaths * SectorFileType :=
  match si with
  | [] => (out, storageIDs, existing)
  | info :: rest =>
      match paths st !! SSI_ID info with
      | None => scan_existing st sid fileType rest out storageIDs existing
      | Some p =>
          if String.eqb (local p) ""
          then scan_existing st sid fileType rest out storageIDs existing
          else
            let spath := sector_path p fileType sid in
            (SetPathByType out fileType spath,
             SetPathByType storageIDs fileType (SSI_ID info),
             Z.lxor existing fileType)
      end
  end.

(** The first loop over [PathTypes] (lines 211-239). *)
Fixpoint acquire_existing (st : Local) (sid : SectorID) (types : list SectorFileType)
    (out storageIDs : SectorPaths) (existing : SectorFileType)
    : M W (SectorPaths * SectorPaths * SectorFileType) :=
  match types with
  | [] => ret (out, storageIDs, existing)
  | fileType :: rest =>
      if (Z.land fileType existing =? 0)%Z
      then acquire_existing st sid rest out storageIDs existing
      else
        r <- index_StorageFindSector sid fileType false;;
        match r with
        | Err err =>
            log Warnf "finding existing sector %d(t:%d) failed: %+v";;
            acquire_existing st sid rest out storageIDs existing
        | Ok si =>
            let '(out', storageIDs', existing') :=
              scan_existing st sid fileType si out storageIDs existing in
            acquire_existing st sid rest out' storageIDs' existing'
        end
  end.

(** The scan of the allocation candidates (lines 254-276): every candidate
    that passes the tests overwrites [best] and [bestID]. *)
Fixpoint scan_best (st : Local) (sid : SectorID) (fileType : SectorFileType)
    (pathType : PathType) (sis : list StorageInfo) (best : string) (bestID : ID)
    : string * ID :=
  match sis with
  | [] => (best, bestID)
  | si :: rest =>
      match paths st !! SI_ID si with
      | None => scan_best st sid fileType pathType rest best bestID
      | Some p =>
          if String.eqb (local p) ""
          then scan_best st sid fileType pathType rest best bestID
          else if Bool.eqb pathType PathSealing && negb (SI_CanSeal si)
          then scan_best st sid fileType pathType rest best bestID
          else if Bool.eqb pathType PathStorage && negb (SI_CanStore si)
          then scan_best st sid fileType pathType rest best bestID
          else scan_best st sid fileType pathType rest
                 (sector_path p fileType sid) (SI_ID si)
      end
  end.

(** The second loop over [PathTypes] (lines 241-285). *)
Fixpoint acquire_allocate (st : Local) (sid : SectorID) (spt : RegisteredProof)
    (pathType : PathType) (types : list SectorFileType)
    (out storageIDs : SectorPaths) (allocate : SectorFileType)
    : M W (Result (SectorPaths * SectorPaths)) :=
  match types with
  | [] => ret (Ok (out, storageIDs))
  | fileType :: rest =>
      if (Z.land fileType allocate =? 0)%Z
      then acquire_allocate st sid spt pathType rest out storageIDs allocate
      else
        r <- index_StorageBestAlloc fileType spt pathType;;
        match r with
        | Err err => ret (Err (Wrap "finding best storage for allocating " err))
        | Ok sis =>
            let '(best, bestID) := scan_best st sid fileType pathType sis "" "" in
            if String.eqb best ""
            then ret (Err ErrNoSuitableStorage)
            else acquire_allocate st sid spt pathType rest
                   (SetPathByType out fileType best)
                   (SetPathByType storageIDs fileType bestID)
                   (Z.lxor allocate fileType)
        end
  end.

Definition AcquireSector (st : Local) (sid : SectorID) (spt : RegisteredProof)
    (existing allocate : SectorFileType) (pathType : PathType) (op : AcquireMode)
    : M W (Result (SectorPaths * SectorPaths)) :=
  if negb (Z.lor existing allocate =? Z.lxor existing allocate)%Z
  then ret (Err ErrConflictingFileTypeRequest)
  else
    r <- acquire_existing st sid PathTypes SectorPaths_zero SectorPaths_zero existing;;
    let '(out, storageIDs, _) := r in
    acquire_allocate st sid spt pathType PathTypes out storageIDs allocate.

(** *** Remove, RemoveCopies *)

Definition removeSector (st : Local) (sid : SectorID) (typ : SectorFileType)
    (storage : ID) : M W (option error) :=
  match paths st !! storage with
  | None => ret None
  | Some p =>
      if String.eqb (local p) "" then ret None
      else
        e <- index_StorageDropSector storage sid typ;;
        match e with
        | Some err => ret (Some (Wrap "dropping sector from index" err))
        | None =>
            let spath := sector_path p typ sid in
            log Infof "remove %s";;
            e' <- host_RemoveAll spath;;
            match e' with
            | Some _ => log Errorf "removing sector (%v) from %s: %+v";; ret None
            | None => ret None
            end
        end
  end.

(** The loop of [Remove] over the holders (lines 331-335). *)
Fixpoint remove_each (st : Local) (sid : SectorID) (typ : SectorFileType)
    (si : list SectorStorageInfo) : M W (option error) :=
  match si with
  | [] => ret None
  | info :: rest =>
      e <- removeSector st sid typ (SSI_ID info);;
      match e with
      | Some err => ret (Some err)
      | None => remove_each st sid typ rest
      end
  end.

Definition Remove (st : Local) (sid : SectorID) (typ : SectorFileType) (force : bool)
    : M W (option error) :=
  if negb (OnesCount (uint typ) =? 1)%Z
  then ret (Some ErrSingleFileTypeRequired)
  else
    r <- index_StorageFindSector sid typ false;;
    match r with
    | Err err => ret (Some (Wrap "finding existing sector %d(t:%d) failed" err))
    | Ok si =>
        if (length si =? 0)%nat && negb force
        then ret (Some ErrSectorNotFound)
        else remove_each st sid typ si
    end.

(** The search for a primary holder (lines 350-356). *)
Fixpoint hasPrimary (si : list SectorStorageInfo) : bool :=
  match si with
  | [] => false
  | info :: rest => if SSI_Primary info then true else hasPrimary rest
  end.

(** The loop of [RemoveCopies] over the holders (lines 363-371). *)
Fixpoint remove_copies_each (st : Local) (sid : SectorID) (typ : SectorFileType)
    (si : list SectorStorageInfo) : M W (option error) :=
  match si with
  | [] => ret None
  | info :: rest =>
      if SSI_Primary info then remove_copies_each st sid typ rest
      else
        e <- removeSector st sid typ (SSI_ID info);;
        match e with
        | Some err => ret (Some err)
        | None => remove_copies_each st sid typ rest
        end
  end.

Definition RemoveCopies (st : Local) (sid : SectorID) (typ : SectorFileType)
    : M W (option error) :=
  if negb (OnesCount (uint typ) =? 1)%Z
  then ret (Some ErrSingleFileTypeRequired)
  else
    r <- index_StorageFindSector sid typ false;;
    match r with
    | Err err => ret (Some (Wrap "finding existing sector %d(t:%d) failed" err))
    | Ok si =>
        if negb (hasPrimary si)
        then
          log Warnf "RemoveCopies: no primary copies of sector %v (%s), not removing anything";;
          ret None
        else remove_copies_each st sid typ si
    end.

(** *** MoveStorage *)

(** The body of the loop of [MoveStorage] for one requested file type (lines
    416-449): [Some err] is [return err], [None] goes on to the next type. *)
Definition move_one (s : SectorID) (src srcIds dest destIds : SectorPaths)
    (fileType : SectorFileType) : M W (option error) :=
  r <- index_StorageInfo (PathByType srcIds fileType);;
  match r with
  | Err err => ret (Some (Wrap "failed to get source storage info" err))
  | Ok sst =>
      r' <- index_StorageInfo (PathByType destIds fileType);;
      match r' with
      | Err err => ret (Some (Wrap "failed to get source storage info" err))
      | Ok dst =>
          if String.eqb (SI_ID sst) (SI_ID dst) then
            log Debugf "not moving %v(%d); src and dest are the same";;
            ret None
          else if SI_CanStore sst then
            log Debugf "not moving %v(%d); source supports storage";;
            ret None
          else
            log Debugf "moving %v(%d) to storage: %s(se:%t; st:%t) -> %s(se:%t; st:%t)";;
            e <- index_StorageDropSector (PathByType srcIds fileType) s fileType;;
            match e with
            | Some err => ret (Some (Wrap "dropping source sector from index" err))
            | None =>
                e1 <- host_move (PathByType src fileType) (PathByType dest fileType);;
                match e1 with
                | Some err => ret (Some (Wrap "moving sector %v(%d)" err))
                | None =>
                    e2 <- index_StorageDeclareSector
                            (PathByType destIds fileType) s fileType true;;
                    match e2 with
                    | Some err => ret (Some (Wrap "declare sector %d(t:%d) -> %s" err))
                    | None => ret None
                    end
                end
            end
      end
  end.

(** The loop of [MoveStorage] over [PathTypes] (lines 411-450). *)
Fixpoint move_each (s : SectorID) (types : SectorFileType)
    (src srcIds dest destIds : SectorPaths) (fileTypes : list SectorFileType)
    : M W (option error) :=
  match fileTypes with
  | [] => ret None
  | fileType :: rest =>
      if (Z.land fileType types =? 0)%Z
      then move_each s types src srcIds dest destIds rest
      else
        e <- move_one s src srcIds dest destIds fileType;;
        match e with
        | Some err => ret (Some err)
        | None => move_each s types src srcIds dest destIds rest
        end
  end.

Definition MoveStorage (st : Local) (s : SectorID) (spt : RegisteredProof)
    (types : SectorFileType) : M W (option error) :=
  r <- AcquireSector st s spt FTNone types false AcquireMove;;
  match r with
  | Err err => ret (Some (Wrap "acquire dest storage" err))
  | Ok (dest, destIds) =>
      r' <- AcquireSector st s spt types FTNone false AcquireMove;;
      match r' with
      | Err err => ret (Some (Wrap "acquire src storage" err))
      | Ok (src, srcIds) => move_each s types src srcIds dest destIds PathTypes
      end
  end.

End Store.

(** ** The properties: definitions in the words of the specification *)

Section Reading.
Context {W : Type} `{!SectorIndex W} `{!HostFS W}.
Variable SectorName : SectorID -> string.
Variable PathSealing : PathType.
Variable String_other : SectorFileType -> string.

Definition is_log (e : Event) : bool :=
  match e with EvLog _ _ => true | _ => false end.

(** The events that change the index or the disk. *)
Definition is_mutation (e : Event) : bool :=
  match e with
  | EvStorageDropSector _ _ _ _ | EvStorageDeclareSector _ _ _ _ _
  | EvRemoveAll _ _ | EvMove _ _ _ => true
  | _ => false
  end.

(** A holder of an existing file is usable when its storage ID is registered
    with a non-empty mount root. *)
Definition holder_usable (st : Local) (info : SectorStorageInfo) : bool :=
  match paths st !! SSI_ID info with
  | Some p => negb (String.eqb (local p) "")
  | None => false
  end.

(** An allocation candidate survives when its storage ID is registered with
    a non-empty mount root and it has the capability the path type asks for:
    [CanSeal] for sealing, [CanStore] for storage. *)
Definition candidate_survives (st : Local) (pathType : PathType) (si : StorageInfo) : bool :=
  match paths st !! SI_ID si with
  | Some p =>
      negb (String.eqb (local p) "")
      && (if Bool.eqb pathType PathSealing then SI_CanSeal si else SI_CanStore si)
  | None => false
  end.

(** The mount root registered for a storage ID (empty when there is none). *)
Definition mount_root (st : Local) (id : ID) : string :=
  match paths st !! id with
  | Some p => local p
  | None => ""
  end.

(** The path [<mountroot>/<FileType.String()>/<SectorID.String()>]. *)
Definition path_under (st : Local) (id : ID) (fileType : SectorFileType) (sid : SectorID)
  : string :=
  filepath.Join [mount_root st id; SectorFileType_String String_other fileType; SectorName sid].

(** The index answers [StorageFindSector] for the sector and the file types
    of [existing] with [found], whatever the state it is asked in. *)
Definition index_finds (sid : SectorID) (existing : SectorFileType)
    (found : SectorFileType -> Result (list SectorStorageInfo)) : Prop :=
  forall ft w, ft ∈ PathTypes -> Z.land ft existing <> 0%Z ->
    fst (StorageFindSector sid ft false w) = found ft.

(** The index answers [StorageBestAlloc] for the file types of [allocate]
    with [cands], whatever the state it is asked in. *)
Definition index_offers (spt : RegisteredProof) (pathType : PathType)
    (allocate : SectorFileType) (cands : SectorFileType -> Result (list StorageInfo)) : Prop :=
  forall ft w, ft ∈ PathTypes -> Z.land ft allocate <> 0%Z ->
    fst (StorageBestAlloc ft spt pathType w) = cands ft.

(** The events of the first loop when the index answers with [found]: one
    query per requested file type, in the order of [types], each failed query
    followed by its warning. *)
Definition find_events (sid : SectorID) (existing : SectorFileType)
    (found : SectorFileType -> Result (list SectorStorageInfo))
    (types : list SectorFileType) : list Event :=
  flat_map
    (fun ft =>
       if (Z.land ft existing =? 0)%Z then []
       else EvStorageFindSector sid ft false (found ft)
            :: (if is_Ok (found ft) then []
                else [EvLog Warnf "finding existing sector %d(t:%d) failed: %+v"]))
    types.

(** The holders of the index's answer that are not marked primary. *)
Definition non_primary (si : list SectorStorageInfo) : list SectorStorageInfo :=
  List.filter (fun info => negb (SSI_Primary info)) si.

Definition msg_drop_failed : string := "dropping sector from index".
Definition msg_delete_failed : string := "removing sector (%v) from %s: %+v".

(** Index first: every deletion of a file comes two events after the
    successful drop of the same holder's triple from the index (the line
    logged in between is the only event separating them). *)
Definition index_first (st : Local) (sid : SectorID) (typ : SectorFileType)
    (tr : list Event) : Prop :=
  forall i spath res, tr !! i = Some (EvRemoveAll spath res) ->
    exists j id, i = (j + 2)%nat
      /\ tr !! j = Some (EvStorageDropSector id sid typ None)
      /\ mount_root st id <> ""
      /\ spath = path_under st id typ sid.

(** A failed drop is the last event of the operation, which returns the
    error wrapped. *)
Definition drop_failure_aborts (r : option error) (tr : list Event) : Prop :=
  forall i id s t err, tr !! i = Some (EvStorageDropSector id s t (Some err)) ->
    S i = length tr /\ r = Some (Wrap msg_drop_failed err).

(** A failed deletion is followed by its log line. *)
Definition delete_failure_logged (tr : list Event) : Prop :=
  forall i spath err, tr !! i = Some (EvRemoveAll spath (Some err)) ->
    tr !! S i = Some (EvLog Errorf msg_delete_failed).

(** The errors of a removal: those of the guards, which come before any
    holder is touched, and the wrapped error of the failed drop that ended
    the operation.  No error of a deletion is among them. *)
Definition removal_error_origin (sid : SectorID) (typ : SectorFileType)
    (r : option error) (tr : list Event) : Prop :=
  forall e, r = Some e ->
    (Forall (fun ev => is_mutation ev = false) tr
     /\ (e = ErrSingleFileTypeRequired \/ e = ErrSectorNotFound
         \/ exists err, e = Wrap "finding existing sector %d(t:%d) failed" err))
    \/ exists id err,
         e = Wrap msg_drop_failed err
         /\ last tr = Some (EvStorageDropSector id sid typ (Some err)).

(** The order of a move: a file is moved right after the successful drop of
    its source holder; a holder is declared, as primary, right after a move
    that completed; and a successful drop is followed by the move. *)
Definition move_protocol (s : SectorID) (tr : list Event) : Prop :=
  (forall i from to r, tr !! i = Some (EvMove from to r) ->
     exists j id ft, i = S j /\ tr !! j = Some (EvStorageDropSector id s ft None))
  /\ (forall i id s' ft primary r,
        tr !! i = Some (EvStorageDeclareSector id s' ft primary r) ->
        s' = s /\ primary = true
        /\ exists j from to, i = S j /\ tr !! j = Some (EvMove from to None))
  /\ (forall i id s' ft, tr !! i = Some (EvStorageDropSector id s' ft None) ->
        exists from to r, tr !! S i = Some (EvMove from to r)).

Definition removal_discipline (st : Local) (sid : SectorID) (typ : SectorFileType)
    (run : option error * W * list Event) : Prop :=
  index_first st sid typ (trace_of run)
  /\ drop_failure_aborts (result_of run) (trace_of run)
  /\ delete_failure_logged (trace_of run)
  /\ removal_error_origin sid typ (result_of run) (trace_of run).

End Reading.

Section Reading_choices.
Variable PathSealing : PathType.

(** The holder the first loop takes for a file type: the first usable one of
    the index's answer, none when the index failed. *)
Definition existing_choice (st : Local) (r : Result (list SectorStorageInfo)) : option ID :=
  match r with
  | Ok si => SSI_ID <$> List.find (holder_usable st) si
  | Err _ => None
  end.

(** The candidate the second loop takes for a file type: the last surviving
    one of the index's answer. *)
Definition survivors (st : Local) (pathType : PathType)
    (r : Result (list StorageInfo)) : list StorageInfo :=
  match r with
  | Ok sis => List.filter (candidate_survives PathSealing st pathType) sis
  | Err _ => []
  end.

Definition allocate_choice (st : Local) (pathType : PathType)
    (r : Result (list StorageInfo)) : option StorageInfo :=
  last (survivors st pathType r).

(** Every file type of [allocate] is offered at least one surviving
    candidate. *)
Definition every_type_has_survivor (st : Local) (pathType : PathType)
    (allocate : SectorFileType) (cands : SectorFileType -> Result (list StorageInfo)) : Prop :=
  forall ft, ft ∈ PathTypes -> Z.land ft allocate <> 0%Z ->
    survivors st pathType (cands ft) <> [].

End Reading_choices.

(** The entry of a file type after a loop: the loop's choice when the type is
    among those the loop visits and has its bit set, the old entry
    otherwise. *)
Definition entry_after {A} (types : list SectorFileType) (set : SectorFileType)
    (ft : SectorFileType) (choice : option A) (new : A -> string) (old : string) : string :=
  if decide (ft ∈ types /\ Z.land ft set <> 0%Z)
  then match choice with Some a => new a | None => old end
  else old.

Section Removal_reading.
Variable SectorName : SectorID -> string.
Variable String_other : SectorFileType -> string.

(** The events of one successful removal of a holder's file. *)
Definition removed_events (st : Local) (sid : SectorID) (typ : SectorFileType)
    (id : ID) (res : option error) : list Event :=
  EvStorageDropSector id sid typ None
  :: EvLog Infof "remove %s"
  :: EvRemoveAll (path_under SectorName String_other st id typ sid) res
  :: match res with
     | Some _ => [EvLog Errorf msg_delete_failed]
     | None => []
     end.

(** What the loop over the holders guarantees: the discipline, with the
    failed drop as the only origin of an error. *)
Definition loop_ok (st : Local) (sid : SectorID) (typ : SectorFileType)
    (r : option error) (tr : list Event) : Prop :=
  index_first SectorName String_other st sid typ tr
  /\ drop_failure_aborts r tr
  /\ delete_failure_logged tr
  /\ forall e, r = Some e ->
       exists id err, e = Wrap msg_drop_failed err
         /\ last tr = Some (EvStorageDropSector id sid typ (Some err)).

End Removal_reading.

(** ** A scripted index and host

    Collaborators for concrete runs: every call answers from a fixed table
    and leaves the (trivial) world as it is. *)

Record Script : Type := {
  on_find : SectorFileType -> Result (list SectorStorageInfo);
  on_alloc : SectorFileType -> Result (list StorageInfo);
  on_info : ID -> Result StorageInfo;
  on_drop : ID -> option error;
  on_declare : ID -> option error;
  on_remove : string -> option error;
  on_move : string -> string -> option error
}.

Definition scripted_index (sc : Script) : SectorIndex unit := {|
  StorageDeclareSector := fun id _ _ _ w => (on_declare sc id, w);
  StorageDropSector := fun id _ _ w => (on_drop sc id, w);
  StorageFindSector := fun _ ft _ w => (on_find sc ft, w);
  StorageBestAlloc := fun ft _ _ w => (on_alloc sc ft, w);
  StorageInfoOf := fun id w => (on_info sc id, w)
|}.

Definition scripted_host (sc : Script) : HostFS unit := {|
  os_RemoveAll := fun spath w => (on_remove sc spath, w);
  move := fun from to w => (on_move sc from to, w)
|}.

(** [fmt.Sprintf("s-t0%d-%d", sid.Miner, sid.Number)], the sector name of the
    upstream package. *)
Definition SectorName_t0 (sid : SectorID) : string :=
  "s-t0" +:+ pretty (Miner sid) +:+ "-" +:+ pretty (Number sid).

Definition String_unknown (t : SectorFileType) : string :=
  "<unknown " +:+ pretty t +:+ ">".

Definition sector7 : SectorID := {| Miner := 1000; Number := 7 |}.

(** Two opened paths: [s1] at /p1 can seal, [s2] at /p2 can store. *)
Definition two_paths : Local := {|
  urls := [];
  paths := <["s1" := {| local := "/p1" |}]> (<["s2" := {| local := "/p2" |}]> ∅)
|}.

Definition info_s1 : StorageInfo :=
  {| SI_ID := "s1"; SI_URLs := []; SI_Weight := 10; SI_CanSeal := true; SI_CanStore := false |}.
Definition info_s2 : StorageInfo :=
  {| SI_ID := "s2"; SI_URLs := []; SI_Weight := 10; SI_CanSeal := false; SI_CanStore := true |}.

(** A storage the index offers with weight 0. *)
Definition info_s2_readonly : StorageInfo :=
  {| SI_ID := "s2"; SI_URLs := []; SI_Weight := 0; SI_CanSeal := false; SI_CanStore := true |}.

Definition holder (id : ID) (primary : bool) : SectorStorageInfo :=
  {| SSI_ID := id; SSI_URLs := []; SSI_Weight := 10; SSI_CanSeal := true;
     SSI_CanStore := true; SSI_Primary := primary |}.

Definition describe (id : ID) : Result StorageInfo :=
  if String.eqb id "s1" then Ok info_s1
  else if String.eqb id "s2" then Ok info_s2
  else Err (External "storage not found").

(** The index knows both storages and offers them, [s1] first; the sector is
    held by a storage that is not opened here, then by [s1]. *)
Definition script_two : Script := {|
  on_find := fun _ => Ok [holder "s9" false; holder "s1" true];
  on_alloc := fun _ => Ok [info_s1; info_s2];
  on_info := describe;
  on_drop := fun _ => None;
  on_declare := fun _ => None;
  on_remove := fun _ => None;
  on_move := fun _ _ => None
|}.

(** The same index when it cannot answer queries about unsealed files. *)
Definition script_find_fails : Script := {|
  on_find := fun ft =>
    if (ft =? FTUnsealed)%Z then Err (External "index unavailable")
    else Ok [holder "s9" false; holder "s1" true];
  on_alloc := fun _ => Ok [info_s1; info_s2];
  on_info := describe;
  on_drop := fun _ => None;
  on_declare := fun _ => None;
  on_remove := fun _ => None;
  on_move := fun _ _ => None
|}.

(** The index offers [s2] with weight 0. *)
Definition script_readonly : Script := {|
  on_find := fun _ => Ok [];
  on_alloc := fun _ => Ok [info_s1; info_s2_readonly];
  on_info := describe;
  on_drop := fun _ => None;
  on_declare := fun _ => None;
  on_remove := fun _ => None;
  on_move := fun _ _ => None
|}.

(** The sealed file has three holders: [s2], opened here, and [s9], not
    opened here, hold copies; [s1] holds the primary. *)
Definition copies : list SectorStorageInfo :=
  [holder "s2" false; holder "s9" false; holder "s1" true].

Definition script_copies : Script := {|
  on_find := fun _ => Ok copies;
  on_alloc := fun _ => Ok [info_s1; info_s2];
  on_info := describe;
  on_drop := fun _ => None;
  on_declare := fun _ => None;
  on_remove := fun _ => None;
  on_move := fun _ _ => None
|}.

Definition ids_of (sealed : string) : SectorPaths :=
  {| Id := {| Miner := 0; Number := 0 |}; Unsealed := ""; Sealed := sealed; Cache := "" |}.

(** ** The rest of local.go: opening paths, listing, health reports

    These operations call parts of the collaborators the operations above do
    not use: the local-storage provider, the directory calls of the host, and
    two more methods of the index.  Their events extend [Event]. *)

(** [StoragePath], [LocalStorageMeta], [StorageConfig] and [LocalPath]
    (lines 19-45); [Weight] is a [uint64]. *)
Record StoragePath : Type := {
  SP_ID : ID;
  SP_Weight : Z;
  SP_LocalPath : string;
  SP_CanSeal : bool;
  SP_CanStore : bool
}.

Record LocalStorageMeta : Type := {
  LSM_ID : ID;
  LSM_Weight : Z;
  LSM_CanSeal : bool;
  LSM_CanStore : bool
}.

Record LocalPath : Type := { Path : string }.
Record StorageConfig : Type := { StoragePaths : list LocalPath }.

Definition MetaFile : string := "sectorstore.json".

(** Modelled from the spec: [FsStat] (declared outside the sources), the
    file-system statistics of a path. *)
Record FsStat : Type := { Capacity : Z; Available : Z; Reserved : Z }.

(** The zero value [FsStat{}]. *)
Definition FsStat_zero : FsStat := {| Capacity := 0; Available := 0; Reserved := 0 |}.

(** [HealthReport] (index.go), with the two fields [reportHealth] fills
    (lines 184-187). *)
Record HealthReport : Type := { HR_Stat : FsStat; HR_Err : option error }.

Definition errPathNotFound : error := New "fsstat: path not found".

(** The [LocalStorage] interface (lines 47-52), as far as [local.go] calls
    it.  [Stat] returns both of its results: [reportHealth] keeps the
    statistics next to the error. *)
Class LocalStorage (W : Type) : Type := {
  GetStorage : W -> Result StorageConfig * W;
  Stat : string -> W -> (FsStat * option error) * W
}.

(** The two other methods of [SectorIndex] that [local.go] calls. *)
Class SectorIndexHealth (W : Type) : Type := {
  StorageAttach : StorageInfo -> FsStat -> W -> option error * W;
  StorageReportHealth : ID -> HealthReport -> W -> option error * W
}.

(** [ioutil.ReadFile], [ioutil.ReadDir] (the names of the entries, which is
    all [OpenPath] reads of them) and [os.MkdirAll]. *)
Class HostDirs (W : Type) : Type := {
  ioutil_ReadFile : string -> W -> Result string * W;
  ioutil_ReadDir : string -> W -> Result (list string) * W;
  os_MkdirAll : string -> Z -> W -> option error * W
}.

Inductive OpEvent : Type :=
| OpIndex (e : Event)
| OpReadFile (filename : string) (r : Result string)
| OpStat (spath : string) (r : FsStat * option error)
| OpStorageAttach (si : StorageInfo) (fst : FsStat) (r : option error)
| OpReadDir (dirname : string) (r : Result (list string))
| OpMkdirAll (spath : string) (perm : Z) (r : option error)
| OpGetStorage (r : Result StorageConfig)
| OpStorageReportHealth (id : ID) (report : HealthReport) (r : option error)
| OpGoReportHealth.

Definition MO (W A : Type) : Type := W -> A * W * list OpEvent.

Definition oret {W A} (a : A) : MO W A := fun w => (a, w, []).

Definition obind {W A B} (m : MO W A) (k : A -> MO W B) : MO W B :=
  fun w =>
    let '(a, w1, t1) := m w in
    let '(b, w2, t2) := k a w1 in
    (b, w2, t1 ++ t2).

Definition ocall {W A} (f : W -> A * W) (ev : A -> OpEvent) : MO W A :=
  fun w => let '(r, w') := f w in (r, w', [ev r]).

(** An operation of the first part, run inside the second. *)
Definition olift {W A} (m : M W A) : MO W A :=
  fun w => let '(a, w', t) := m w in (a, w', OpIndex <$> t).

Declare Scope op_scope.
Delimit Scope op_scope with op.
Notation "x <- m ;; k" := (obind m (fun x => k))
  (at level 100, m at next level, k at level 200, right associativity) : op_scope.
Notation "m ;; k" := (obind m (fun _ => k))
  (at level 100, k at level 200, right associativity) : op_scope.

Definition oresult {W A} (r : A * W * list OpEvent) : A := fst (fst r).
Definition oworld {W A} (r : A * W * list OpEvent) : W := snd (fst r).
Definition otrace {W A} (r : A * W * list OpEvent) : list OpEvent := snd r.

Section Registry.
Context {W : Type} `{!SectorIndex W} `{!SectorIndexHealth W}
  `{!LocalStorage W} `{!HostDirs W}.

(** [ParseSectorID] (filetype.go), [json.Unmarshal] into a
    [LocalStorageMeta], and [os.IsNotExist]. *)
Variable ParseSectorID : string -> Result SectorID.
Variable json_Unmarshal : string -> Result LocalStorageMeta.
Variable os_IsNotExist : error -> bool.
Variable String_other : SectorFileType -> string.

(** The order in which a [range] statement visits a map: some order of its
    entries. *)
Variable range : forall V : Type, gmap ID V -> list (ID * V).

Open Scope op_scope.

Definition host_ReadFile filename : MO W _ :=
  ocall (ioutil_ReadFile filename) (OpReadFile filename).
Definition host_ReadDir dirname : MO W _ :=
  ocall (ioutil_ReadDir dirname) (OpReadDir dirname).
Definition host_MkdirAll spath perm : MO W _ :=
  ocall (os_MkdirAll spath perm) (OpMkdirAll spath perm).
Definition localStorage_Stat spath : MO W _ :=
  ocall (Stat spath) (OpStat spath).
Definition localStorage_GetStorage : MO W _ :=
  ocall GetStorage OpGetStorage.
Definition index_StorageAttach si fst : MO W _ :=
  ocall (StorageAttach si fst) (OpStorageAttach si fst).
Definition index_StorageReportHealth id report : MO W _ :=
  ocall (StorageReportHealth id report) (OpStorageReportHealth id report).

(** *** OpenPath *)

(** The loop over the entries of one directory (lines 132-141). *)
Fixpoint declare_entries (id : ID) (t : SectorFileType) (primary : bool)
    (ents : list string) : MO W (option error) :=
  match ents with
  | [] => oret None
  | name :: rest =>
      match ParseSectorID name with
      | Err err => oret (Some (Wrap "parse sector id %s" err))
      | Ok sid =>
          e <- olift (index_StorageDeclareSector id sid t primary);;
          match e with
          | Some err => oret (Some (Wrap "declare sector %d(t:%d) -> %s" err))
          | None => declare_entries id t primary rest
          end
      end
  end.

(** The loop over [PathTypes] (lines 119-142); [0755] is 493. *)
Fixpoint open_types (p : string) (meta : LocalStorageMeta)
    (types : list SectorFileType) : MO W (option error) :=
  match types with
  | [] => oret None
  | t :: rest =>
      let dir := filepath.Join [p; SectorFileType_String String_other t] in
      r <- host_ReadDir dir;;
      match r with
      | Err err =>
          if os_IsNotExist err then
            e <- host_MkdirAll dir 493;;
            match e with
            | Some err' => oret (Some (Wrap "openPath mkdir '%s'" err'))
            | None => open_types p meta rest
            end
          else oret (Some (Wrap "listing %s" err))
      | Ok ents =>
          e <- declare_entries (LSM_ID meta) t (LSM_CanStore meta) ents;;
          match e with
          | Some err => oret (Some err)
          | None => open_types p meta rest
          end
      end
  end.

(** The [StorageInfo] that [OpenPath] attaches (lines 108-114). *)
Definition attached_info (st : Local) (meta : LocalStorageMeta) : StorageInfo :=
  {| SI_ID := LSM_ID meta; SI_URLs := urls st; SI_Weight := LSM_Weight meta;
     SI_CanSeal := LSM_CanSeal meta; SI_CanStore := LSM_CanStore meta |}.

(** [OpenPath] returns its error and leaves the registry in the state it
    reached. *)
Definition OpenPath (st : Local) (p : string) : MO W (option error * Local) :=
  mb <- host_ReadFile (filepath.Join [p; MetaFile]);;
  match mb with
  | Err err => oret (Some (Wrap "reading storage metadata for %s" err), st)
  | Ok mb =>
      match json_Unmarshal mb with
      | Err err => oret (Some (Wrap "unmarshalling storage metadata for %s" err), st)
      | Ok meta =>
          let out := {| local := p |} in
          r <- localStorage_Stat p;;
          match snd r with
          | Some err => oret (Some err, st)
          | None =>
              e <- index_StorageAttach (attached_info st meta) (fst r);;
              match e with
              | Some err => oret (Some (Wrap "declaring storage in index" err), st)
              | None =>
                  e' <- open_types p meta PathTypes;;
                  match e' with
                  | Some err => oret (Some err, st)
                  | None =>
                      oret (None,
                            {| urls := urls st;
                               paths := <[LSM_ID meta := out]> (paths st) |})
                  end
              end
          end
      end
  end.

(** *** open, NewLocal *)

(** The loop of [open] over the configured paths (lines 155-160). *)
Fixpoint open_paths (st : Local) (cfg : list LocalPath) : MO W (option error * Local) :=
  match cfg with
  | [] => oret (None, st)
  | path :: rest =>
      r <- OpenPath st (Path path);;
      match fst r with
      | Some err => oret (Some (Wrap "opening path %s" err), snd r)
      | None => open_paths (snd r) rest
      end
  end.

(** [open]; the [go] statement that starts [reportHealth] is recorded as an
    event. *)
Definition open (st : Local) : MO W (option error * Local) :=
  cfg <- localStorage_GetStorage;;
  match cfg with
  | Err err => oret (Some (Wrap "getting local storage config" err), st)
  | Ok cfg =>
      r <- open_paths st (StoragePaths cfg);;
      match fst r with
      | Some err => oret (Some err, snd r)
      | None =>
          ocall (fun w => (tt, w)) (fun _ => OpGoReportHealth);;
          oret (None, snd r)
      end
  end.

(** [NewLocal] returns the store it made together with the error of
    [open]. *)
Definition NewLocal (urls : list string) : MO W (Local * option error) :=
  let l := {| urls := urls; paths := ∅ |} in
  r <- open l;;
  oret (snd r, fst r).

(** *** Local, FsStat *)

(** The loop of [Local] over the registry (lines 295-312). *)
Fixpoint Local_each (ents : list (ID * path)) (out : list StoragePath)
    : MO W (Result (list StoragePath)) :=
  match ents with
  | [] => oret (Ok out)
  | (id, p) :: rest =>
      if String.eqb (local p) "" then Local_each rest out
      else
        si <- olift (index_StorageInfo id);;
        match si with
        | Err err => oret (Err (Wrap "get storage info for %s" err))
        | Ok si =>
            Local_each rest
              (out ++ [{| SP_ID := id; SP_Weight := SI_Weight si;
                          SP_LocalPath := local p; SP_CanSeal := SI_CanSeal si;
                          SP_CanStore := SI_CanStore si |}])
        end
  end.

(** The method [Local] of the store. *)
Definition Local_Local (st : Local) : MO W (Result (list StoragePath)) :=
  Local_each (range path (paths st)) [].

(** The method [FsStat] of the store. *)
Definition Local_FsStat (st : Local) (id : ID) : MO W (FsStat * option error) :=
  match paths st !! id with
  | None => oret (FsStat_zero, Some errPathNotFound)
  | Some p => localStorage_Stat (local p)
  end.

(** *** reportHealth: one round of the loop *)

(** The first loop of a round (lines 181-188): the statistics of every
    registered path, errors included. *)
Fixpoint stat_each (ents : list (ID * path)) (toReport : gmap ID HealthReport)
    : MO W (gmap ID HealthReport) :=
  match ents with
  | [] => oret toReport
  | (id, p) :: rest =>
      r <- localStorage_Stat (local p);;
      stat_each rest (<[id := {| HR_Stat := fst r; HR_Err := snd r |}]> toReport)
  end.

(** The second loop of a round (lines 192-196). *)
Fixpoint report_each (reports : list (ID * HealthReport)) : MO W unit :=
  match reports with
  | [] => oret tt
  | (id, report) :: rest =>
      e <- index_StorageReportHealth id report;;
      match e with
      | Some _ =>
          olift (log Warnf "error reporting storage health for %s: %+v");;
          report_each rest
      | None => report_each rest
      end
  end.

(** What [reportHealth] does each time its timer fires (lines 178-196). *)
Definition reportHealth_round (st : Local) : MO W unit :=
  toReport <- stat_each (range path (paths st)) ∅;;
  report_each (range HealthReport toReport).

End Registry.

(** The health reports sent to the index, and the paths whose statistics were
    asked for, in the order of the trace. *)
Definition reports_of (tr : list OpEvent) : list (ID * HealthReport) :=
  omap (fun e => match e with
                 | OpStorageReportHealth id report _ => Some (id, report)
                 | _ => None
                 end) tr.

Definition stats_of (tr : list OpEvent) : list string :=
  omap (fun e => match e with OpStat spath _ => Some spath | _ => None end) tr.


Section Registry_reading.
Variable String_other : SectorFileType -> string.

(** The directory of a file type under a root. *)
Definition type_dir (p : string) (t : SectorFileType) : string :=
  filepath.Join [p; SectorFileType_String String_other t].

(** The events of the scan of a path's directories: listing a directory of
    one of the three file types, creating it with mode 0755, and declaring a
    sector under the descriptor's ID with the descriptor's [CanStore] as the
    primary flag. *)
Definition scan_event (p : string) (meta : LocalStorageMeta) (e : OpEvent) : Prop :=
  match e with
  | OpReadDir dir _ => exists t, t ∈ PathTypes /\ dir = type_dir p t
  | OpMkdirAll dir perm _ => perm = 493%Z /\ exists t, t ∈ PathTypes /\ dir = type_dir p t
  | OpIndex (EvStorageDeclareSector id _ t primary _) =>
      id = LSM_ID meta /\ primary = LSM_CanStore meta /\ t ∈ PathTypes
  | _ => False
  end.

End Registry_reading.


(** How [OpenPath] treats a directory that cannot be listed: when the error
    says the directory does not exist, the directory is created next, with
    mode 0755, and a failure to create it ends the call; any other error ends
    the call at once. *)
Definition dir_errors_handled (os_IsNotExist : error -> bool)
    (r : option error) (tr : list OpEvent) : Prop :=
  forall i dir err, tr !! i = Some (OpReadDir dir (Err err)) ->
    if os_IsNotExist err then
      exists e, tr !! S i = Some (OpMkdirAll dir 493%Z e)
        /\ forall err', e = Some err' ->
             S (S i) = length tr /\ r = Some (Wrap "openPath mkdir '%s'" err')
    else S i = length tr /\ r = Some (Wrap "listing %s" err).

(** The entries of the registry that [Local] lists: those whose root is not
    the empty string (line 297). *)
Definition kept_entry (x : ID * path) : bool := negb (String.eqb (local x.2) "").

(** The two kinds of events of a round of [reportHealth]: asking for the
    statistics of a path, and reporting to the index (with the warning logged
    when a report fails). *)
Definition is_stat (e : OpEvent) : Prop :=
  match e with OpStat _ _ => True | _ => False end.

Definition is_report (e : OpEvent) : Prop :=
  match e with
  | OpStorageReportHealth _ _ _ => True
  | OpIndex (EvLog Warnf _) => True
  | _ => False
  end.

(** The steps of [MoveStorage] that change the index or the disk, when they
    fail, with the message their error is wrapped in (lines 439-449). *)
Definition failed_step (e : Event) : option (string * error) :=
  match e with
  | EvStorageDropSector _ _ _ (Some err) => Some ("dropping source sector from index", err)
  | EvMove _ _ (Some err) => Some ("moving sector %v(%d)", err)
  | EvStorageDeclareSector _ _ _ _ (Some err) => Some ("declare sector %d(t:%d) -> %s", err)
  | _ => None
  end.

(** A failed step is the last event of the run, which returns its error
    wrapped. *)
Definition failure_ends (r : option error) (tr : list Event) : Prop :=
  forall i e msg err, tr !! i = Some e -> failed_step e = Some (msg, err) ->
    S i = length tr /\ r = Some (Wrap msg err).

(** The events of [AcquireSector]: a query for the holders of the sector's
    file of a requested existing type, never asking to fetch; a query for the
    candidates of a requested type to allocate, for the call's proof type and
    path type; and a warning. *)
Definition acquire_event (sid : SectorID) (spt : RegisteredProof)
    (existing allocate : SectorFileType) (pathType : PathType) (e : Event) : Prop :=
  match e with
  | EvStorageFindSector s ft allowFetch _ =>
      s = sid /\ allowFetch = false /\ ft ∈ PathTypes /\ Z.land ft existing <> 0%Z
  | EvStorageBestAlloc ft spt' pathType' _ =>
      spt' = spt /\ pathType' = pathType /\ ft ∈ PathTypes /\ Z.land ft allocate <> 0%Z
  | EvLog Warnf _ => True
  | _ => False
  end.

(** The events of the loop of [MoveStorage], for the places [AcquireSector]
    resolved: the index is asked about the source and the destination storage
    of a requested file type; the source holder of a requested file type is
    dropped; the file goes from the resolved source path to the resolved
    destination path of a requested file type; the destination holder of a
    requested file type is declared as primary.  Nothing is deleted. *)
Definition move_event (s : SectorID) (types : SectorFileType)
    (src srcIds dest destIds : SectorPaths) (e : Event) : Prop :=
  match e with
  | EvStorageInfo id _ =>
      exists ft, ft ∈ PathTypes /\ Z.land ft types <> 0%Z
        /\ (id = PathByType srcIds ft \/ id = PathByType destIds ft)
  | EvStorageDropSector id s' ft _ =>
      s' = s /\ ft ∈ PathTypes /\ Z.land ft types <> 0%Z /\ id = PathByType srcIds ft
  | EvMove from to _ =>
      exists ft, ft ∈ PathTypes /\ Z.land ft types <> 0%Z
        /\ from = PathByType src ft /\ to = PathByType dest ft
  | EvStorageDeclareSector id s' ft primary _ =>
      s' = s /\ primary = true /\ ft ∈ PathTypes /\ Z.land ft types <> 0%Z
      /\ id = PathByType destIds ft
  | EvLog Debugf _ => True
  | _ => False
  end.

(** ** A scripted disk

    The directory calls of the host, the local-storage provider and the two
    further methods of the index, answering from a fixed table. *)

Record DiskScript : Type := {
  on_read_file : string -> Result string;
  on_read_dir : string -> Result (list string);
  on_mkdir : string -> option error;
  on_stat : string -> FsStat * option error;
  on_config : Result StorageConfig;
  on_attach : StorageInfo -> option error;
  on_report : ID -> option error
}.

Definition scripted_dirs (d : DiskScript) : HostDirs unit := {|
  ioutil_ReadFile := fun filename w => (on_read_file d filename, w);
  ioutil_ReadDir := fun dirname w => (on_read_dir d dirname, w);
  os_MkdirAll := fun spath _ w => (on_mkdir d spath, w)
|}.

Definition scripted_storage (d : DiskScript) : LocalStorage unit := {|
  GetStorage := fun w => (on_config d, w);
  Stat := fun spath w => (on_stat d spath, w)
|}.

Definition scripted_health (d : DiskScript) : SectorIndexHealth unit := {|
  StorageAttach := fun si _ w => (on_attach d si, w);
  StorageReportHealth := fun id _ w => (on_report d id, w)
|}.

Definition meta_s1 : LocalStorageMeta :=
  {| LSM_ID := "s1"; LSM_Weight := 10; LSM_CanSeal := true; LSM_CanStore := false |}.
Definition meta_s2 : LocalStorageMeta :=
  {| LSM_ID := "s2"; LSM_Weight := 10; LSM_CanSeal := false; LSM_CanStore := true |}.

(** A decoder that knows the two descriptors of the scripted disk. *)
Definition decode_meta (bytes : string) : Result LocalStorageMeta :=
  if String.eqb bytes "{s1}" then Ok meta_s1
  else if String.eqb bytes "{s2}" then Ok meta_s2
  else Err (External "invalid character").

(** A parser that knows the name of [sector7]. *)
Definition parse_t0 (name : string) : Result SectorID :=
  if String.eqb name "s-t01000-7" then Ok sector7
  else Err (External "malformed sector id").

Definition err_not_exist : error := External "file does not exist".

Definition is_not_exist (err : error) : bool :=
  match err with
  | External msg => String.eqb msg "file does not exist"
  | _ => false
  end.

Definition stat_100 : FsStat := {| Capacity := 100; Available := 60; Reserved := 0 |}.

(** The disk holds the roots /p1 and /p2.  /p1 has the sealed file of
    [sector7] and an empty directory of unsealed files, and no directory of
    cache files yet; /p2 has no directories yet.  The configuration names
    /p1, then /p3, which does not exist, then /p2. *)
Definition disk_two : DiskScript := {|
  on_read_file := fun filename =>
    if String.eqb filename "/p1/sectorstore.json" then Ok "{s1}"
    else if String.eqb filename "/p2/sectorstore.json" then Ok "{s2}"
    else Err err_not_exist;
  on_read_dir := fun dirname =>
    if String.eqb dirname "/p1/sealed" then Ok ["s-t01000-7"]
    else if String.eqb dirname "/p1/unsealed" then Ok []
    else Err err_not_exist;
  on_mkdir := fun _ => None;
  on_stat := fun _ => (stat_100, None);
  on_config := Ok {| StoragePaths := [{| Path := "/p1" |}; {| Path := "/p3" |};
                                      {| Path := "/p2" |}] |};
  on_attach := fun _ => None;
  on_report := fun _ => None
|}.

(** A store with no path opened yet. *)
Definition no_paths : Local := {| urls := ["http://miner/remote"]; paths := ∅ |}.

(** A [range] that visits a map in the order of its list of entries. *)
Definition range_entries (V : Type) (m : gmap ID V) : list (ID * V) := map_to_list m.

(** The operations of the store on the scripted disk, with the index of
    [script_two]. *)
Definition disk_OpenPath (st : Local) (p : string)
    : option error * Local * unit * list OpEvent :=
  OpenPath (SectorIndex0 := scripted_index script_two)
    (SectorIndexHealth0 := scripted_health disk_two)
    (LocalStorage0 := scripted_storage disk_two)
    (HostDirs0 := scripted_dirs disk_two)
    parse_t0 decode_meta is_not_exist String_unknown st p tt.

Definition disk_open_paths (st : Local) (cfg : list LocalPath)
    : option error * Local * unit * list OpEvent :=
  open_paths (SectorIndex0 := scripted_index script_two)
    (SectorIndexHealth0 := scripted_health disk_two)
    (LocalStorage0 := scripted_storage disk_two)
    (HostDirs0 := scripted_dirs disk_two)
    parse_t0 decode_meta is_not_exist String_unknown st cfg tt.

Definition disk_Local (st : Local) : Result (list StoragePath) * unit * list OpEvent :=
  Local_Local (SectorIndex0 := scripted_index script_two) range_entries st tt.

Definition disk_reportHealth_round (st : Local) : unit * unit * list OpEvent :=
  reportHealth_round (SectorIndexHealth0 := scripted_health disk_two)
    (LocalStorage0 := scripted_storage disk_two) range_entries st tt.

(** What [Local] lists for [two_paths]. *)
Definition listing_two : list StoragePath :=
  [{| SP_ID := "s1"; SP_Weight := 10; SP_LocalPath := "/p1";
      SP_CanSeal := true; SP_CanStore := false |};
   {| SP_ID := "s2"; SP_Weight := 10; SP_LocalPath := "/p2";
      SP_CanSeal := false; SP_CanStore := true |}].

(** The sealed file of [sector7] is looked for and its cache is allocated
    for sealing: both resolve to [s1]. *)
Definition acquire_sealed_cache
    : Result (SectorPaths * SectorPaths) * unit * list Event :=
  AcquireSector (SectorIndex0 := scripted_index script_two)
    SectorName_t0 true String_unknown two_paths sector7 0%Z FTSealed FTCache true
    AcquireMove tt.

Definition paths_sealed_cache : SectorPaths :=
  {| Id := {| Miner := 0; Number := 0 |}; Unsealed := "";
     Sealed := "/p1/sealed/s-t01000-7"; Cache := "/p1/cache/s-t01000-7" |}.

Definition ids_sealed_cache : SectorPaths :=
  {| Id := {| Miner := 0; Number := 0 |}; Unsealed := ""; Sealed := "s1"; Cache := "s1" |}.

(** [Remove] of the sealed file when the index reports [copies]. *)
Definition remove_copies_run : option error * unit * list Event :=
  Remove (SectorIndex0 := scripted_index script_copies)
    (HostFS0 := scripted_host script_copies)
    SectorName_t0 String_unknown two_paths sector7 FTSealed false tt.

(** ** Basic facts *)

Lemma result_of_bind {W A B} (m : M W A) (k : A -> M W B) w :
  result_of (bind m k w) = result_of (k (result_of (m w)) (world_of (m w))).
Proof.
  unfold bind, result_of, world_of.
  destruct (m w) as [[a w1] t1]; simpl. by destruct (k a w1) as [[b w2] t2].
Qed.

Lemma world_of_bind {W A B} (m : M W A) (k : A -> M W B) w :
  world_of (bind m k w) = world_of (k (result_of (m w)) (world_of (m w))).
Proof.
  unfold bind, result_of, world_of.
  destruct (m w) as [[a w1] t1]; simpl. by destruct (k a w1) as [[b w2] t2].
Qed.

Lemma trace_of_bind {W A B} (m : M W A) (k : A -> M W B) w :
  trace_of (bind m k w)
  = trace_of (m w) ++ trace_of (k (result_of (m w)) (world_of (m w))).
Proof.
  unfold bind, result_of, world_of, trace_of.
  destruct (m w) as [[a w1] t1]; simpl. by destruct (k a w1) as [[b w2] t2].
Qed.

Lemma result_of_call {W A} (f : W -> A * W) ev w :
  result_of (call f ev w) = fst (f w).
Proof. unfold call, result_of. by destruct (f w). Qed.

Lemma world_of_call {W A} (f : W -> A * W) ev w :
  world_of (call f ev w) = snd (f w).
Proof. unfold call, world_of. by destruct (f w). Qed.

Lemma trace_of_call {W A} (f : W -> A * W) ev w :
  trace_of (call f ev w) = [ev (fst (f w))].
Proof. unfold call, trace_of. by destruct (f w). Qed.

Lemma world_of_log {W} lvl format (w : W) : world_of (log lvl format w) = w.
Proof. done. Qed.

Lemma trace_of_log {W} lvl format (w : W) :
  trace_of (log lvl format w) = [EvLog lvl format].
Proof. done. Qed.

Lemma run_eta {W A} (r : A * W * list Event) :
  r = (result_of r, world_of r, trace_of r).
Proof. by destruct r as [[? ?] ?]. Qed.

(** The disjointness test of [AcquireSector] is the test that the two sets
    have no common bit. *)
Lemma lor_eq_lxor_iff (a b : Z) : Z.lor a b = Z.lxor a b <-> Z.land a b = 0%Z.
Proof.
  split; intros H.
  - apply Z.bits_inj'. intros n Hn. rewrite Z.land_spec, Z.bits_0.
    assert (Hb : Z.testbit (Z.lor a b) n = Z.testbit (Z.lxor a b) n) by by rewrite H.
    rewrite Z.lor_spec, Z.lxor_spec in Hb.
    by destruct (Z.testbit a n), (Z.testbit b n).
  - symmetry. by apply Z.lxor_lor.
Qed.

Lemma PathTypes_cases (ft : SectorFileType) :
  ft ∈ PathTypes -> ft = FTUnsealed \/ ft = FTSealed \/ ft = FTCache.
Proof. unfold PathTypes. rewrite !elem_of_cons, elem_of_nil. tauto. Qed.

(** Clearing the bit of one file type leaves the tests of the others as they
    were. *)
Lemma land_lxor_other (a b e : SectorFileType) :
  a ∈ PathTypes -> b ∈ PathTypes -> a <> b -> Z.land a (Z.lxor e b) = Z.land a e.
Proof.
  intros Ha Hb Hab.
  assert (Hd : Z.land a b = 0%Z).
  { apply PathTypes_cases in Ha as [-> | [-> | ->]];
      apply PathTypes_cases in Hb as [-> | [-> | ->]]; done. }
  apply Z.bits_inj'. intros n Hn.
  assert (Hbit : Z.testbit (Z.land a b) n = false) by (rewrite Hd; apply Z.bits_0).
  rewrite Z.land_spec in Hbit. rewrite !Z.land_spec, Z.lxor_spec.
  by destruct (Z.testbit a n), (Z.testbit b n), (Z.testbit e n).
Qed.

Lemma PathByType_Set (sps : SectorPaths) (a b : SectorFileType) (p : string) :
  a ∈ PathTypes -> b ∈ PathTypes ->
  PathByType (SetPathByType sps a p) b = if decide (a = b) then p else PathByType sps b.
Proof.
  intros Ha Hb.
  apply PathTypes_cases in Ha as [-> | [-> | ->]];
    apply PathTypes_cases in Hb as [-> | [-> | ->]]; done.
Qed.

Lemma PathByType_zero (ft : SectorFileType) : PathByType SectorPaths_zero ft = "".
Proof.
  unfold PathByType.
  by destruct (ft =? FTUnsealed)%Z, (ft =? FTSealed)%Z, (ft =? FTCache)%Z.
Qed.

(** [filepath.Clean] never returns the empty string, so neither does
    [filepath.Join] when its first element is not empty. *)
Lemma Clean_nonempty (p : string) : filepath.Clean p <> "".
Proof.
  unfold filepath.Clean.
  destruct (String.eqb _ "") eqn:E; [done|]. by apply String.eqb_neq.
Qed.

Lemma Join_nonempty (a : string) (rest : list string) :
  a <> "" -> filepath.Join (a :: rest) <> "".
Proof.
  intros Ha. simpl. apply String.eqb_neq in Ha. rewrite Ha. apply Clean_nonempty.
Qed.

(** ** AcquireSector: what the two loops compute *)


Section Acquire_facts.
Context {W : Type} `{!SectorIndex W}.
Variable SectorName : SectorID -> string.
Variable PathSealing : PathType.
Variable String_other : SectorFileType -> string.

Lemma sector_path_under (st : Local) (id : ID) (p : path) ft sid :
  paths st !! id = Some p ->
  sector_path SectorName String_other p ft sid
  = path_under SectorName String_other st id ft sid.
Proof. intros Hp. unfold sector_path, path_under, mount_root. by rewrite Hp. Qed.

Lemma path_under_nonempty (st : Local) (id : ID) ft sid :
  mount_root st id <> "" -> path_under SectorName String_other st id ft sid <> "".
Proof. intros Hr. unfold path_under. by apply Join_nonempty. Qed.

Lemma scan_existing_find (st : Local) sid ft si out ids ex :
  scan_existing SectorName String_other st sid ft si out ids ex
  = match List.find (holder_usable st) si with
    | Some info =>
        (SetPathByType out ft (path_under SectorName String_other st (SSI_ID info) ft sid),
         SetPathByType ids ft (SSI_ID info), Z.lxor ex ft)
    | None => (out, ids, ex)
    end.
Proof.
  induction si as [|info rest IH]; [done|].
  simpl. unfold holder_usable at 1.
  destruct (paths st !! SSI_ID info) as [p|] eqn:Hp; [|exact IH].
  destruct (String.eqb (local p) ""); simpl; [exact IH|].
  by rewrite (sector_path_under st (SSI_ID info) p).
Qed.

Lemma scan_best_last (st : Local) sid ft pathType sis best bestID :
  scan_best SectorName PathSealing String_other st sid ft pathType sis best bestID
  = match last (List.filter (candidate_survives PathSealing st pathType) sis) with
    | Some c => (path_under SectorName String_other st (SI_ID c) ft sid, SI_ID c)
    | None => (best, bestID)
    end.
Proof.
  revert best bestID. induction sis as [|si rest IH]; intros best bestID; [done|].
  simpl. unfold candidate_survives at 1.
  destruct (paths st !! SI_ID si) as [p|] eqn:Hp; [|apply IH].
  destruct (String.eqb (local p) ""); simpl; [apply IH|].
  unfold PathStorage.
  destruct pathType, PathSealing, (SI_CanSeal si), (SI_CanStore si); simpl;
    rewrite ?IH, ?last_cons;
    try (by destruct (last (List.filter _ rest)));
    by (destruct (last (List.filter _ rest)); [|rewrite (sector_path_under st (SI_ID si) p)]).
Qed.

(** A surviving candidate sits on a non-empty mount root. *)
Lemma survivor_root (st : Local) pathType (c : StorageInfo) :
  candidate_survives PathSealing st pathType c = true -> mount_root st (SI_ID c) <> "".
Proof.
  unfold candidate_survives, mount_root.
  destruct (paths st !! SI_ID c) as [p|]; [|done].
  intros [Hl _]%andb_prop. apply negb_true_iff in Hl. by apply String.eqb_neq.
Qed.

Lemma last_filter_survives {A} (f : A -> bool) (l : list A) (c : A) :
  last (List.filter f l) = Some c -> f c = true /\ In c l.
Proof.
  intros Hl. apply last_Some_elem_of, list_elem_of_In, filter_In in Hl. tauto.
Qed.

Lemma last_filter_None {A} (f : A -> bool) (l : list A) :
  last (List.filter f l) = None <-> List.filter f l = [].
Proof. apply last_None. Qed.

Lemma holder_usable_root (st : Local) (info : SectorStorageInfo) :
  holder_usable st info = true -> mount_root st (SSI_ID info) <> "".
Proof.
  unfold holder_usable, mount_root.
  destruct (paths st !! SSI_ID info) as [p|]; [|done].
  intros Hl. apply negb_true_iff in Hl. by apply String.eqb_neq.
Qed.

End Acquire_facts.

Section Acquire_loops.
Context {W : Type} `{!SectorIndex W}.
Variable SectorName : SectorID -> string.
Variable PathSealing : PathType.
Variable String_other : SectorFileType -> string.


Lemma entry_after_notin {A} types set ft (choice : option A) new old :
  ft ∉ types -> entry_after types set ft choice new old = old.
Proof. intros Hn. unfold entry_after. case_decide as Hc; [by destruct Hc|done]. Qed.

Lemma entry_after_head {A} ft0 rest set (choice : option A) new old :
  entry_after (ft0 :: rest) set ft0 choice new old
  = if decide (Z.land ft0 set <> 0%Z)
    then match choice with Some a => new a | None => old end
    else old.
Proof.
  unfold entry_after. repeat case_decide; try done.
  - by destruct H.
  - destruct H. split; [apply elem_of_cons; by left|done].
Qed.

Lemma entry_after_tail {A} ft0 rest set set' ft (choice : option A) new old :
  ft <> ft0 -> Z.land ft set' = Z.land ft set ->
  entry_after (ft0 :: rest) set ft choice new old
  = entry_after rest set' ft choice new old.
Proof.
  intros Hne Hl. unfold entry_after. rewrite Hl.
  repeat case_decide; try done.
  - destruct H as [Hin Hb]. apply elem_of_cons in Hin as [-> | Hin]; [done|].
    by destruct H0.
  - destruct H0 as [Hin Hb]. destruct H. split; [by apply elem_of_cons; right|done].
Qed.

Lemma acquire_existing_entries (st : Local) sid found :
  forall types out ids existing w,
  NoDup types -> (forall ft, ft ∈ types -> ft ∈ PathTypes) ->
  (forall ft w, ft ∈ types -> Z.land ft existing <> 0%Z ->
     fst (StorageFindSector sid ft false w) = found ft) ->
  forall ft, ft ∈ PathTypes ->
  let r := result_of
             (acquire_existing SectorName String_other st sid types out ids existing w) in
  PathByType r.1.1 ft
  = entry_after types existing ft (existing_choice st (found ft))
      (fun id => path_under SectorName String_other st id ft sid) (PathByType out ft)
  /\ PathByType r.1.2 ft
  = entry_after types existing ft (existing_choice st (found ft))
      (fun id => id) (PathByType ids ft).
Proof.
  induction types as [|ft0 rest IH]; intros out ids existing w Hnd Hsub Hfound ft Hft.
  - simpl. by rewrite !entry_after_notin by apply not_elem_of_nil.
  - apply NoDup_cons in Hnd as [Hnotin Hnd].
    assert (Hsub' : forall ft, ft ∈ rest -> ft ∈ PathTypes).
    { intros f Hf. apply Hsub. by apply elem_of_cons; right. }
    assert (Hft0 : ft0 ∈ PathTypes) by (apply Hsub; apply elem_of_cons; by left).
    assert (Hfound' : forall ft w, ft ∈ rest -> Z.land ft existing <> 0%Z ->
              fst (StorageFindSector sid ft false w) = found ft).
    { intros f w' Hf. apply Hfound. by apply elem_of_cons; right. }
    simpl acquire_existing.
    destruct (Z.land ft0 existing =? 0)%Z eqn:Hbit.
    + apply Z.eqb_eq in Hbit.
      destruct (IH out ids existing w Hnd Hsub' Hfound' ft Hft) as [E1 E2].
      cbv zeta. rewrite E1, E2.
      destruct (decide (ft = ft0)) as [-> | Hne].
      * rewrite !entry_after_head, !entry_after_notin by done. by case_decide.
      * by rewrite !(entry_after_tail ft0 rest existing existing).
    + apply Z.eqb_neq in Hbit. cbv zeta.
      rewrite result_of_bind. unfold index_StorageFindSector.
      rewrite result_of_call, world_of_call.
      rewrite (Hfound ft0 w) by (try apply elem_of_cons; auto).
      set (w1 := (StorageFindSector sid ft0 false w).2).
      destruct (found ft0) as [si|e] eqn:Hf0.
      * rewrite scan_existing_find.
        destruct (List.find (holder_usable st) si) as [info|] eqn:Hfind;
          cbv beta iota zeta.
        -- assert (Hfound'' : forall ft w, ft ∈ rest ->
                     Z.land ft (Z.lxor existing ft0) <> 0%Z ->
                     fst (StorageFindSector sid ft false w) = found ft).
           { intros f w' Hf. rewrite land_lxor_other; auto. by intros ->. }
           destruct (IH (SetPathByType out ft0
                           (path_under SectorName String_other st (SSI_ID info) ft0 sid))
                        (SetPathByType ids ft0 (SSI_ID info)) (Z.lxor existing ft0)
                        w1 Hnd Hsub' Hfound'' ft Hft) as [E1 E2].
           cbv zeta in E1, E2. rewrite E1, E2, !PathByType_Set by done.
           destruct (decide (ft = ft0)) as [-> | Hne].
           ++ rewrite !entry_after_head, !entry_after_notin by done.
              unfold existing_choice. rewrite Hf0, Hfind. simpl.
              by repeat case_decide.
           ++ rewrite !(entry_after_tail ft0 rest existing (Z.lxor existing ft0))
                by (done || by apply land_lxor_other).
              by repeat case_decide.
        -- destruct (IH out ids existing w1 Hnd Hsub' Hfound' ft Hft) as [E1 E2].
           cbv zeta in E1, E2. rewrite E1, E2.
           destruct (decide (ft = ft0)) as [-> | Hne].
           ++ rewrite !entry_after_head, !entry_after_notin by done.
              unfold existing_choice. rewrite Hf0, Hfind. simpl. by case_decide.
           ++ by rewrite !(entry_after_tail ft0 rest existing existing).
      * rewrite result_of_bind, world_of_log.
        destruct (IH out ids existing w1 Hnd Hsub' Hfound' ft Hft) as [E1 E2].
        cbv zeta in E1, E2. rewrite E1, E2.
        destruct (decide (ft = ft0)) as [-> | Hne].
        -- rewrite !entry_after_head, !entry_after_notin by done.
           unfold existing_choice. rewrite Hf0. by case_decide.
        -- by rewrite !(entry_after_tail ft0 rest existing existing).
Qed.

Lemma acquire_allocate_ok (st : Local) sid spt pathType cands :
  forall types out ids allocate w,
  NoDup types -> (forall ft, ft ∈ types -> ft ∈ PathTypes) ->
  (forall ft w, ft ∈ types -> Z.land ft allocate <> 0%Z ->
     fst (StorageBestAlloc ft spt pathType w) = cands ft) ->
  (forall ft, ft ∈ types -> Z.land ft allocate <> 0%Z ->
     allocate_choice PathSealing st pathType (cands ft) <> None) ->
  exists out' ids',
    result_of (acquire_allocate SectorName PathSealing String_other st sid spt pathType
                 types out ids allocate w) = Ok (out', ids')
    /\ forall ft, ft ∈ PathTypes ->
       PathByType out' ft
       = entry_after types allocate ft (allocate_choice PathSealing st pathType (cands ft))
           (fun c => path_under SectorName String_other st (SI_ID c) ft sid)
           (PathByType out ft)
       /\ PathByType ids' ft
       = entry_after types allocate ft (allocate_choice PathSealing st pathType (cands ft))
           SI_ID (PathByType ids ft).
Proof.
  induction types as [|ft0 rest IH]; intros out ids allocate w Hnd Hsub Hc Hs.
  - exists out, ids. split; [done|]. intros ft _.
    by rewrite !entry_after_notin by apply not_elem_of_nil.
  - apply NoDup_cons in Hnd as [Hnotin Hnd].
    assert (Hsub' : forall ft, ft ∈ rest -> ft ∈ PathTypes).
    { intros f Hf. apply Hsub. by apply elem_of_cons; right. }
    assert (Hft0 : ft0 ∈ PathTypes) by (apply Hsub; apply elem_of_cons; by left).
    simpl acquire_allocate.
    destruct (Z.land ft0 allocate =? 0)%Z eqn:Hbit.
    + apply Z.eqb_eq in Hbit.
      destruct (IH out ids allocate w Hnd Hsub') as (out' & ids' & Hr & He).
      { intros f w' Hf. apply Hc. by apply elem_of_cons; right. }
      { intros f Hf. apply Hs. by apply elem_of_cons; right. }
      exists out', ids'. split; [done|]. intros ft Hft.
      destruct (He ft Hft) as [E1 E2]. rewrite E1, E2.
      destruct (decide (ft = ft0)) as [-> | Hne].
      * rewrite !entry_after_head, !entry_after_notin by done. by case_decide.
      * by rewrite !(entry_after_tail ft0 rest allocate allocate).
    + apply Z.eqb_neq in Hbit.
      rewrite result_of_bind. unfold index_StorageBestAlloc.
      rewrite result_of_call, world_of_call.
      rewrite (Hc ft0 w) by (try apply elem_of_cons; auto).
      set (w1 := (StorageBestAlloc ft0 spt pathType w).2).
      assert (Hch : allocate_choice PathSealing st pathType (cands ft0) <> None).
      { apply Hs; [apply elem_of_cons; by left|done]. }
      unfold allocate_choice, survivors in Hch.
      destruct (cands ft0) as [sis|e] eqn:Hc0; [|done].
      rewrite scan_best_last.
      destruct (last (List.filter _ sis)) as [c|] eqn:Hlast; [|done].
      cbv beta iota zeta.
      apply last_filter_survives in Hlast as Hsv. destruct Hsv as [Hsv _].
      apply (survivor_root PathSealing) in Hsv.
      apply (path_under_nonempty SectorName String_other st _ ft0 sid) in Hsv.
      apply String.eqb_neq in Hsv. rewrite Hsv.
      edestruct (IH (SetPathByType out ft0
                       (path_under SectorName String_other st (SI_ID c) ft0 sid))
                    (SetPathByType ids ft0 (SI_ID c)) (Z.lxor allocate ft0) w1 Hnd Hsub')
        as (out' & ids' & Hr & He).
      { intros f w' Hf. rewrite land_lxor_other; auto; [|by intros ->].
        intros Hb. apply Hc; [by apply elem_of_cons; right|done]. }
      { intros f Hf. rewrite land_lxor_other; auto; [|by intros ->].
        intros Hb. apply Hs; [by apply elem_of_cons; right|done]. }
      exists out', ids'. split; [done|]. intros ft Hft.
      destruct (He ft Hft) as [E1 E2]. rewrite E1, E2, !PathByType_Set by done.
      destruct (decide (ft = ft0)) as [-> | Hne].
      * rewrite !entry_after_head, !entry_after_notin by done.
        unfold allocate_choice, survivors. rewrite Hc0, Hlast.
        by repeat case_decide.
      * rewrite !(entry_after_tail ft0 rest allocate (Z.lxor allocate ft0))
          by (done || by apply land_lxor_other).
        by repeat case_decide.
Qed.

(** The second loop fails with one of two errors only. *)
Lemma acquire_allocate_errors (st : Local) sid spt pathType :
  forall types out ids allocate w e,
  result_of (acquire_allocate SectorName PathSealing String_other st sid spt pathType
               types out ids allocate w) = Err e ->
  e = ErrNoSuitableStorage
  \/ exists err, e = Wrap "finding best storage for allocating " err.
Proof.
  induction types as [|ft0 rest IH]; intros out ids allocate w e; [done|].
  simpl acquire_allocate.
  destruct (Z.land ft0 allocate =? 0)%Z; [apply IH|].
  rewrite result_of_bind.
  destruct (result_of (index_StorageBestAlloc ft0 spt pathType w)) as [sis|err].
  - destruct (scan_best _ _ _ _ _ _ _ _ _ _) as [best bestID].
    destruct (String.eqb best ""); [|apply IH].
    intros [= <-]. by left.
  - intros [= <-]. right. by exists err.
Qed.

(** When some requested type has no choice, the second loop fails; it fails
    with [ErrNoSuitableStorage] when the index answered every request. *)
Lemma acquire_allocate_fails (st : Local) sid spt pathType cands :
  forall types out ids allocate w,
  NoDup types -> (forall ft, ft ∈ types -> ft ∈ PathTypes) ->
  (forall ft w, ft ∈ types -> Z.land ft allocate <> 0%Z ->
     fst (StorageBestAlloc ft spt pathType w) = cands ft) ->
  (exists ft, ft ∈ types /\ Z.land ft allocate <> 0%Z
     /\ allocate_choice PathSealing st pathType (cands ft) = None) ->
  exists e,
    result_of (acquire_allocate SectorName PathSealing String_other st sid spt pathType
                 types out ids allocate w) = Err e
    /\ ((forall ft, ft ∈ types -> Z.land ft allocate <> 0%Z -> is_Ok (cands ft) = true) ->
        e = ErrNoSuitableStorage).
Proof.
  induction types as [|ft0 rest IH]; intros out ids allocate w Hnd Hsub Hc Hex.
  - destruct Hex as (ft & Hin & _). by apply elem_of_nil in Hin.
  - apply NoDup_cons in Hnd as [Hnotin Hnd].
    assert (Hsub' : forall ft, ft ∈ rest -> ft ∈ PathTypes).
    { intros f Hf. apply Hsub. by apply elem_of_cons; right. }
    assert (Hft0 : ft0 ∈ PathTypes) by (apply Hsub; apply elem_of_cons; by left).
    simpl acquire_allocate.
    destruct (Z.land ft0 allocate =? 0)%Z eqn:Hbit.
    + apply Z.eqb_eq in Hbit.
      destruct (IH out ids allocate w Hnd Hsub') as (e & Hr & He).
      { intros f w' Hf. apply Hc. by apply elem_of_cons; right. }
      { destruct Hex as (ft & Hin & Hb & Hn). exists ft.
        apply elem_of_cons in Hin as [-> | Hin]; done. }
      exists e. split; [done|]. intros Hok. apply He.
      intros f Hf. apply Hok. by apply elem_of_cons; right.
    + apply Z.eqb_neq in Hbit.
      rewrite result_of_bind. unfold index_StorageBestAlloc.
      rewrite result_of_call, world_of_call.
      rewrite (Hc ft0 w) by (try apply elem_of_cons; auto).
      set (w1 := (StorageBestAlloc ft0 spt pathType w).2).
      destruct (cands ft0) as [sis|err] eqn:Hc0.
      * rewrite scan_best_last.
        destruct (last (List.filter _ sis)) as [c|] eqn:Hlast; cbv beta iota zeta.
        -- apply last_filter_survives in Hlast as Hsv. destruct Hsv as [Hsv _].
           apply (survivor_root PathSealing) in Hsv.
           apply (path_under_nonempty SectorName String_other st _ ft0 sid) in Hsv.
           apply String.eqb_neq in Hsv. rewrite Hsv.
           edestruct (IH (SetPathByType out ft0
                            (path_under SectorName String_other st (SI_ID c) ft0 sid))
                         (SetPathByType ids ft0 (SI_ID c)) (Z.lxor allocate ft0) w1
                         Hnd Hsub') as (e & Hr & He).
           { intros f w' Hf. rewrite land_lxor_other; auto; [|by intros ->].
             intros Hb. apply Hc; [by apply elem_of_cons; right|done]. }
           { destruct Hex as (ft & Hin & Hb & Hn). exists ft.
             apply elem_of_cons in Hin as [-> | Hin].
             - unfold allocate_choice, survivors in Hn. rewrite Hc0 in Hn.
               congruence.
             - rewrite land_lxor_other; auto. by intros ->. }
           exists e. split; [done|]. intros Hok. apply He.
           intros f Hf. rewrite land_lxor_other; auto; [|by intros ->].
           intros Hb. apply Hok; [by apply elem_of_cons; right|done].
        -- exists ErrNoSuitableStorage. by rewrite String.eqb_refl.
      * eexists. split; [done|]. intros Hok.
        specialize (Hok ft0). rewrite Hc0 in Hok. simpl in Hok.
        discriminate Hok; [apply elem_of_cons; by left|done].
Qed.

Lemma find_events_ext sid ex ex' found types :
  (forall ft, ft ∈ types -> Z.land ft ex' = Z.land ft ex) ->
  find_events sid ex' found types = find_events sid ex found types.
Proof.
  induction types as [|ft0 rest IH]; intros Hl; [done|].
  unfold find_events in *. simpl.
  rewrite (Hl ft0) by (apply elem_of_cons; by left).
  rewrite IH; [done|]. intros f Hf. apply Hl. by apply elem_of_cons; right.
Qed.

Lemma acquire_existing_trace (st : Local) sid found :
  forall types out ids existing w,
  NoDup types -> (forall ft, ft ∈ types -> ft ∈ PathTypes) ->
  (forall ft w, ft ∈ types -> Z.land ft existing <> 0%Z ->
     fst (StorageFindSector sid ft false w) = found ft) ->
  trace_of (acquire_existing SectorName String_other st sid types out ids existing w)
  = find_events sid existing found types.
Proof.
  induction types as [|ft0 rest IH]; intros out ids existing w Hnd Hsub Hfound; [done|].
  apply NoDup_cons in Hnd as [Hnotin Hnd].
  assert (Hsub' : forall ft, ft ∈ rest -> ft ∈ PathTypes).
  { intros f Hf. apply Hsub. by apply elem_of_cons; right. }
  assert (Hft0 : ft0 ∈ PathTypes) by (apply Hsub; apply elem_of_cons; by left).
  assert (Hfound' : forall ft w, ft ∈ rest -> Z.land ft existing <> 0%Z ->
            fst (StorageFindSector sid ft false w) = found ft).
  { intros f w' Hf. apply Hfound. by apply elem_of_cons; right. }
  simpl acquire_existing. unfold find_events. simpl flat_map.
  fold (find_events sid existing found rest).
  destruct (Z.land ft0 existing =? 0)%Z eqn:Hbit; [by apply IH|].
  apply Z.eqb_neq in Hbit.
  rewrite trace_of_bind. unfold index_StorageFindSector.
  rewrite trace_of_call, result_of_call, world_of_call.
  rewrite (Hfound ft0 w) by (try apply elem_of_cons; auto).
  set (w1 := (StorageFindSector sid ft0 false w).2).
  destruct (found ft0) as [si|e] eqn:Hf0; simpl is_Ok; cbv iota.
  - rewrite scan_existing_find.
    destruct (List.find (holder_usable st) si) as [info|]; cbv beta iota zeta.
    + rewrite (IH _ _ (Z.lxor existing ft0)); try done.
      * simpl. f_equal. apply find_events_ext.
        intros f Hf. apply land_lxor_other; auto. by intros ->.
      * intros f w' Hf. rewrite land_lxor_other; auto. by intros ->.
    + by rewrite (IH _ _ existing).
  - rewrite trace_of_bind, trace_of_log, world_of_log.
    by rewrite (IH _ _ existing).
Qed.

(** The second loop only queries the index: it logs nothing and changes
    nothing. *)
Lemma acquire_allocate_trace (st : Local) sid spt pathType :
  forall types out ids allocate w,
  Forall (fun e => is_log e = false /\ is_mutation e = false)
    (trace_of (acquire_allocate SectorName PathSealing String_other st sid spt pathType
                 types out ids allocate w)).
Proof.
  induction types as [|ft0 rest IH]; intros out ids allocate w; [by constructor|].
  simpl acquire_allocate.
  destruct (Z.land ft0 allocate =? 0)%Z; [apply IH|].
  rewrite trace_of_bind. unfold index_StorageBestAlloc at 1. rewrite trace_of_call.
  apply Forall_app. split; [by repeat constructor|].
  destruct (result_of _) as [sis|err]; [|by constructor].
  destruct (scan_best _ _ _ _ _ _ _ _ _ _) as [best bestID].
  destruct (String.eqb best ""); [by constructor|apply IH].
Qed.

Lemma find_events_quiet sid existing found types :
  (forall ft, ft ∈ types -> Z.land ft existing <> 0%Z -> is_Ok (found ft) = true) ->
  Forall (fun e => is_log e = false /\ is_mutation e = false)
    (find_events sid existing found types).
Proof.
  induction types as [|ft0 rest IH]; intros Hok; [by constructor|].
  unfold find_events. simpl flat_map. fold (find_events sid existing found rest).
  apply Forall_app. split.
  - destruct (Z.land ft0 existing =? 0)%Z eqn:Hbit; [by constructor|].
    apply Z.eqb_neq in Hbit. rewrite Hok; [|apply elem_of_cons; by left|done].
    by repeat constructor.
  - apply IH. intros f Hf. apply Hok. by apply elem_of_cons; right.
Qed.

End Acquire_loops.

(** ** AcquireSector: the whole call *)

Section AcquireSector_facts.
Context {W : Type} `{!SectorIndex W}.
Variable SectorName : SectorID -> string.
Variable PathSealing : PathType.
Variable String_other : SectorFileType -> string.

Lemma NoDup_PathTypes : NoDup PathTypes.
Proof.
  unfold PathTypes.
  repeat (apply NoDup_cons; split;
          [rewrite ?elem_of_cons, elem_of_nil; by intros [?|[?|?]] || by intros [?|?]
             || by intros ?|]).
  apply NoDup_nil_2.
Qed.

Lemma land_pow2 (k x : Z) :
  (0 <= k)%Z -> Z.land (2 ^ k) x = if Z.testbit x k then (2 ^ k)%Z else 0%Z.
Proof.
  intros Hk. apply Z.bits_inj'. intros n Hn.
  rewrite Z.land_spec, Z.pow2_bits_eqb by done.
  destruct (Z.eqb_spec k n) as [-> | Hne].
  - destruct (Z.testbit x n); [|by rewrite Z.bits_0].
    by rewrite Z.pow2_bits_true.
  - destruct (Z.testbit x k); [|by rewrite Z.bits_0].
    by rewrite Z.pow2_bits_false.
Qed.

Lemma PathTypes_pow2 (ft : SectorFileType) :
  ft ∈ PathTypes -> exists k, (0 <= k)%Z /\ ft = (2 ^ k)%Z.
Proof.
  intros [-> | [-> | ->]]%PathTypes_cases;
    [exists 0%Z | exists 1%Z | exists 2%Z]; done.
Qed.

(** A file type requested as existing is not requested for allocation when
    the two sets are disjoint. *)
Lemma disjoint_bit (ft existing allocate : SectorFileType) :
  ft ∈ PathTypes -> Z.land existing allocate = 0%Z ->
  Z.land ft existing <> 0%Z -> Z.land ft allocate = 0%Z.
Proof.
  intros (k & Hk & ->)%PathTypes_pow2 Hd. rewrite !land_pow2 by done.
  assert (Hb : Z.testbit (Z.land existing allocate) k = false)
    by (rewrite Hd; apply Z.bits_0).
  rewrite Z.land_spec in Hb.
  by destruct (Z.testbit existing k), (Z.testbit allocate k).
Qed.

Lemma AcquireSector_disjoint_run (st : Local) sid spt existing allocate pathType op w :
  Z.land existing allocate = 0%Z ->
  AcquireSector SectorName PathSealing String_other st sid spt existing allocate pathType op w
  = bind (acquire_existing SectorName String_other st sid PathTypes
            SectorPaths_zero SectorPaths_zero existing)
      (fun r => let '(out, storageIDs, _) := r in
                acquire_allocate SectorName PathSealing String_other st sid spt pathType
                  PathTypes out storageIDs allocate) w.
Proof.
  intros Hd. unfold AcquireSector.
  apply lor_eq_lxor_iff, Z.eqb_eq in Hd. by rewrite Hd.
Qed.

Lemma AcquireSector_conflict_run (st : Local) sid spt existing allocate pathType op w :
  Z.land existing allocate <> 0%Z ->
  AcquireSector SectorName PathSealing String_other st sid spt existing allocate pathType op w
  = (Err ErrConflictingFileTypeRequest, w, []).
Proof.
  intros Hd. unfold AcquireSector.
  destruct (Z.eqb_spec (Z.lor existing allocate) (Z.lxor existing allocate)) as [He|He];
    [|done].
  by apply lor_eq_lxor_iff in He.
Qed.

(** The entries of a successful call, file type by file type. *)
Lemma AcquireSector_resolves (st : Local) sid spt existing allocate pathType op
    found cands w :
  Z.land existing allocate = 0%Z ->
  index_finds sid existing found ->
  index_offers spt pathType allocate cands ->
  (forall ft, ft ∈ PathTypes -> Z.land ft allocate <> 0%Z ->
     allocate_choice PathSealing st pathType (cands ft) <> None) ->
  exists out ids,
    result_of (AcquireSector SectorName PathSealing String_other st sid spt
                 existing allocate pathType op w) = Ok (out, ids)
    /\ forall ft, ft ∈ PathTypes ->
       PathByType out ft
       = entry_after PathTypes allocate ft (allocate_choice PathSealing st pathType (cands ft))
           (fun c => path_under SectorName String_other st (SI_ID c) ft sid)
           (entry_after PathTypes existing ft (existing_choice st (found ft))
              (fun id => path_under SectorName String_other st id ft sid) "")
       /\ PathByType ids ft
       = entry_after PathTypes allocate ft (allocate_choice PathSealing st pathType (cands ft))
           SI_ID
           (entry_after PathTypes existing ft (existing_choice st (found ft))
              (fun id => id) "").
Proof.
  intros Hd Hfound Hoffers Hch.
  rewrite AcquireSector_disjoint_run, result_of_bind by done.
  pose proof (acquire_existing_entries SectorName String_other st sid found PathTypes
                SectorPaths_zero SectorPaths_zero existing w NoDup_PathTypes
                (fun _ H => H) (fun ft w H => Hfound ft w H)) as Hex.
  destruct (result_of (acquire_existing _ _ _ _ _ _ _ _ _)) as [[out1 ids1] ex1].
  cbv zeta in Hex. simpl in Hex.
  destruct (acquire_allocate_ok SectorName PathSealing String_other st sid spt pathType
              cands PathTypes out1 ids1 allocate
              (world_of (acquire_existing SectorName String_other st sid PathTypes
                           SectorPaths_zero SectorPaths_zero existing w))
              NoDup_PathTypes (fun _ H => H) (fun ft w H => Hoffers ft w H) Hch)
    as (out & ids & Hr & He).
  exists out, ids. split; [done|]. intros ft Hft.
  destruct (He ft Hft) as [E1 E2]. destruct (Hex ft Hft) as [X1 X2].
  by rewrite E1, E2, X1, X2, !PathByType_zero.
Qed.

(** The trace of a call on disjoint sets: the queries of the first loop, then
    those of the second. *)
Lemma AcquireSector_trace (st : Local) sid spt existing allocate pathType op found w :
  Z.land existing allocate = 0%Z ->
  index_finds sid existing found ->
  exists rest,
    trace_of (AcquireSector SectorName PathSealing String_other st sid spt
                existing allocate pathType op w)
    = find_events sid existing found PathTypes ++ rest
    /\ Forall (fun e => is_log e = false /\ is_mutation e = false) rest.
Proof.
  intros Hd Hfound.
  rewrite AcquireSector_disjoint_run, trace_of_bind by done.
  rewrite (acquire_existing_trace SectorName String_other st sid found PathTypes
             _ _ existing w NoDup_PathTypes (fun _ H => H) (fun ft w H => Hfound ft w H)).
  eexists. split; [done|].
  destruct (result_of _) as [[out1 ids1] ex1]. apply acquire_allocate_trace.
Qed.

Lemma entry_after_set {A} types set ft (choice : option A) new old :
  ft ∈ types -> Z.land ft set <> 0%Z ->
  entry_after types set ft choice new old
  = match choice with Some a => new a | None => old end.
Proof. intros Hin Hb. unfold entry_after. case_decide as Hc; [done|]. by destruct Hc. Qed.

Lemma entry_after_unset {A} types set ft (choice : option A) new old :
  Z.land ft set = 0%Z -> entry_after types set ft choice new old = old.
Proof. intros Hb. unfold entry_after. case_decide as Hc; [by destruct Hc|done]. Qed.

End AcquireSector_facts.

(** ** AcquireSector: the properties *)

Section AcquireSector_claims.
Context {W : Type} `{!SectorIndex W}.
Variable SectorName : SectorID -> string.
Variable PathSealing : PathType.
Variable String_other : SectorFileType -> string.

Lemma has_survivor_choice (st : Local) pathType allocate cands :
  every_type_has_survivor PathSealing st pathType allocate cands ->
  forall ft, ft ∈ PathTypes -> Z.land ft allocate <> 0%Z ->
    allocate_choice PathSealing st pathType (cands ft) <> None.
Proof.
  intros Hs ft Hft Hb Hn. apply last_None in Hn. by apply (Hs ft).
Qed.

(** C1: for the file types of the allocate set, [AcquireSector] keeps of the
    index's [StorageBestAlloc] answer the candidates that are registered with
    a non-empty mount root and have the capability the path type requires.
    When every requested type has a survivor the call succeeds, and each such
    type gets the path [<mountroot>/<type>/<sector>] of the last survivor in
    the index's order, with that survivor's storage ID.  When some requested
    type has no survivor the whole call fails with [ErrNoSuitableStorage]. *)
Theorem AcquireSector_allocates_last_survivor (st : Local) sid spt existing allocate
    pathType op cands w :
  Z.land existing allocate = 0%Z ->
  index_offers spt pathType allocate cands ->
  (forall ft, ft ∈ PathTypes -> Z.land ft allocate <> 0%Z -> is_Ok (cands ft) = true) ->
  (every_type_has_survivor PathSealing st pathType allocate cands ->
   exists out ids,
     result_of (AcquireSector SectorName PathSealing String_other st sid spt
                  existing allocate pathType op w) = Ok (out, ids)
     /\ forall ft, ft ∈ PathTypes -> Z.land ft allocate <> 0%Z ->
        exists c,
          last (survivors PathSealing st pathType (cands ft)) = Some c
          /\ candidate_survives PathSealing st pathType c = true
          /\ PathByType out ft = path_under SectorName String_other st (SI_ID c) ft sid
          /\ PathByType ids ft = SI_ID c)
  /\ ((exists ft, ft ∈ PathTypes /\ Z.land ft allocate <> 0%Z
         /\ survivors PathSealing st pathType (cands ft) = []) ->
      result_of (AcquireSector SectorName PathSealing String_other st sid spt
                   existing allocate pathType op w) = Err ErrNoSuitableStorage).
Proof.
  intros Hd Hoffers Hanswered.
  rewrite AcquireSector_disjoint_run, result_of_bind by done.
  destruct (result_of (acquire_existing _ _ _ _ _ _ _ _ _)) as [[out1 ids1] ex1].
  set (w1 := world_of _). split.
  - intros Hs.
    destruct (acquire_allocate_ok SectorName PathSealing String_other st sid spt pathType
                cands PathTypes out1 ids1 allocate w1 NoDup_PathTypes (fun _ H => H)
                (fun ft w H => Hoffers ft w H) (has_survivor_choice _ _ _ _ Hs))
      as (out & ids & Hr & He).
    exists out, ids. split; [done|]. intros ft Hft Hb.
    destruct (He ft Hft) as [E1 E2].
    rewrite !entry_after_set in E1, E2 by done.
    pose proof (has_survivor_choice _ _ _ _ Hs ft Hft Hb) as Hch.
    unfold allocate_choice in *.
    destruct (last _) as [c|] eqn:Hlast; [|done].
    exists c. repeat split; try done.
    unfold survivors in Hlast. destruct (cands ft) as [sis|]; [|done].
    by apply last_filter_survives in Hlast as [? _].
  - intros (ft & Hft & Hb & Hnone).
    destruct (acquire_allocate_fails SectorName PathSealing String_other st sid spt pathType
                cands PathTypes out1 ids1 allocate w1 NoDup_PathTypes (fun _ H => H)
                (fun ft w H => Hoffers ft w H)) as (e & Hr & He).
    { exists ft. repeat split; try done. unfold allocate_choice. by rewrite Hnone. }
    rewrite Hr. f_equal. apply He. intros f Hf. by apply Hanswered.
Qed.

(** C2: [AcquireSector] fails with [ErrConflictingFileTypeRequest], leaving
    the world untouched and with no interaction at all, for every pair of
    sets with a common bit; for every disjoint pair it never returns that
    error. *)
Theorem AcquireSector_disjointness (st : Local) sid spt existing allocate pathType op w :
  (Z.land existing allocate <> 0%Z ->
   AcquireSector SectorName PathSealing String_other st sid spt existing allocate pathType op w
   = (Err ErrConflictingFileTypeRequest, w, []))
  /\ (Z.land existing allocate = 0%Z ->
      result_of (AcquireSector SectorName PathSealing String_other st sid spt
                   existing allocate pathType op w)
      <> Err ErrConflictingFileTypeRequest).
Proof.
  split; [apply AcquireSector_conflict_run|].
  intros Hd. rewrite AcquireSector_disjoint_run, result_of_bind by done.
  destruct (result_of (acquire_existing _ _ _ _ _ _ _ _ _)) as [[out1 ids1] ex1].
  intros Hr. by apply acquire_allocate_errors in Hr as [? | [err ?]].
Qed.

(** C7: for the file types of the existing set, [AcquireSector] takes the
    first holder, in the index's order, that is registered with a non-empty
    mount root, and records its path and storage ID; when no holder is usable
    the entries of that type stay empty and the call still succeeds.  When
    every query succeeded nothing is logged. *)
Theorem AcquireSector_existing_first_usable (st : Local) sid spt existing allocate
    pathType op found cands w :
  Z.land existing allocate = 0%Z ->
  index_finds sid existing found ->
  index_offers spt pathType allocate cands ->
  every_type_has_survivor PathSealing st pathType allocate cands ->
  exists out ids,
    result_of (AcquireSector SectorName PathSealing String_other st sid spt
                 existing allocate pathType op w) = Ok (out, ids)
    /\ (forall ft si, ft ∈ PathTypes -> Z.land ft existing <> 0%Z -> found ft = Ok si ->
        match List.find (holder_usable st) si with
        | Some info =>
            PathByType out ft = path_under SectorName String_other st (SSI_ID info) ft sid
            /\ PathByType ids ft = SSI_ID info
        | None => PathByType out ft = "" /\ PathByType ids ft = ""
        end)
    /\ ((forall ft, ft ∈ PathTypes -> Z.land ft existing <> 0%Z -> is_Ok (found ft) = true) ->
        Forall (fun e => is_log e = false)
          (trace_of (AcquireSector SectorName PathSealing String_other st sid spt
                       existing allocate pathType op w))).
Proof.
  intros Hd Hfound Hoffers Hs.
  destruct (AcquireSector_resolves SectorName PathSealing String_other st sid spt
              existing allocate pathType op found cands w Hd Hfound Hoffers
              (has_survivor_choice _ _ _ _ Hs)) as (out & ids & Hr & He).
  exists out, ids. split; [done|]. split.
  - intros ft si Hft Hb Hf. destruct (He ft Hft) as [E1 E2].
    rewrite entry_after_unset in E1, E2 by by apply (disjoint_bit ft existing).
    rewrite entry_after_set in E1, E2 by done.
    unfold existing_choice in E1, E2. rewrite Hf in E1, E2.
    by destruct (List.find _ si).
  - intros Hok.
    destruct (AcquireSector_trace SectorName PathSealing String_other st sid spt
                existing allocate pathType op found w Hd Hfound) as (rest & -> & Hrest).
    apply Forall_app. split.
    + eapply Forall_impl; [by apply find_events_quiet|]. by intros e [? _].
    + eapply Forall_impl; [exact Hrest|]. by intros e [? _].
Qed.

(** C8, as the code has it: [AcquireSector] does not look at [Weight].  The
    candidate it resolves a file type of the allocate set to is one of the
    survivors of the index's answer, so its weight is not 0 whenever no
    surviving candidate of that answer has weight 0. *)
Theorem AcquireSector_weight_as_offered (st : Local) sid spt existing allocate
    pathType op cands w :
  Z.land existing allocate = 0%Z ->
  index_offers spt pathType allocate cands ->
  every_type_has_survivor PathSealing st pathType allocate cands ->
  (forall ft c, ft ∈ PathTypes -> Z.land ft allocate <> 0%Z ->
     c ∈ survivors PathSealing st pathType (cands ft) -> SI_Weight c <> 0%Z) ->
  exists out ids,
    result_of (AcquireSector SectorName PathSealing String_other st sid spt
                 existing allocate pathType op w) = Ok (out, ids)
    /\ forall ft, ft ∈ PathTypes -> Z.land ft allocate <> 0%Z ->
       exists c,
         c ∈ survivors PathSealing st pathType (cands ft)
         /\ PathByType ids ft = SI_ID c
         /\ PathByType out ft = path_under SectorName String_other st (SI_ID c) ft sid
         /\ SI_Weight c <> 0%Z.
Proof.
  intros Hd Hoffers Hs Hweight.
  rewrite AcquireSector_disjoint_run, result_of_bind by done.
  destruct (result_of (acquire_existing _ _ _ _ _ _ _ _ _)) as [[out1 ids1] ex1].
  set (w1 := world_of _).
  destruct (acquire_allocate_ok SectorName PathSealing String_other st sid spt pathType
              cands PathTypes out1 ids1 allocate w1 NoDup_PathTypes (fun _ H => H)
              (fun ft w H => Hoffers ft w H) (has_survivor_choice _ _ _ _ Hs))
    as (out & ids & Hr & He).
  exists out, ids. split; [done|]. intros ft Hft Hb.
  destruct (He ft Hft) as [E1 E2].
  rewrite !entry_after_set in E1, E2 by done.
  pose proof (has_survivor_choice _ _ _ _ Hs ft Hft Hb) as Hch.
  unfold allocate_choice in *.
  destruct (last _) as [c|] eqn:Hlast; [|done].
  apply last_Some_elem_of in Hlast.
  exists c. repeat split; try done. by apply (Hweight ft).
Qed.

(** C10: an error of [StorageFindSector] for a file type of the existing set
    does not fail the call.  The query and its warning are in the trace, the
    other types of the existing set are still queried and resolved, the
    entries of the failed type stay empty, and the call succeeds when the
    allocate loop does.  An error of [StorageBestAlloc] for a file type of
    the allocate set fails the whole call. *)
Theorem AcquireSector_find_error_not_fatal (st : Local) sid spt existing allocate
    pathType op found cands w ft0 err :
  Z.land existing allocate = 0%Z ->
  index_finds sid existing found ->
  index_offers spt pathType allocate cands ->
  ft0 ∈ PathTypes -> Z.land ft0 existing <> 0%Z -> found ft0 = Err err ->
  let run := AcquireSector SectorName PathSealing String_other st sid spt
               existing allocate pathType op w in
  (every_type_has_survivor PathSealing st pathType allocate cands ->
   exists out ids,
     result_of run = Ok (out, ids)
     /\ PathByType out ft0 = "" /\ PathByType ids ft0 = ""
     /\ forall ft id, ft ∈ PathTypes -> Z.land ft existing <> 0%Z ->
          existing_choice st (found ft) = Some id ->
          PathByType out ft = path_under SectorName String_other st id ft sid
          /\ PathByType ids ft = id)
  /\ (forall ft, ft ∈ PathTypes -> Z.land ft existing <> 0%Z ->
        EvStorageFindSector sid ft false (found ft) ∈ trace_of run)
  /\ EvLog Warnf "finding existing sector %d(t:%d) failed: %+v" ∈ trace_of run
  /\ ((exists ft e, ft ∈ PathTypes /\ Z.land ft allocate <> 0%Z /\ cands ft = Err e) ->
      is_Ok (result_of run) = false).
Proof.
  intros Hd Hfound Hoffers Hft0 Hb0 Hf0 run. subst run.
  split; [|split; [|split]].
  - intros Hs.
    destruct (AcquireSector_resolves SectorName PathSealing String_other st sid spt
                existing allocate pathType op found cands w Hd Hfound Hoffers
                (has_survivor_choice _ _ _ _ Hs)) as (out & ids & Hr & He).
    exists out, ids. split; [done|].
    destruct (He ft0 Hft0) as [E1 E2].
    rewrite entry_after_unset in E1, E2 by by apply (disjoint_bit ft0 existing).
    rewrite entry_after_set in E1, E2 by done.
    unfold existing_choice in E1, E2. rewrite Hf0 in E1, E2.
    split; [done|]. split; [done|].
    intros ft id Hft Hb Hid. destruct (He ft Hft) as [X1 X2].
    rewrite entry_after_unset in X1, X2 by by apply (disjoint_bit ft existing).
    rewrite entry_after_set in X1, X2 by done. by rewrite Hid in X1, X2.
  - intros ft Hft Hb.
    destruct (AcquireSector_trace SectorName PathSealing String_other st sid spt
                existing allocate pathType op found w Hd Hfound) as (rest & -> & _).
    apply elem_of_app. left. unfold find_events.
    apply list_elem_of_In, in_flat_map. exists ft.
    split; [by apply list_elem_of_In|].
    apply Z.eqb_neq in Hb. rewrite Hb. by left.
  - destruct (AcquireSector_trace SectorName PathSealing String_other st sid spt
                existing allocate pathType op found w Hd Hfound) as (rest & -> & _).
    apply elem_of_app. left. unfold find_events.
    apply list_elem_of_In, in_flat_map. exists ft0.
    split; [by apply list_elem_of_In|].
    apply Z.eqb_neq in Hb0. rewrite Hb0, Hf0. simpl. by right; left.
  - intros (ft & e & Hft & Hb & Hc).
    rewrite AcquireSector_disjoint_run, result_of_bind by done.
    destruct (result_of (acquire_existing _ _ _ _ _ _ _ _ _)) as [[out1 ids1] ex1].
    destruct (acquire_allocate_fails SectorName PathSealing String_other st sid spt pathType
                cands PathTypes out1 ids1 allocate
                (world_of (acquire_existing SectorName String_other st sid PathTypes
                             SectorPaths_zero SectorPaths_zero existing w))
                NoDup_PathTypes (fun _ H => H)
                (fun ft w H => Hoffers ft w H)) as (e' & Hr & _).
    { exists ft. repeat split; try done.
      unfold allocate_choice, survivors. by rewrite Hc. }
    by rewrite Hr.
Qed.

End AcquireSector_claims.

(** ** Remove and RemoveCopies *)

Section Removal_facts.
Context {W : Type} `{!SectorIndex W} `{!HostFS W}.
Variable SectorName : SectorID -> string.
Variable String_other : SectorFileType -> string.



(** The three ways [removeSector] runs. *)
Lemma removeSector_cases (st : Local) sid typ storage w :
  (mount_root st storage = "" /\ removeSector SectorName String_other st sid typ storage w = (None, w, []))
  \/ (mount_root st storage <> ""
      /\ exists err w1,
           StorageDropSector storage sid typ w = (Some err, w1)
           /\ removeSector SectorName String_other st sid typ storage w
              = (Some (Wrap msg_drop_failed err), w1,
                 [EvStorageDropSector storage sid typ (Some err)]))
  \/ (mount_root st storage <> ""
      /\ exists res w1 w2,
           StorageDropSector storage sid typ w = (None, w1)
           /\ os_RemoveAll (path_under SectorName String_other st storage typ sid) w1 = (res, w2)
           /\ removeSector SectorName String_other st sid typ storage w
              = (None, w2, removed_events SectorName String_other st sid typ storage res)).
Proof.
  unfold removeSector, mount_root, removed_events, path_under,
    sector_path, mount_root.
  destruct (paths st !! storage) as [p|] eqn:Hp; [|by left].
  destruct (String.eqb_spec (local p) "") as [He|Hne]; [by left|].
  right. unfold bind, index_StorageDropSector, host_RemoveAll, call, log, ret.
  destruct (StorageDropSector storage sid typ w) as [[err|] w1] eqn:Hdrop.
  - left. split; [done|]. by exists err, w1.
  - right. split; [done|].
    destruct (os_RemoveAll _ w1) as [res w2] eqn:Hrm.
    exists res, w1, w2. split; [done|]. split; [done|]. by destruct res.
Qed.


Lemma loop_ok_nil st sid typ : loop_ok SectorName String_other st sid typ None [].
Proof.
  split; [|split; [|split]].
  - intros i ???; done.
  - intros i ?????; done.
  - intros i ???; done.
  - intros e [=].
Qed.

Lemma loop_ok_failed st sid typ id err :
  loop_ok SectorName String_other st sid typ (Some (Wrap msg_drop_failed err))
    [EvStorageDropSector id sid typ (Some err)].
Proof.
  split; [|split; [|split]].
  - intros [|i] ???; done.
  - intros [|i] ???? Hi; [|done]. by injection Hi as -> -> -> ->.
  - intros [|i] ???; done.
  - intros e [= <-]. by exists id, err.
Qed.

Lemma loop_ok_removed st sid typ id res r tr :
  mount_root st id <> "" -> loop_ok SectorName String_other st sid typ r tr ->
  loop_ok SectorName String_other st sid typ r (removed_events SectorName String_other st sid typ id res ++ tr).
Proof.
  intros Hroot (Hfirst & Habort & Hlogged & Horigin).
  unfold removed_events. split; [|split; [|split]].
  - intros i spath res' Hi.
    destruct i as [|[|[|i]]]; simpl in Hi; try done.
    + injection Hi as <- <-. by exists 0%nat, id.
    + destruct res as [e|]; simpl in Hi.
      * destruct i as [|i]; [done|]. simpl in Hi.
        destruct (Hfirst i spath res' Hi) as (j & id' & -> & Hj & ? & ?).
        by exists (S (S (S (S j)))), id'.
      * destruct (Hfirst i spath res' Hi) as (j & id' & -> & Hj & ? & ?).
        by exists (S (S (S j))), id'.
  - intros i id' s t err Hi.
    destruct i as [|[|[|i]]]; simpl in Hi; try done.
    destruct res as [e|]; simpl in Hi.
    + destruct i as [|i]; [done|]. simpl in Hi.
      destruct (Habort i id' s t err Hi) as [Hl ->]. split; [|done]. simpl. lia.
    + destruct (Habort i id' s t err Hi) as [Hl ->]. split; [|done]. simpl. lia.
  - intros i spath err Hi.
    destruct i as [|[|[|i]]]; simpl in Hi; try done.
    + by injection Hi as <- ->.
    + destruct res as [e|]; simpl in Hi |- *.
      * destruct i as [|i]; [done|]. simpl in Hi. by apply Hlogged in Hi.
      * by apply Hlogged in Hi.
  - intros e Hr. destruct (Horigin e Hr) as (id' & err & -> & Hlast).
    exists id', err. split; [done|].
    by rewrite last_app, Hlast.
Qed.

Lemma remove_each_ok (st : Local) sid typ : forall si w,
  loop_ok SectorName String_other st sid typ (result_of (remove_each SectorName String_other st sid typ si w))
    (trace_of (remove_each SectorName String_other st sid typ si w)).
Proof.
  induction si as [|info rest IH]; intros w; [apply loop_ok_nil|].
  simpl remove_each. rewrite result_of_bind, trace_of_bind.
  destruct (removeSector_cases st sid typ (SSI_ID info) w)
    as [[Hroot ->] | [(Hroot & err & w1 & _ & ->) | (Hroot & res & w1 & w2 & _ & _ & ->)]];
    simpl result_of; simpl world_of; simpl trace_of.
  - apply IH.
  - apply loop_ok_failed.
  - by apply loop_ok_removed.
Qed.

(** The loop of [RemoveCopies] is the loop of [Remove] over the holders that
    are not primary. *)
Lemma remove_copies_each_non_primary (st : Local) sid typ : forall si w,
  remove_copies_each SectorName String_other st sid typ si w = remove_each SectorName String_other st sid typ (non_primary si) w.
Proof.
  induction si as [|info rest IH]; intros w; [done|].
  unfold non_primary in *. simpl.
  destruct (SSI_Primary info); simpl; [apply IH|].
  unfold bind. destruct (removeSector SectorName String_other _ _ _ _ _) as [[[e|] w1] t1]; [done|].
  by rewrite IH.
Qed.

(** What the holders' loop touches: only holders of the list that are
    registered on a non-empty root. *)
Lemma remove_each_touches (st : Local) sid typ : forall si w i id s t r,
  trace_of (remove_each SectorName String_other st sid typ si w) !! i = Some (EvStorageDropSector id s t r) ->
  s = sid /\ t = typ
  /\ exists info, info ∈ si /\ SSI_ID info = id /\ holder_usable st info = true.
Proof.
  assert (Husable : forall info, mount_root st (SSI_ID info) <> "" ->
                      holder_usable st info = true).
  { intros info. unfold mount_root, holder_usable.
    destruct (paths st !! SSI_ID info) as [p|]; [|done].
    intros Hne. apply negb_true_iff. by apply String.eqb_neq. }
  induction si as [|info rest IH]; intros w i id s t r; [done|].
  simpl remove_each. rewrite trace_of_bind.
  destruct (removeSector_cases st sid typ (SSI_ID info) w)
    as [[Hroot ->] | [(Hroot & err & w1 & _ & ->) | (Hroot & res & w1 & w2 & _ & _ & ->)]];
    simpl result_of; simpl world_of; simpl trace_of.
  - intros Hi. destruct (IH _ _ _ _ _ _ Hi) as (-> & -> & info' & Hin & ? & ?).
    repeat split; try done. exists info'. split; [by apply elem_of_cons; right|done].
  - intros Hi. destruct i as [|i]; [|done]. injection Hi as <- <- <- <-.
    repeat split; try done. exists info. split; [apply elem_of_cons; by left|auto].
  - intros Hi. destruct i as [|i].
    { injection Hi as <- <- <- <-.
      repeat split; try done. exists info. split; [apply elem_of_cons; by left|auto]. }
    assert (Hi' : exists i', trace_of (remove_each SectorName String_other st sid typ rest w2) !! i'
                             = Some (EvStorageDropSector id s t r)).
    { destruct i as [|[|i]]; simpl in Hi; try done.
      destruct res as [e|]; simpl in Hi; [|by exists i].
      destruct i as [|i]; [done|]. by exists i. }
    destruct Hi' as [i' Hi'].
    destruct (IH _ _ _ _ _ _ Hi') as (-> & -> & info' & Hin & ? & ?).
    repeat split; try done. exists info'. split; [by apply elem_of_cons; right|done].
Qed.

(** When the loop ends without error, every registered holder of the list
    was dropped from the index and its file deleted. *)
Lemma remove_each_covers (st : Local) sid typ : forall si w,
  result_of (remove_each SectorName String_other st sid typ si w) = None ->
  forall info, info ∈ si -> holder_usable st info = true ->
    EvStorageDropSector (SSI_ID info) sid typ None ∈ trace_of (remove_each SectorName String_other st sid typ si w)
    /\ exists res,
         EvRemoveAll (path_under SectorName String_other st (SSI_ID info) typ sid) res
           ∈ trace_of (remove_each SectorName String_other st sid typ si w).
Proof.
  induction si as [|info0 rest IH]; intros w Hr info Hin Hu.
  { by apply elem_of_nil in Hin. }
  revert Hr. simpl remove_each. rewrite result_of_bind, trace_of_bind.
  destruct (removeSector_cases st sid typ (SSI_ID info0) w)
    as [[Hroot ->] | [(Hroot & err & w1 & _ & ->) | (Hroot & res & w1 & w2 & _ & _ & ->)]];
    simpl result_of; simpl world_of; simpl trace_of; intros Hr.
  - apply elem_of_cons in Hin as [-> | Hin].
    + apply holder_usable_root in Hu. done.
    + by apply IH.
  - done.
  - apply elem_of_cons in Hin as [-> | Hin].
    + split; [apply elem_of_cons; by left|].
      exists res. apply elem_of_app. left. unfold removed_events.
      do 2 (apply elem_of_cons; right). apply elem_of_cons; by left.
    + destruct (IH w2 Hr info Hin Hu) as [Hd (res' & Hrm)].
      split; [apply elem_of_app; by right|].
      exists res'. apply elem_of_app; by right.
Qed.

End Removal_facts.

Section Removal_claims.
Context {W : Type} `{!SectorIndex W} `{!HostFS W}.
Variable SectorName : SectorID -> string.
Variable String_other : SectorFileType -> string.

Lemma hasPrimary_false (si : list SectorStorageInfo) :
  hasPrimary si = false <-> forall info, info ∈ si -> SSI_Primary info = false.
Proof.
  induction si as [|info rest IH]; simpl.
  - split; [|done]. intros _ info Hin. by apply elem_of_nil in Hin.
  - destruct (SSI_Primary info) eqn:Hp.
    + split; [done|]. intros Hall. rewrite <- Hp. apply Hall, elem_of_cons. by left.
    + rewrite IH. split.
      * intros Hall info' [-> | Hin]%elem_of_cons; auto.
      * intros Hall info' Hin. apply Hall, elem_of_cons. by right.
Qed.

Lemma hasPrimary_true (si : list SectorStorageInfo) :
  hasPrimary si = true <-> exists info, info ∈ si /\ SSI_Primary info = true.
Proof.
  split.
  - intros Hp. induction si as [|info rest IH]; [done|]. simpl in Hp.
    destruct (SSI_Primary info) eqn:Hi.
    + exists info. split; [apply elem_of_cons; by left|done].
    + destruct (IH Hp) as (info' & Hin & ?). exists info'.
      split; [apply elem_of_cons; by right|done].
  - intros (info & Hin & Hp). destruct (hasPrimary si) eqn:Hh; [done|].
    rewrite hasPrimary_false in Hh. rewrite (Hh info Hin) in Hp. done.
Qed.

Lemma elem_of_non_primary (si : list SectorStorageInfo) info :
  info ∈ non_primary si <-> info ∈ si /\ SSI_Primary info = false.
Proof.
  unfold non_primary. rewrite !list_elem_of_In, filter_In, negb_true_iff. tauto.
Qed.

(** A removal that touched nothing obeys the discipline. *)
Lemma discipline_quiet (st : Local) sid typ (r : option error) (w : W) tr :
  Forall (fun ev => is_mutation ev = false) tr ->
  (forall e, r = Some e ->
     e = ErrSingleFileTypeRequired \/ e = ErrSectorNotFound
     \/ exists err, e = Wrap "finding existing sector %d(t:%d) failed" err) ->
  removal_discipline SectorName String_other st sid typ (r, w, tr).
Proof.
  intros Hq Hr. rewrite Forall_lookup in Hq.
  split; [|split; [|split]]; simpl.
  - intros i ?? Hi. by apply Hq in Hi.
  - intros i ???? Hi. by apply Hq in Hi.
  - intros i ?? Hi. by apply Hq in Hi.
  - intros e He. left. split; [by apply Forall_lookup|auto].
Qed.

(** A holders' loop run after the query of the index obeys the discipline. *)
Lemma discipline_after_query (st : Local) sid typ (r : option error) (w : W) ev tr :
  is_mutation ev = false ->
  loop_ok SectorName String_other st sid typ r tr ->
  removal_discipline SectorName String_other st sid typ (r, w, ev :: tr).
Proof.
  intros Hev (Hfirst & Habort & Hlogged & Horigin).
  split; [|split; [|split]]; simpl.
  - intros [|i] spath res Hi; simpl in Hi.
    + injection Hi as ->. done.
    + destruct (Hfirst i spath res Hi) as (j & id & -> & ? & ? & ?).
      by exists (S j), id.
  - intros [|i] id s t err Hi; simpl in Hi.
    + injection Hi as ->. done.
    + destruct (Habort i id s t err Hi) as [Hl ->]. split; [|done]. simpl. lia.
  - intros [|i] spath err Hi; simpl in Hi.
    + injection Hi as ->. done.
    + by apply Hlogged in Hi.
  - intros e He. right. destruct (Horigin e He) as (id & err & -> & Hlast).
    exists id, err. split; [done|]. by rewrite last_cons, Hlast.
Qed.

Lemma Remove_run (st : Local) sid typ force w :
  Remove SectorName String_other st sid typ force w
  = if negb (OnesCount (uint typ) =? 1)%Z then (Some ErrSingleFileTypeRequired, w, [])
    else
      let '(r, w1) := StorageFindSector sid typ false w in
      match r with
      | Err err =>
          (Some (Wrap "finding existing sector %d(t:%d) failed" err), w1,
           [EvStorageFindSector sid typ false r])
      | Ok si =>
          if (length si =? 0)%nat && negb force
          then (Some ErrSectorNotFound, w1, [EvStorageFindSector sid typ false r])
          else
            let run := remove_each SectorName String_other st sid typ si w1 in
            (result_of run, world_of run,
             EvStorageFindSector sid typ false r :: trace_of run)
      end.
Proof.
  unfold Remove. destruct (negb _); [done|].
  unfold bind, index_StorageFindSector, call.
  destruct (StorageFindSector sid typ false w) as [[si|err] w1]; [|done].
  destruct (_ && _); [done|].
  by destruct (remove_each _ _ _ _ _ _ _) as [[r w2] t].
Qed.

Lemma RemoveCopies_run (st : Local) sid typ w :
  RemoveCopies SectorName String_other st sid typ w
  = if negb (OnesCount (uint typ) =? 1)%Z then (Some ErrSingleFileTypeRequired, w, [])
    else
      let '(r, w1) := StorageFindSector sid typ false w in
      match r with
      | Err err =>
          (Some (Wrap "finding existing sector %d(t:%d) failed" err), w1,
           [EvStorageFindSector sid typ false r])
      | Ok si =>
          if hasPrimary si
          then
            let run := remove_each SectorName String_other st sid typ (non_primary si) w1 in
            (result_of run, world_of run,
             EvStorageFindSector sid typ false r :: trace_of run)
          else
            (None, w1,
             [EvStorageFindSector sid typ false r;
              EvLog Warnf
                "RemoveCopies: no primary copies of sector %v (%s), not removing anything"])
      end.
Proof.
  unfold RemoveCopies. destruct (negb _); [done|].
  unfold bind, index_StorageFindSector, call.
  destruct (StorageFindSector sid typ false w) as [[si|err] w1]; [|done].
  destruct (hasPrimary si); simpl; [|done].
  rewrite remove_copies_each_non_primary.
  by destruct (remove_each _ _ _ _ _ _ _) as [[r w2] t].
Qed.

(** C5: [Remove] fails with [ErrSingleFileTypeRequired], before anything
    else, when more than one bit of the file type is set.  With exactly one
    bit set and no holder reported by the index it fails with
    [ErrSectorNotFound] when [force] is false and succeeds when [force] is
    true; in both cases the query of the index is its only interaction, so
    nothing is deleted. *)
Theorem Remove_guards (st : Local) sid typ force w :
  ((1 < OnesCount (uint typ))%Z ->
   Remove SectorName String_other st sid typ force w
   = (Some ErrSingleFileTypeRequired, w, []))
  /\ (OnesCount (uint typ) = 1%Z ->
      fst (StorageFindSector sid typ false w) = Ok [] ->
      Remove SectorName String_other st sid typ force w
      = (if force then None else Some ErrSectorNotFound,
         snd (StorageFindSector sid typ false w),
         [EvStorageFindSector sid typ false (Ok [])])).
Proof.
  rewrite Remove_run. split.
  - intros Hc. destruct (Z.eqb_spec (OnesCount (uint typ)) 1) as [He|Hne]; [lia|done].
  - intros -> Hf. simpl negb. cbv iota.
    destruct (StorageFindSector sid typ false w) as [r w1]. simpl in Hf. subst r.
    by destruct force.
Qed.

(** C4: in [Remove], and in [RemoveCopies], every deletion of a file follows
    the successful drop of that holder's triple from the index; a failed drop
    ends the operation, which returns the error; a failed deletion is logged
    and the operation goes on, and no error it returns comes from a
    deletion. *)
Theorem removal_drops_index_first (st : Local) sid typ force w :
  removal_discipline SectorName String_other st sid typ
    (Remove SectorName String_other st sid typ force w)
  /\ removal_discipline SectorName String_other st sid typ
       (RemoveCopies SectorName String_other st sid typ w).
Proof.
  rewrite Remove_run, RemoveCopies_run.
  destruct (negb _).
  { split; apply discipline_quiet; try done; intros e [= <-]; auto. }
  destruct (StorageFindSector sid typ false w) as [[si|err] w1].
  - split.
    + destruct (_ && _).
      * apply discipline_quiet; [by repeat constructor|]. intros e [= <-]; auto.
      * apply discipline_after_query; [done|apply remove_each_ok].
    + destruct (hasPrimary si).
      * apply discipline_after_query; [done|apply remove_each_ok].
      * apply discipline_quiet; [by repeat constructor|done].
  - split; (apply discipline_quiet; [by repeat constructor|]);
      intros e [= <-]; eauto.
Qed.

(** C3, as the code has it: when no holder reported by the index is marked
    primary, [RemoveCopies] returns without error after the query and a
    warning, dropping and deleting nothing.  Otherwise it hands the holders
    that are not primary, and only them, in the index's order to the delete
    path: every drop and every deletion concerns a holder that is not primary
    and is registered here on a non-empty root, and when the call returns
    without error every such holder was dropped and its file deleted.
    Holders that are not registered here are left alone. *)
Theorem RemoveCopies_removes_local_copies (st : Local) sid typ si w :
  OnesCount (uint typ) = 1%Z ->
  fst (StorageFindSector sid typ false w) = Ok si ->
  let w1 := snd (StorageFindSector sid typ false w) in
  let run := RemoveCopies SectorName String_other st sid typ w in
  ((forall info, info ∈ si -> SSI_Primary info = false) ->
   run = (None, w1,
          [EvStorageFindSector sid typ false (Ok si);
           EvLog Warnf
             "RemoveCopies: no primary copies of sector %v (%s), not removing anything"]))
  /\ ((exists info, info ∈ si /\ SSI_Primary info = true) ->
      run = bind (index_StorageFindSector sid typ false)
              (fun _ => remove_each SectorName String_other st sid typ (non_primary si)) w
      /\ (forall i id s t r,
            trace_of run !! i = Some (EvStorageDropSector id s t r) ->
            exists info, info ∈ si /\ SSI_Primary info = false
              /\ SSI_ID info = id /\ holder_usable st info = true)
      /\ (forall i spath res,
            trace_of run !! i = Some (EvRemoveAll spath res) ->
            exists info, info ∈ si /\ SSI_Primary info = false
              /\ holder_usable st info = true
              /\ spath = path_under SectorName String_other st (SSI_ID info) typ sid)
      /\ (result_of run = None ->
          forall info, info ∈ si -> SSI_Primary info = false ->
            holder_usable st info = true ->
            EvStorageDropSector (SSI_ID info) sid typ None ∈ trace_of run
            /\ exists res,
                 EvRemoveAll (path_under SectorName String_other st (SSI_ID info) typ sid) res
                   ∈ trace_of run)).
Proof.
  intros Hone Hfind w1 run. subst w1 run.
  rewrite RemoveCopies_run, Hone. simpl negb. cbv iota.
  unfold bind, index_StorageFindSector, call.
  destruct (StorageFindSector sid typ false w) as [r w1]. simpl in Hfind. subst r.
  simpl snd. split.
  - intros Hnone. apply hasPrimary_false in Hnone. by rewrite Hnone.
  - intros Hsome. apply hasPrimary_true in Hsome. rewrite Hsome.
    pose proof (remove_each_ok SectorName String_other st sid typ (non_primary si) w1)
      as (Hfirst & _).
    pose proof (remove_each_touches SectorName String_other st sid typ (non_primary si) w1)
      as Htouch.
    pose proof (remove_each_covers SectorName String_other st sid typ (non_primary si) w1)
      as Hcover.
    destruct (remove_each _ _ _ _ _ _ _) as [[r w2] tr].
    unfold result_of, world_of, trace_of in *. simpl in *.
    split; [done|]. split; [|split].
    + intros [|i] id s t r' Hi; [done|]. simpl in Hi.
      destruct (Htouch _ _ _ _ _ Hi) as (_ & _ & info & [Hin Hp]%elem_of_non_primary & ? & ?).
      by exists info.
    + intros [|i] spath res Hi; [done|]. simpl in Hi.
      destruct (Hfirst _ _ _ Hi) as (j & id & _ & Hj & _ & ->).
      destruct (Htouch _ _ _ _ _ Hj) as (_ & _ & info & [Hin Hp]%elem_of_non_primary & <- & ?).
      by exists info.
    + intros -> info Hin Hp Hu.
      destruct (Hcover eq_refl info) as [Hd (res & Hrm)];
        [by apply elem_of_non_primary|done|].
      split; [apply elem_of_cons; by right|].
      exists res. apply elem_of_cons; by right.
Qed.

End Removal_claims.

(** ** MoveStorage *)

Section MoveStorage_facts.
Context {W : Type} `{!SectorIndex W} `{!HostFS W}.
Variable SectorName : SectorID -> string.
Variable PathSealing : PathType.
Variable String_other : SectorFileType -> string.

Lemma move_protocol_quiet s tr :
  Forall (fun ev => is_mutation ev = false) tr -> move_protocol s tr.
Proof.
  intros Hq. rewrite Forall_lookup in Hq.
  split; [|split].
  - intros i ??? Hi. by apply Hq in Hi.
  - intros i ????? Hi. by apply Hq in Hi.
  - intros i ??? Hi. by apply Hq in Hi.
Qed.

Lemma move_protocol_app s t1 t2 :
  move_protocol s t1 -> move_protocol s t2 -> move_protocol s (t1 ++ t2).
Proof.
  intros (M1 & D1 & R1) (M2 & D2 & R2). split; [|split].
  - intros i from to r Hi. apply lookup_app_Some in Hi as [Hi | [Hl Hi]].
    + destruct (M1 _ _ _ _ Hi) as (j & id & ft & -> & Hj).
      exists j, id, ft. split; [done|]. by apply lookup_app_l_Some.
    + destruct (M2 _ _ _ _ Hi) as (j & id & ft & Hij & Hj).
      exists (length t1 + j)%nat, id, ft. split; [lia|].
      rewrite lookup_app_r by lia. by replace (length t1 + j - length t1)%nat with j by lia.
  - intros i id s' ft primary r Hi. apply lookup_app_Some in Hi as [Hi | [Hl Hi]].
    + destruct (D1 _ _ _ _ _ _ Hi) as (-> & -> & j & from & to & -> & Hj).
      repeat split; try done. exists j, from, to. split; [done|].
      by apply lookup_app_l_Some.
    + destruct (D2 _ _ _ _ _ _ Hi) as (-> & -> & j & from & to & Hij & Hj).
      repeat split; try done. exists (length t1 + j)%nat, from, to. split; [lia|].
      rewrite lookup_app_r by lia. by replace (length t1 + j - length t1)%nat with j by lia.
  - intros i id s' ft Hi. apply lookup_app_Some in Hi as [Hi | [Hl Hi]].
    + destruct (R1 _ _ _ _ Hi) as (from & to & r & Hn).
      exists from, to, r. by apply lookup_app_l_Some.
    + destruct (R2 _ _ _ _ Hi) as (from & to & r & Hn).
      exists from, to, r. rewrite lookup_app_r by lia.
      by replace (S i - length t1)%nat with (S (i - length t1)) by lia.
Qed.

Lemma acquire_existing_quiet (st : Local) sid : forall types out ids existing w,
  Forall (fun ev => is_mutation ev = false)
    (trace_of (acquire_existing (W:=W) SectorName String_other st sid types
                 out ids existing w)).
Proof.
  induction types as [|ft0 rest IH]; intros out ids existing w; [by constructor|].
  simpl acquire_existing.
  destruct (Z.land ft0 existing =? 0)%Z; [apply IH|].
  rewrite trace_of_bind. unfold index_StorageFindSector at 1. rewrite trace_of_call.
  apply Forall_app. split; [by repeat constructor|].
  destruct (result_of _) as [si|err].
  - destruct (scan_existing _ _ _ _ _ _ _ _ _) as [[out' ids'] ex']. apply IH.
  - rewrite trace_of_bind, trace_of_log. apply Forall_app.
    split; [by repeat constructor|apply IH].
Qed.

Lemma AcquireSector_quiet (st : Local) sid spt existing allocate pathType op w :
  Forall (fun ev => is_mutation ev = false)
    (trace_of (AcquireSector (W:=W) SectorName PathSealing String_other st sid spt
                 existing allocate pathType op w)).
Proof.
  unfold AcquireSector. destruct (negb _); [by constructor|].
  rewrite trace_of_bind. apply Forall_app. split; [apply acquire_existing_quiet|].
  destruct (result_of _) as [[out ids] ex].
  eapply Forall_impl; [apply acquire_allocate_trace|]. by intros ev [_ ?].
Qed.

(** The runs of the loop body when the index describes both storages. *)
Lemma move_one_run s src srcIds dest destIds ft sst dst w :
  fst (StorageInfoOf (PathByType srcIds ft) w) = Ok sst ->
  fst (StorageInfoOf (PathByType destIds ft) (snd (StorageInfoOf (PathByType srcIds ft) w)))
  = Ok dst ->
  let srcID := PathByType srcIds ft in
  let dstID := PathByType destIds ft in
  let w2 := snd (StorageInfoOf dstID (snd (StorageInfoOf srcID w))) in
  let queries := [EvStorageInfo srcID (Ok sst); EvStorageInfo dstID (Ok dst)] in
  move_one s src srcIds dest destIds ft w
  = if String.eqb (SI_ID sst) (SI_ID dst) then
      (None, w2, queries ++ [EvLog Debugf "not moving %v(%d); src and dest are the same"])
    else if SI_CanStore sst then
      (None, w2, queries ++ [EvLog Debugf "not moving %v(%d); source supports storage"])
    else
      let moving :=
        queries
        ++ [EvLog Debugf
              "moving %v(%d) to storage: %s(se:%t; st:%t) -> %s(se:%t; st:%t)"] in
      let '(e, w3) := StorageDropSector srcID s ft w2 in
      match e with
      | Some err =>
          (Some (Wrap "dropping source sector from index" err), w3,
           moving ++ [EvStorageDropSector srcID s ft e])
      | None =>
          let '(e1, w4) := move (PathByType src ft) (PathByType dest ft) w3 in
          match e1 with
          | Some err =>
              (Some (Wrap "moving sector %v(%d)" err), w4,
               moving ++ [EvStorageDropSector srcID s ft None;
                          EvMove (PathByType src ft) (PathByType dest ft) e1])
          | None =>
              let '(e2, w5) := StorageDeclareSector dstID s ft true w4 in
              (match e2 with
               | Some err => Some (Wrap "declare sector %d(t:%d) -> %s" err)
               | None => None
               end, w5,
               moving ++ [EvStorageDropSector srcID s ft None;
                          EvMove (PathByType src ft) (PathByType dest ft) None;
                          EvStorageDeclareSector dstID s ft true e2])
          end
      end.
Proof.
  intros Hs Hd. cbv zeta.
  unfold move_one, bind, index_StorageInfo, index_StorageDropSector,
    index_StorageDeclareSector, host_move, call, log, ret.
  destruct (StorageInfoOf (PathByType srcIds ft) w) as [r w1].
  simpl in Hs, Hd |- *. subst r.
  destruct (StorageInfoOf (PathByType destIds ft) w1) as [r w2].
  simpl in Hd |- *. subst r.
  destruct (String.eqb (SI_ID sst) (SI_ID dst)); [done|].
  destruct (SI_CanStore sst); [done|]. simpl.
  destruct (StorageDropSector _ s ft w2) as [[err|] w3]; [done|]. simpl.
  destruct (move _ _ w3) as [[err|] w4]; [done|]. simpl.
  by destruct (StorageDeclareSector _ s ft true w4) as [[err|] w5].
Qed.

Lemma move_one_protocol s src srcIds dest destIds ft w :
  move_protocol s (trace_of (move_one s src srcIds dest destIds ft w)).
Proof.
  unfold move_one, bind, index_StorageInfo, index_StorageDropSector,
    index_StorageDeclareSector, host_move, call, log, ret, trace_of.
  destruct (StorageInfoOf (PathByType srcIds ft) w) as [[sst|err] w1];
    [|by apply move_protocol_quiet; repeat constructor].
  destruct (StorageInfoOf (PathByType destIds ft) w1) as [[dst|err] w2];
    [|by apply move_protocol_quiet; repeat constructor].
  destruct (String.eqb (SI_ID sst) (SI_ID dst));
    [by apply move_protocol_quiet; repeat constructor|].
  destruct (SI_CanStore sst); [by apply move_protocol_quiet; repeat constructor|].
  destruct (StorageDropSector _ s ft w2) as [[err|] w3]; simpl.
  { split; [|split].
    - intros [|[|[|[|i]]]] ??? Hi; done.
    - intros [|[|[|[|i]]]] ????? Hi; done.
    - intros [|[|[|[|i]]]] ??? Hi; done. }
  destruct (move _ _ w3) as [[err|] w4]; simpl.
  { split; [|split].
    - intros [|[|[|[|[|i]]]]] ??? Hi; try done. by exists 3%nat, (PathByType srcIds ft), ft.
    - intros [|[|[|[|[|i]]]]] ????? Hi; done.
    - intros [|[|[|[|[|i]]]]] ??? Hi; try done. by eexists _, _, _. }
  destruct (StorageDeclareSector _ s ft true w4) as [e2 w5]; destruct e2 as [err|]; simpl.
  all: split; [|split].
  all: try (intros [|[|[|[|[|[|i]]]]]] ??? Hi; try done;
            first [by exists 3%nat, (PathByType srcIds ft), ft | by eexists _, _, _]).
  all: intros [|[|[|[|[|[|i]]]]]] ????? Hi; try done;
         injection Hi as <- <- <- <- <-; repeat split; try done;
         by eexists 4%nat, _, _.
Qed.

Lemma move_each_protocol s types src srcIds dest destIds : forall fileTypes w,
  move_protocol s (trace_of (move_each s types src srcIds dest destIds fileTypes w)).
Proof.
  induction fileTypes as [|ft rest IH]; intros w.
  { apply move_protocol_quiet. by constructor. }
  simpl move_each. destruct (Z.land ft types =? 0)%Z; [apply IH|].
  rewrite trace_of_bind. apply move_protocol_app; [apply move_one_protocol|].
  destruct (result_of _) as [err|]; [|apply IH].
  apply move_protocol_quiet. by constructor.
Qed.

End MoveStorage_facts.

Section MoveStorage_claims.
Context {W : Type} `{!SectorIndex W} `{!HostFS W}.
Variable SectorName : SectorID -> string.
Variable PathSealing : PathType.
Variable String_other : SectorFileType -> string.

(** C6: in every run of [MoveStorage] a file is moved right after the
    successful drop of its source holder from the index, and a holder is
    declared right after a completed move, as primary.  For one requested
    file type, when the index describes the resolved source and destination
    storages: the move is skipped (nothing is dropped, moved or declared, and
    the loop goes on) when the two storage IDs are the same, and when the
    source can store; otherwise the source holder is dropped, then the file
    is moved, then the destination holder is declared as primary, each step
    only after the one before succeeded. *)
Theorem MoveStorage_drop_move_declare (st : Local) s spt types w :
  move_protocol s (trace_of (MoveStorage SectorName PathSealing String_other st s spt types w))
  /\ forall src srcIds dest destIds ft sst dst w',
       let srcID := PathByType srcIds ft in
       let dstID := PathByType destIds ft in
       fst (StorageInfoOf srcID w') = Ok sst ->
       fst (StorageInfoOf dstID (snd (StorageInfoOf srcID w'))) = Ok dst ->
       SI_ID sst = srcID -> SI_ID dst = dstID ->
       let run := move_one s src srcIds dest destIds ft w' in
       ((srcID = dstID \/ SI_CanStore sst = true) ->
        result_of run = None
        /\ Forall (fun ev => is_mutation ev = false) (trace_of run))
       /\ (srcID <> dstID -> SI_CanStore sst = false ->
           exists rdrop,
             trace_of run !! 3%nat = Some (EvStorageDropSector srcID s ft rdrop)
             /\ match rdrop with
                | Some err =>
                    result_of run = Some (Wrap "dropping source sector from index" err)
                    /\ length (trace_of run) = 4%nat
                | None =>
                    exists rmove,
                      trace_of run !! 4%nat
                      = Some (EvMove (PathByType src ft) (PathByType dest ft) rmove)
                      /\ match rmove with
                         | Some err =>
                             result_of run = Some (Wrap "moving sector %v(%d)" err)
                             /\ length (trace_of run) = 5%nat
                         | None =>
                             exists rdecl,
                               trace_of run !! 5%nat
                               = Some (EvStorageDeclareSector dstID s ft true rdecl)
                               /\ length (trace_of run) = 6%nat
                               /\ result_of run
                                  = match rdecl with
                                    | Some err =>
                                        Some (Wrap "declare sector %d(t:%d) -> %s" err)
                                    | None => None
                                    end
                         end
                end).
Proof.
  split.
  - unfold MoveStorage. rewrite trace_of_bind.
    apply move_protocol_app; [apply move_protocol_quiet, AcquireSector_quiet|].
    destruct (result_of _) as [[dest destIds]|err];
      [|apply move_protocol_quiet; by constructor].
    rewrite trace_of_bind.
    apply move_protocol_app; [apply move_protocol_quiet, AcquireSector_quiet|].
    destruct (result_of _) as [[src srcIds]|err];
      [|apply move_protocol_quiet; by constructor].
    apply move_each_protocol.
  - intros src srcIds dest destIds ft sst dst w' srcID dstID Hs Hd Hsid Hdid run.
    subst run. rewrite (move_one_run s src srcIds dest destIds ft sst dst w' Hs Hd).
    cbv zeta. fold srcID dstID. rewrite Hsid, Hdid.
    destruct (String.eqb_spec srcID dstID) as [Heq|Hne].
    { unfold result_of, trace_of. simpl.
      split; [intros _; split; [done|by repeat constructor]|by intros ??]. }
    destruct (SI_CanStore sst).
    { unfold result_of, trace_of. simpl.
      split; [intros _; split; [done|by repeat constructor]|by intros ? [=]]. }
    unfold result_of, trace_of.
    split; [by intros [?|?]|]. intros _ _.
    destruct (StorageDropSector srcID s ft _) as [[err|] w3]; simpl.
    { by exists (Some err). }
    destruct (move _ _ w3) as [[err|] w4]; simpl.
    { exists None. split; [done|]. by exists (Some err). }
    destruct (StorageDeclareSector dstID s ft true w4) as [e2 w5]; simpl.
    exists None. split; [done|]. exists None. split; [done|]. by exists e2.
Qed.

End MoveStorage_claims.

(** ** reportHealth: the interval *)

Lemma wrap64_small (z : Z) : (- 2 ^ 63 <= z < 2 ^ 63)%Z -> wrap64 z = z.
Proof. intros Hz. unfold wrap64. rewrite Z.mod_small; lia. Qed.

(** C9, as the code has it: the random draw never changes the interval.  For
    a base interval that is not negative and whose product with 100000 fits
    an [int64], the interval is the base interval exactly, whatever the value
    [rand.Int63n(10_000)] returns. *)
Theorem reportHealth_interval_is_base (HeartbeatInterval r : Z) :
  (0 <= HeartbeatInterval)%Z ->
  (HeartbeatInterval * 100000 + 10000 < 2 ^ 63)%Z ->
  (0 <= r < 10000)%Z ->
  reportHealth_interval HeartbeatInterval r = HeartbeatInterval.
Proof.
  intros Hh Hfit Hr. unfold reportHealth_interval, int64_div, int64_add, int64_mul.
  rewrite (wrap64_small (HeartbeatInterval * 100000)) by lia.
  rewrite (wrap64_small (HeartbeatInterval * 100000 + r)) by lia.
  rewrite Z.quot_div_nonneg by lia.
  rewrite Z.div_add_l, Z.div_small, Z.add_0_r by lia.
  apply wrap64_small. lia.
Qed.

(** ** Concrete runs *)

Example Join_layout :
  filepath.Join ["/p1"; "sealed"; SectorName_t0 sector7] = "/p1/sealed/s-t01000-7".
Proof. reflexivity. Qed.

Example Join_cleans :
  filepath.Join [""; "/p1/"; "./cache"; "../sealed"; "x"] = "/p1/sealed/x".
Proof. reflexivity. Qed.

Lemma PathTypes_Sealed : FTSealed ∈ PathTypes.
Proof. apply elem_of_cons. right. apply elem_of_cons. by left. Qed.

Lemma PathTypes_Unsealed : FTUnsealed ∈ PathTypes.
Proof. apply elem_of_cons. by left. Qed.

Lemma PathTypes_Cache : FTCache ∈ PathTypes.
Proof. do 2 (apply elem_of_cons; right). apply elem_of_cons. by left. Qed.

(** Locate the unsealed file and allocate the sealed file and the cache for
    sealing: both go to /p1, the only path that can seal. *)
Lemma AcquireSector_allocates_last_survivor_witness :
  Z.land FTUnsealed 6 = 0%Z
  /\ index_offers (SectorIndex0 := scripted_index script_two) 0%Z true 6%Z
       (on_alloc script_two)
  /\ exists out ids,
       result_of (AcquireSector (SectorIndex0 := scripted_index script_two)
                    SectorName_t0 true String_unknown two_paths sector7 0%Z
                    FTUnsealed 6%Z true AcquireMove tt) = Ok (out, ids)
       /\ PathByType out FTSealed = "/p1/sealed/s-t01000-7"
       /\ PathByType ids FTSealed = "s1"
       /\ PathByType out FTCache = "/p1/cache/s-t01000-7".
Proof.
  assert (Hoff : index_offers (SectorIndex0 := scripted_index script_two) 0%Z true 6%Z
                   (on_alloc script_two)) by (by intros ft w _ _).
  split; [done|]. split; [exact Hoff|].
  destruct (AcquireSector_allocates_last_survivor (SectorIndex0 := scripted_index script_two)
              SectorName_t0 true String_unknown two_paths sector7 0%Z FTUnsealed 6%Z
              true AcquireMove (on_alloc script_two) tt eq_refl Hoff
              (fun _ _ _ => eq_refl)) as [Hok _].
  destruct Hok as (out & ids & Hr & He).
  { intros ft Hft _. by vm_compute. }
  exists out, ids. split; [exact Hr|].
  destruct (He FTSealed PathTypes_Sealed) as (c & Hlast & _ & Hp & Hi); [done|].
  destruct (He FTCache PathTypes_Cache) as (c' & Hlast' & _ & Hp' & _); [done|].
  vm_compute in Hlast, Hlast'. injection Hlast as <-. injection Hlast' as <-.
  rewrite Hp, Hi, Hp'. by vm_compute.
Defined.

(** Overlapping sets are refused at once; disjoint ones are not. *)
Lemma AcquireSector_disjointness_witness :
  AcquireSector (SectorIndex0 := scripted_index script_two)
    SectorName_t0 true String_unknown two_paths sector7 0%Z
    FTSealed 6%Z true AcquireMove tt
  = (Err ErrConflictingFileTypeRequest, tt, [])
  /\ result_of (AcquireSector (SectorIndex0 := scripted_index script_two)
                  SectorName_t0 true String_unknown two_paths sector7 0%Z
                  FTUnsealed 6%Z true AcquireMove tt)
     <> Err ErrConflictingFileTypeRequest.
Proof.
  split.
  - by apply (AcquireSector_disjointness (SectorIndex0 := scripted_index script_two)).
  - by apply (AcquireSector_disjointness (SectorIndex0 := scripted_index script_two)).
Defined.

(** Locate the unsealed and the sealed file, allocate the cache: the holder
    [s9] is not opened here, so the files are found under [s1]. *)
Lemma AcquireSector_existing_first_usable_witness :
  Z.land 3 FTCache = 0%Z
  /\ index_finds (SectorIndex0 := scripted_index script_two) sector7 3%Z
       (on_find script_two)
  /\ index_offers (SectorIndex0 := scripted_index script_two) 0%Z true FTCache
       (on_alloc script_two)
  /\ every_type_has_survivor true two_paths true FTCache (on_alloc script_two)
  /\ exists out ids,
       result_of (AcquireSector (SectorIndex0 := scripted_index script_two)
                    SectorName_t0 true String_unknown two_paths sector7 0%Z
                    3%Z FTCache true AcquireMove tt) = Ok (out, ids)
       /\ PathByType out FTSealed = "/p1/sealed/s-t01000-7"
       /\ PathByType ids FTSealed = "s1".
Proof.
  assert (Hfind : index_finds (SectorIndex0 := scripted_index script_two) sector7 3%Z
                    (on_find script_two)) by (by intros ft w _ _).
  assert (Hoff : index_offers (SectorIndex0 := scripted_index script_two) 0%Z true FTCache
                   (on_alloc script_two)) by (by intros ft w _ _).
  assert (Hs : every_type_has_survivor true two_paths true FTCache (on_alloc script_two))
    by (intros ft _ _; by vm_compute).
  split; [done|]. split; [exact Hfind|]. split; [exact Hoff|]. split; [exact Hs|].
  destruct (AcquireSector_existing_first_usable (SectorIndex0 := scripted_index script_two)
              SectorName_t0 true String_unknown two_paths sector7 0%Z 3%Z FTCache
              true AcquireMove (on_find script_two) (on_alloc script_two) tt
              eq_refl Hfind Hoff Hs) as (out & ids & Hr & He & _).
  exists out, ids. split; [exact Hr|].
  pose proof (He FTSealed _ PathTypes_Sealed ltac:(done) eq_refl) as Hx.
  vm_compute in Hx. exact Hx.
Defined.

(** With weights 10 everywhere the storage chosen for the sealed file has a
    weight that is not 0. *)
Lemma AcquireSector_weight_as_offered_witness :
  Z.land FTNone FTSealed = 0%Z
  /\ index_offers (SectorIndex0 := scripted_index script_two) 0%Z false FTSealed
       (on_alloc script_two)
  /\ every_type_has_survivor true two_paths false FTSealed (on_alloc script_two)
  /\ exists out ids,
       result_of (AcquireSector (SectorIndex0 := scripted_index script_two)
                    SectorName_t0 true String_unknown two_paths sector7 0%Z
                    FTNone FTSealed false AcquireMove tt) = Ok (out, ids)
       /\ exists c, PathByType ids FTSealed = SI_ID c /\ SI_Weight c <> 0%Z.
Proof.
  assert (Hoff : index_offers (SectorIndex0 := scripted_index script_two) 0%Z false FTSealed
                   (on_alloc script_two)) by (by intros ft w _ _).
  assert (Hs : every_type_has_survivor true two_paths false FTSealed (on_alloc script_two))
    by (intros ft _ _; by vm_compute).
  split; [done|]. split; [exact Hoff|]. split; [exact Hs|].
  destruct (AcquireSector_weight_as_offered (SectorIndex0 := scripted_index script_two)
              SectorName_t0 true String_unknown two_paths sector7 0%Z FTNone FTSealed
              false AcquireMove (on_alloc script_two) tt eq_refl Hoff Hs)
    as (out & ids & Hr & He).
  { intros ft c _ _ Hc.
    assert (Hl : survivors true two_paths false (on_alloc script_two ft) = [info_s2])
      by (by vm_compute).
    rewrite Hl in Hc. apply list_elem_of_singleton in Hc as ->. done. }
  exists out, ids. split; [exact Hr|].
  destruct (He FTSealed PathTypes_Sealed) as (c & _ & Hi & _ & Hw); [done|].
  by exists c.
Defined.

(** C8, the claim as stated fails: the index offers [s2] with weight 0, it
    is the last candidate that can store, and [AcquireSector] resolves the
    sealed file to it. *)
Lemma AcquireSector_selects_weight_zero :
  result_of (AcquireSector (SectorIndex0 := scripted_index script_readonly)
               SectorName_t0 true String_unknown two_paths sector7 0%Z
               FTNone FTSealed false AcquireMove tt)
  = Ok ({| Id := {| Miner := 0; Number := 0 |}; Unsealed := "";
           Sealed := "/p2/sealed/s-t01000-7"; Cache := "" |},
        {| Id := {| Miner := 0; Number := 0 |}; Unsealed := "";
           Sealed := "s2"; Cache := "" |})
  /\ allocate_choice true two_paths false (on_alloc script_readonly FTSealed)
     = Some info_s2_readonly
  /\ SI_Weight info_s2_readonly = 0%Z.
Proof. by vm_compute. Qed.

(** The index fails for the unsealed file: the call succeeds all the same,
    without an entry for it, and the sealed file is still found. *)
Lemma AcquireSector_find_error_not_fatal_witness :
  Z.land 3 FTCache = 0%Z
  /\ index_finds (SectorIndex0 := scripted_index script_find_fails) sector7 3%Z
       (on_find script_find_fails)
  /\ index_offers (SectorIndex0 := scripted_index script_find_fails) 0%Z true FTCache
       (on_alloc script_find_fails)
  /\ Z.land FTUnsealed 3 <> 0%Z
  /\ on_find script_find_fails FTUnsealed = Err (External "index unavailable")
  /\ every_type_has_survivor true two_paths true FTCache (on_alloc script_find_fails)
  /\ exists out ids,
       result_of (AcquireSector (SectorIndex0 := scripted_index script_find_fails)
                    SectorName_t0 true String_unknown two_paths sector7 0%Z
                    3%Z FTCache true AcquireMove tt) = Ok (out, ids)
       /\ PathByType out FTUnsealed = ""
       /\ PathByType out FTSealed = "/p1/sealed/s-t01000-7".
Proof.
  assert (Hfind : index_finds (SectorIndex0 := scripted_index script_find_fails) sector7 3%Z
                    (on_find script_find_fails)) by (by intros ft w _ _).
  assert (Hoff : index_offers (SectorIndex0 := scripted_index script_find_fails) 0%Z true
                   FTCache (on_alloc script_find_fails)) by (by intros ft w _ _).
  assert (Hs : every_type_has_survivor true two_paths true FTCache
                 (on_alloc script_find_fails))
    by (intros ft _ _; by vm_compute).
  split; [done|]. split; [exact Hfind|]. split; [exact Hoff|].
  split; [done|]. split; [done|]. split; [exact Hs|].
  destruct (AcquireSector_find_error_not_fatal
              (SectorIndex0 := scripted_index script_find_fails)
              SectorName_t0 true String_unknown two_paths sector7 0%Z 3%Z FTCache
              true AcquireMove (on_find script_find_fails) (on_alloc script_find_fails) tt
              FTUnsealed (External "index unavailable")
              eq_refl Hfind Hoff PathTypes_Unsealed) as [Hok _]; [done|done|].
  destruct (Hok Hs) as (out & ids & Hr & Ho & _ & He).
  exists out, ids. split; [exact Hr|]. split; [exact Ho|].
  destruct (He FTSealed "s1" PathTypes_Sealed ltac:(done) eq_refl) as [Hx _].
  vm_compute in Hx. exact Hx.
Defined.

(** A base interval of ten seconds, in nanoseconds, and the largest draw. *)
Lemma reportHealth_interval_is_base_witness :
  (0 <= 10000000000)%Z
  /\ (10000000000 * 100000 + 10000 < 2 ^ 63)%Z
  /\ (0 <= 9999 < 10000)%Z
  /\ reportHealth_interval 10000000000 9999 = 10000000000%Z.
Proof.
  assert (H1 : (0 <= 10000000000)%Z) by lia.
  assert (H2 : (10000000000 * 100000 + 10000 < 2 ^ 63)%Z) by lia.
  assert (H3 : (0 <= 9999 < 10000)%Z) by lia.
  split; [exact H1|]. split; [exact H2|]. split; [exact H3|].
  exact (reportHealth_interval_is_base 10000000000 9999 H1 H2 H3).
Defined.


(** C3, the claim as stated fails: [s9] holds a copy that is not primary,
    the index reports it, and [RemoveCopies] neither drops nor deletes it,
    because [s9] is not opened here; the call returns without error. *)
Lemma RemoveCopies_leaves_remote_copy :
  RemoveCopies (SectorIndex0 := scripted_index script_copies)
    (HostFS0 := scripted_host script_copies)
    SectorName_t0 String_unknown two_paths sector7 FTSealed tt
  = (None, tt,
     [EvStorageFindSector sector7 FTSealed false (Ok copies);
      EvStorageDropSector "s2" sector7 FTSealed None;
      EvLog Infof "remove %s";
      EvRemoveAll "/p2/sealed/s-t01000-7" None])
  /\ In (holder "s9" false) copies
  /\ SSI_Primary (holder "s9" false) = false
  /\ hasPrimary copies = true.
Proof.
  split; [by vm_compute|]. split; [|done]. right. by left.
Qed.

Lemma RemoveCopies_removes_local_copies_witness :
  OnesCount (uint FTSealed) = 1%Z
  /\ fst (StorageFindSector (SectorIndex := scripted_index script_copies)
            sector7 FTSealed false tt) = Ok copies
  /\ (exists info, info ∈ copies /\ SSI_Primary info = true)
  /\ forall i id s t r,
       trace_of (RemoveCopies (SectorIndex0 := scripted_index script_copies)
                   (HostFS0 := scripted_host script_copies)
                   SectorName_t0 String_unknown two_paths sector7 FTSealed tt) !! i
       = Some (EvStorageDropSector id s t r) ->
       exists info, info ∈ copies /\ SSI_Primary info = false
         /\ SSI_ID info = id /\ holder_usable two_paths info = true.
Proof.
  assert (Hp : exists info, info ∈ copies /\ SSI_Primary info = true).
  { exists (holder "s1" true). split; [|done].
    do 2 (apply elem_of_cons; right). apply elem_of_cons. by left. }
  split; [done|]. split; [done|]. split; [exact Hp|].
  destruct (RemoveCopies_removes_local_copies (SectorIndex0 := scripted_index script_copies)
              (HostFS0 := scripted_host script_copies)
              SectorName_t0 String_unknown two_paths sector7 FTSealed copies tt
              eq_refl eq_refl) as [_ Hsome].
  destruct (Hsome Hp) as (_ & Hdrops & _ & _). exact Hdrops.
Defined.

(** [Remove] on two bits, and on a sector nobody holds. *)
Lemma Remove_guards_witness :
  (1 < OnesCount (uint 6))%Z
  /\ OnesCount (uint FTCache) = 1%Z
  /\ Remove (SectorIndex0 := scripted_index script_readonly)
       (HostFS0 := scripted_host script_readonly)
       SectorName_t0 String_unknown two_paths sector7 6%Z true tt
     = (Some ErrSingleFileTypeRequired, tt, [])
  /\ Remove (SectorIndex0 := scripted_index script_readonly)
       (HostFS0 := scripted_host script_readonly)
       SectorName_t0 String_unknown two_paths sector7 FTCache false tt
     = (Some ErrSectorNotFound, tt, [EvStorageFindSector sector7 FTCache false (Ok [])])
  /\ Remove (SectorIndex0 := scripted_index script_readonly)
       (HostFS0 := scripted_host script_readonly)
       SectorName_t0 String_unknown two_paths sector7 FTCache true tt
     = (None, tt, [EvStorageFindSector sector7 FTCache false (Ok [])]).
Proof.
  assert (H6 : (1 < OnesCount (uint 6))%Z) by (by vm_compute).
  split; [exact H6|]. split; [done|]. split; [|split].
  - by apply (Remove_guards (SectorIndex0 := scripted_index script_readonly)
                (HostFS0 := scripted_host script_readonly)).
  - by apply (Remove_guards (SectorIndex0 := scripted_index script_readonly)
                (HostFS0 := scripted_host script_readonly)
                SectorName_t0 String_unknown two_paths sector7 FTCache false tt).
  - by apply (Remove_guards (SectorIndex0 := scripted_index script_readonly)
                (HostFS0 := scripted_host script_readonly)
                SectorName_t0 String_unknown two_paths sector7 FTCache true tt).
Defined.

(** Moving the sealed file: it is found under [s1], which cannot store, and
    goes to [s2], which can. *)
Example MoveStorage_run :
  MoveStorage (SectorIndex0 := scripted_index script_two)
    (HostFS0 := scripted_host script_two)
    SectorName_t0 true String_unknown two_paths sector7 0%Z FTSealed tt
  = (None, tt,
     [EvStorageBestAlloc FTSealed 0%Z false (Ok [info_s1; info_s2]);
      EvStorageFindSector sector7 FTSealed false (Ok [holder "s9" false; holder "s1" true]);
      EvStorageInfo "s1" (Ok info_s1);
      EvStorageInfo "s2" (Ok info_s2);
      EvLog Debugf "moving %v(%d) to storage: %s(se:%t; st:%t) -> %s(se:%t; st:%t)";
      EvStorageDropSector "s1" sector7 FTSealed None;
      EvMove "/p1/sealed/s-t01000-7" "/p2/sealed/s-t01000-7" None;
      EvStorageDeclareSector "s2" sector7 FTSealed true None]).
Proof. by vm_compute. Qed.


Lemma MoveStorage_drop_move_declare_witness :
  move_protocol sector7
    (trace_of (MoveStorage (SectorIndex0 := scripted_index script_two)
                 (HostFS0 := scripted_host script_two)
                 SectorName_t0 true String_unknown two_paths sector7 0%Z FTSealed tt))
  /\ SI_ID info_s1 = PathByType (ids_of "s1") FTSealed
  /\ SI_ID info_s2 = PathByType (ids_of "s2") FTSealed
  /\ PathByType (ids_of "s1") FTSealed <> PathByType (ids_of "s2") FTSealed
  /\ SI_CanStore info_s1 = false
  /\ exists rdrop,
       trace_of (move_one (SectorIndex0 := scripted_index script_two)
                   (HostFS0 := scripted_host script_two) sector7
                   (ids_of "/p1/sealed/s-t01000-7") (ids_of "s1")
                   (ids_of "/p2/sealed/s-t01000-7") (ids_of "s2") FTSealed tt)
       !! 3%nat = Some (EvStorageDropSector "s1" sector7 FTSealed rdrop).
Proof.
  destruct (MoveStorage_drop_move_declare (SectorIndex0 := scripted_index script_two)
              (HostFS0 := scripted_host script_two)
              SectorName_t0 true String_unknown two_paths sector7 0%Z FTSealed tt)
    as [Hproto Hone].
  split; [exact Hproto|]. split; [done|]. split; [done|]. split; [done|]. split; [done|].
  destruct (Hone (ids_of "/p1/sealed/s-t01000-7") (ids_of "s1")
              (ids_of "/p2/sealed/s-t01000-7") (ids_of "s2") FTSealed info_s1 info_s2 tt
              eq_refl eq_refl eq_refl eq_refl) as [_ Hmove].
  destruct Hmove as (rdrop & Hd & _); [done|done|]. by exists rdrop.
Defined.

(** ** Opening paths *)

Lemma oresult_obind {W A B} (m : MO W A) (k : A -> MO W B) w :
  oresult (obind m k w) = oresult (k (oresult (m w)) (oworld (m w))).
Proof.
  unfold obind, oresult, oworld.
  destruct (m w) as [[a w1] t1]; simpl. by destruct (k a w1) as [[b w2] t2].
Qed.

Lemma oworld_obind {W A B} (m : MO W A) (k : A -> MO W B) w :
  oworld (obind m k w) = oworld (k (oresult (m w)) (oworld (m w))).
Proof.
  unfold obind, oresult, oworld.
  destruct (m w) as [[a w1] t1]; simpl. by destruct (k a w1) as [[b w2] t2].
Qed.

Lemma otrace_obind {W A B} (m : MO W A) (k : A -> MO W B) w :
  otrace (obind m k w) = otrace (m w) ++ otrace (k (oresult (m w)) (oworld (m w))).
Proof.
  unfold obind, oresult, oworld, otrace.
  destruct (m w) as [[a w1] t1]; simpl. by destruct (k a w1) as [[b w2] t2].
Qed.

Lemma oresult_ocall {W A} (f : W -> A * W) ev w : oresult (ocall f ev w) = fst (f w).
Proof. unfold ocall, oresult. by destruct (f w). Qed.

Lemma oworld_ocall {W A} (f : W -> A * W) ev w : oworld (ocall f ev w) = snd (f w).
Proof. unfold ocall, oworld. by destruct (f w). Qed.

Lemma otrace_ocall {W A} (f : W -> A * W) ev w : otrace (ocall f ev w) = [ev (fst (f w))].
Proof. unfold ocall, otrace. by destruct (f w). Qed.

Lemma oresult_olift {W A} (m : M W A) w : oresult (olift m w) = result_of (m w).
Proof. unfold olift, oresult, result_of. by destruct (m w) as [[a w1] t1]. Qed.

Lemma oworld_olift {W A} (m : M W A) w : oworld (olift m w) = world_of (m w).
Proof. unfold olift, oworld, world_of. by destruct (m w) as [[a w1] t1]. Qed.

Lemma otrace_olift {W A} (m : M W A) w : otrace (olift m w) = OpIndex <$> trace_of (m w).
Proof. unfold olift, otrace, trace_of. by destruct (m w) as [[a w1] t1]. Qed.

Lemma oresult_tuple {W A} (a : A) (w : W) t : oresult (a, w, t) = a.
Proof. done. Qed.

Lemma oworld_tuple {W A} (a : A) (w : W) t : oworld (a, w, t) = w.
Proof. done. Qed.

Lemma otrace_tuple {W A} (a : A) (w : W) t : otrace (a, w, t) = t.
Proof. done. Qed.

Lemma orun_eta {W A} (r : A * W * list OpEvent) : r = (oresult r, oworld r, otrace r).
Proof. by destruct r as [[? ?] ?]. Qed.

Section OpenPath_facts.
Context {W : Type} `{!SectorIndex W} `{!SectorIndexHealth W}
  `{!LocalStorage W} `{!HostDirs W}.
Variable ParseSectorID : string -> Result SectorID.
Variable json_Unmarshal : string -> Result LocalStorageMeta.
Variable os_IsNotExist : error -> bool.
Variable String_other : SectorFileType -> string.

Lemma declare_entries_events p meta t ents w :
  t ∈ PathTypes ->
  Forall (scan_event String_other p meta)
    (otrace (declare_entries ParseSectorID (LSM_ID meta) t (LSM_CanStore meta) ents w)).
Proof.
  intros Ht. revert w. induction ents as [|name rest IH]; intros w; [by constructor|].
  simpl declare_entries. destruct (ParseSectorID name) as [sid|err]; [|by constructor].
  rewrite otrace_obind, otrace_olift, oresult_olift, oworld_olift.
  unfold index_StorageDeclareSector at 1. rewrite trace_of_call.
  apply Forall_app. split; [simpl; constructor; [done|by constructor]|].
  destruct (result_of _) as [err|]; [by constructor|apply IH].
Qed.

Lemma open_types_events p meta types w :
  (forall t, t ∈ types -> t ∈ PathTypes) ->
  Forall (scan_event String_other p meta)
    (otrace (open_types ParseSectorID os_IsNotExist String_other p meta types w)).
Proof.
  revert w. induction types as [|t rest IH]; intros w Hsub; [by constructor|].
  assert (Ht : t ∈ PathTypes) by (apply Hsub, elem_of_cons; by left).
  assert (Hsub' : forall t, t ∈ rest -> t ∈ PathTypes).
  { intros t' Ht'. apply Hsub, elem_of_cons. by right. }
  simpl open_types. rewrite otrace_obind. unfold host_ReadDir at 1. rewrite otrace_ocall.
  apply Forall_app. split.
  { constructor; [|by constructor]. by exists t. }
  destruct (oresult _) as [ents|err].
  - rewrite otrace_obind. apply Forall_app. split; [by apply declare_entries_events|].
    destruct (oresult _) as [err|]; [by constructor|by apply IH].
  - destruct (os_IsNotExist err); [|by constructor].
    rewrite otrace_obind. unfold host_MkdirAll at 1. rewrite otrace_ocall.
    apply Forall_app. split.
    { constructor; [|by constructor]. split; [done|by exists t]. }
    destruct (oresult _) as [err'|]; [by constructor|by apply IH].
Qed.

Lemma declare_entries_index_only id t primary ents w :
  Forall (fun e => exists e', e = OpIndex e')
    (otrace (declare_entries ParseSectorID id t primary ents w)).
Proof.
  revert w. induction ents as [|name rest IH]; intros w; [by constructor|].
  simpl declare_entries. destruct (ParseSectorID name) as [sid|err]; [|by constructor].
  rewrite otrace_obind, otrace_olift, oresult_olift, oworld_olift.
  unfold index_StorageDeclareSector at 1. rewrite trace_of_call.
  apply Forall_app. split; [simpl; constructor; [by eexists|by constructor]|].
  destruct (result_of _) as [err|]; [by constructor|apply IH].
Qed.

(** A scan of one directory that ends without error declared every entry. *)
Lemma declare_entries_all id t primary ents w :
  oresult (declare_entries ParseSectorID id t primary ents w) = None ->
  forall name, name ∈ ents ->
    exists sid, ParseSectorID name = Ok sid
      /\ OpIndex (EvStorageDeclareSector id sid t primary None)
           ∈ otrace (declare_entries ParseSectorID id t primary ents w).
Proof.
  revert w. induction ents as [|name0 rest IH]; intros w Hr name Hin.
  { by apply elem_of_nil in Hin. }
  revert Hr. simpl declare_entries.
  destruct (ParseSectorID name0) as [sid0|err] eqn:Hp; [|done].
  rewrite oresult_obind, otrace_obind, otrace_olift, oresult_olift, oworld_olift.
  unfold index_StorageDeclareSector.
  rewrite !trace_of_call, !result_of_call, !world_of_call.
  destruct (StorageDeclareSector id sid0 t primary w).1 as [err|] eqn:Hd; [done|].
  intros Hr. apply elem_of_cons in Hin as [-> | Hin].
  - exists sid0. split; [done|]. apply elem_of_app. left. simpl. apply elem_of_cons. by left.
  - destruct (IH _ Hr name Hin) as (sid & ? & ?). exists sid. split; [done|].
    apply elem_of_app. by right.
Qed.

Lemma open_types_cons p meta t rest :
  open_types ParseSectorID os_IsNotExist String_other p meta (t :: rest)
  = (r <- host_ReadDir (type_dir String_other p t);;
     match r with
     | Err err =>
         if os_IsNotExist err then
           e <- host_MkdirAll (type_dir String_other p t) 493;;
           match e with
           | Some err' => oret (Some (Wrap "openPath mkdir '%s'" err'))
           | None => open_types ParseSectorID os_IsNotExist String_other p meta rest
           end
         else oret (Some (Wrap "listing %s" err))
     | Ok ents =>
         e <- declare_entries ParseSectorID (LSM_ID meta) t (LSM_CanStore meta) ents;;
         match e with
         | Some err => oret (Some err)
         | None => open_types ParseSectorID os_IsNotExist String_other p meta rest
         end
     end)%op.
Proof. done. Qed.

(** A scan that ends without error listed every type's directory and
    declared every entry of every directory it could list. *)
Lemma open_types_declares p meta types w :
  oresult (open_types ParseSectorID os_IsNotExist String_other p meta types w) = None ->
  let tr := otrace (open_types ParseSectorID os_IsNotExist String_other p meta types w) in
  (forall t, t ∈ types -> exists r, OpReadDir (type_dir String_other p t) r ∈ tr)
  /\ forall dir names, OpReadDir dir (Ok names) ∈ tr ->
       forall name, name ∈ names ->
         exists sid t, t ∈ types /\ dir = type_dir String_other p t
           /\ ParseSectorID name = Ok sid
           /\ OpIndex (EvStorageDeclareSector (LSM_ID meta) sid t (LSM_CanStore meta) None)
                ∈ tr.
Proof.
  revert w. induction types as [|t0 rest IH]; intros w Hr tr; subst tr.
  { split; [intros t Ht; by apply elem_of_nil in Ht|].
    intros dir names Hin. by apply elem_of_nil in Hin. }
  revert Hr. rewrite open_types_cons.
  rewrite oresult_obind, otrace_obind. unfold host_ReadDir.
  rewrite !otrace_ocall, !oresult_ocall, !oworld_ocall.
  set (w1 := (ioutil_ReadDir (type_dir String_other p t0) w).2).
  destruct (ioutil_ReadDir (type_dir String_other p t0) w).1 as [ents|err] eqn:Hl.
  - rewrite oresult_obind, otrace_obind.
    pose proof (declare_entries_all (LSM_ID meta) t0 (LSM_CanStore meta) ents w1) as Hall.
    pose proof (declare_entries_index_only (LSM_ID meta) t0 (LSM_CanStore meta) ents w1)
      as Honly.
    destruct (oresult (declare_entries _ _ _ _ _ w1)) as [err|]; [done|].
    intros Hr. destruct (IH _ Hr) as [Hlist Hdecl]. split.
    + intros t [-> | Ht]%elem_of_cons.
      * eexists. apply elem_of_cons. by left.
      * destruct (Hlist t Ht) as [r Hin]. exists r.
        apply elem_of_cons. right. apply elem_of_app. by right.
    + intros dir names [Hhd | [Hin | Hin]%elem_of_app]%elem_of_cons name Hname.
      * injection Hhd as -> ->.
        destruct (Hall eq_refl name Hname) as (sid & Hp & Hev).
        exists sid, t0. split; [apply elem_of_cons; by left|]. repeat split; try done.
        apply elem_of_cons. right. apply elem_of_app. by left.
      * rewrite Forall_forall in Honly. apply Honly in Hin as [e' He']. done.
      * destruct (Hdecl dir names Hin name Hname) as (sid & t & Ht & -> & Hp & Hev).
        exists sid, t. split; [apply elem_of_cons; by right|]. repeat split; try done.
        apply elem_of_cons. right. apply elem_of_app. by right.
  - destruct (os_IsNotExist err); [|done].
    rewrite oresult_obind, otrace_obind. unfold host_MkdirAll.
    rewrite !otrace_ocall, !oresult_ocall, !oworld_ocall.
    destruct (os_MkdirAll (type_dir String_other p t0) 493 w1).1 as [err'|]; [done|].
    intros Hr. destruct (IH _ Hr) as [Hlist Hdecl]. split.
    + intros t [-> | Ht]%elem_of_cons.
      * eexists. apply elem_of_cons. by left.
      * destruct (Hlist t Ht) as [r Hin]. exists r.
        do 2 (apply elem_of_cons; right). done.
    + intros dir names [Hhd | [Hhd | Hin]%elem_of_cons]%elem_of_cons name Hname;
        [done|done|].
      destruct (Hdecl dir names Hin name Hname) as (sid & t & Ht & -> & Hp & Hev).
      exists sid, t. split; [apply elem_of_cons; by right|]. repeat split; try done.
      do 2 (apply elem_of_cons; right). done.
Qed.

Lemma dir_errors_handled_app r t1 t2 :
  (forall i dir err, t1 !! i <> Some (OpReadDir dir (Err err))) ->
  dir_errors_handled os_IsNotExist r t2 ->
  dir_errors_handled os_IsNotExist r (t1 ++ t2).
Proof.
  intros Hq H2 i dir err Hi.
  apply lookup_app_Some in Hi as [Hi | [Hl Hi]]; [by apply Hq in Hi|].
  specialize (H2 _ _ _ Hi). rewrite length_app.
  destruct (os_IsNotExist err).
  - destruct H2 as (e & He & Hlast). exists e. split.
    + rewrite lookup_app_r by lia.
      by replace (S i - length t1)%nat with (S (i - length t1)) by lia.
    + intros err' Herr. destruct (Hlast err' Herr) as [Hlen ->]. split; [lia|done].
  - destruct H2 as [Hlen ->]. split; [lia|done].
Qed.

Lemma open_types_dir_errors p meta types w :
  dir_errors_handled os_IsNotExist
    (oresult (open_types ParseSectorID os_IsNotExist String_other p meta types w))
    (otrace (open_types ParseSectorID os_IsNotExist String_other p meta types w)).
Proof.
  revert w. induction types as [|t0 rest IH]; intros w.
  { intros i ???. done. }
  rewrite open_types_cons.
  rewrite oresult_obind, otrace_obind. unfold host_ReadDir.
  rewrite !otrace_ocall, !oresult_ocall, !oworld_ocall.
  set (w1 := (ioutil_ReadDir (type_dir String_other p t0) w).2).
  destruct (ioutil_ReadDir (type_dir String_other p t0) w).1 as [ents|err] eqn:Hl.
  - rewrite oresult_obind, otrace_obind, app_assoc.
    pose proof (declare_entries_index_only (LSM_ID meta) t0 (LSM_CanStore meta) ents w1)
      as Honly.
    destruct (oresult (declare_entries _ _ _ _ _ w1)) as [err|].
    + simpl otrace at 2. rewrite app_nil_r.
      intros i dir err' Hi. exfalso.
      apply lookup_app_Some in Hi as [Hi | [_ Hi]].
      * by destruct i.
      * rewrite Forall_lookup in Honly. by apply Honly in Hi as [e' He'].
    + apply dir_errors_handled_app; [|apply IH].
      intros i dir err' Hi.
      apply lookup_app_Some in Hi as [Hi | [_ Hi]].
      * by destruct i.
      * rewrite Forall_lookup in Honly. by apply Honly in Hi as [e' He'].
  - destruct (os_IsNotExist err) eqn:Hne.
    + rewrite oresult_obind, otrace_obind. unfold host_MkdirAll.
      rewrite !otrace_ocall, !oresult_ocall, !oworld_ocall.
      destruct (os_MkdirAll (type_dir String_other p t0) 493 w1).1 as [err'|].
      * intros [|[|i]] dir err0 Hi; [|done|done].
        injection Hi as <- <-. rewrite Hne. eexists. split; [done|].
        intros ? [= <-]. done.
      * intros [|[|i]] dir err0 Hi; [|done|].
        { injection Hi as <- <-. rewrite Hne. eexists. split; [done|]. done. }
        simpl in Hi. specialize (IH _ _ _ _ Hi). simpl length.
        destruct (os_IsNotExist err0).
        -- destruct IH as (e & He & Hlast). exists e. split; [done|].
           intros err' Herr. destruct (Hlast err' Herr) as [Hlen ->]. split; [lia|done].
        -- destruct IH as [Hlen ->]. split; [lia|done].
    + intros [|i] dir err0 Hi; [|done].
      injection Hi as <- <-. by rewrite Hne.
Qed.

(** The run of [OpenPath], step by step. *)
Lemma OpenPath_run (st : Local) p w :
  OpenPath ParseSectorID json_Unmarshal os_IsNotExist String_other st p w
  = let file := filepath.Join [p; MetaFile] in
    let '(mb, w1) := ioutil_ReadFile file w in
    match mb with
    | Err err =>
        ((Some (Wrap "reading storage metadata for %s" err), st), w1, [OpReadFile file mb])
    | Ok bytes =>
        match json_Unmarshal bytes with
        | Err err =>
            ((Some (Wrap "unmarshalling storage metadata for %s" err), st), w1,
             [OpReadFile file mb])
        | Ok meta =>
            let '(r, w2) := Stat p w1 in
            match snd r with
            | Some err => ((Some err, st), w2, [OpReadFile file mb; OpStat p r])
            | None =>
                let '(e, w3) := StorageAttach (attached_info st meta) (fst r) w2 in
                let opened :=
                  [OpReadFile file mb; OpStat p r;
                   OpStorageAttach (attached_info st meta) (fst r) e] in
                match e with
                | Some err =>
                    ((Some (Wrap "declaring storage in index" err), st), w3, opened)
                | None =>
                    let scan :=
                      open_types ParseSectorID os_IsNotExist String_other p meta
                        PathTypes w3 in
                    (match oresult scan with
                     | Some err => (Some err, st)
                     | None =>
                         (None, {| urls := urls st;
                                   paths := <[LSM_ID meta := {| local := p |}]> (paths st) |})
                     end, oworld scan, opened ++ otrace scan)
                end
            end
        end
    end.
Proof.
  unfold OpenPath, obind, host_ReadFile, localStorage_Stat, index_StorageAttach, ocall, oret.
  cbv zeta.
  destruct (ioutil_ReadFile _ w) as [[bytes|err] w1]; [|done].
  destruct (json_Unmarshal bytes) as [meta|err]; [|done].
  destruct (Stat p w1) as [[fs [err|]] w2]; [done|]. cbn [fst snd].
  destruct (StorageAttach _ fs w2) as [[err|] w3]; [done|].
  destruct (open_types ParseSectorID os_IsNotExist String_other p meta PathTypes w3)
    as [[[err|] w4] tr]; unfold oresult, oworld, otrace; cbn [fst snd app];
    by rewrite app_nil_r.
Qed.

End OpenPath_facts.

Section OpenPath_properties.
Context {W : Type} `{!SectorIndex W} `{!SectorIndexHealth W}
  `{!LocalStorage W} `{!HostDirs W}.
Variable ParseSectorID : string -> Result SectorID.
Variable json_Unmarshal : string -> Result LocalStorageMeta.
Variable os_IsNotExist : error -> bool.
Variable String_other : SectorFileType -> string.

(** X1: [OpenPath] changes the registry at its very end only.  When it
    returns an error the registry is the one it was given.  When it succeeds
    the descriptor was read and decoded, and the registry differs in one
    entry: the descriptor's ID now maps to the opened root, replacing
    whatever entry that ID had. *)
Theorem OpenPath_registers_on_success_only (st : Local) p w :
  let r := oresult (OpenPath ParseSectorID json_Unmarshal os_IsNotExist String_other
                      st p w) in
  match fst r with
  | Some _ => snd r = st
  | None =>
      exists bytes meta,
        fst (ioutil_ReadFile (filepath.Join [p; MetaFile]) w) = Ok bytes
        /\ json_Unmarshal bytes = Ok meta
        /\ urls (snd r) = urls st
        /\ forall id,
             paths (snd r) !! id
             = if decide (id = LSM_ID meta) then Some {| local := p |} else paths st !! id
  end.
Proof.
  cbv zeta. rewrite OpenPath_run. cbv zeta.
  destruct (ioutil_ReadFile _ w) as [[bytes|err] w1]; [|done].
  destruct (json_Unmarshal bytes) as [meta|err] eqn:Hm; [|done].
  destruct (Stat p w1) as [[fs [err|]] w2]; [done|]. cbn [fst snd].
  destruct (StorageAttach _ fs w2) as [[err|] w3]; [done|].
  unfold oresult at 1 3. cbn [fst snd].
  destruct (oresult _) as [err|]; [done|]. cbn [fst snd].
  exists bytes, meta. repeat split; try done.
  intros id. simpl. rewrite lookup_insert. by repeat case_decide.
Qed.

(** X2: the order of [OpenPath].  The descriptor is read first.  Whatever
    comes after the third event comes after the statistics of the root were
    obtained and after [StorageAttach] succeeded with the descriptor's ID,
    weight and capabilities and the store's URLs; and it is a step of the
    scan: listing or creating (mode 0755) the directory of one of the three
    file types, or declaring a sector under the descriptor's ID with the
    descriptor's [CanStore] as primary flag. *)
Theorem OpenPath_attaches_before_declaring (st : Local) p w :
  let tr := otrace (OpenPath ParseSectorID json_Unmarshal os_IsNotExist String_other
                      st p w) in
  (exists mb, tr !! 0%nat = Some (OpReadFile (filepath.Join [p; MetaFile]) mb))
  /\ forall i e, (3 <= i)%nat -> tr !! i = Some e ->
       exists bytes meta fs,
         tr !! 0%nat = Some (OpReadFile (filepath.Join [p; MetaFile]) (Ok bytes))
         /\ json_Unmarshal bytes = Ok meta
         /\ tr !! 1%nat = Some (OpStat p (fs, None))
         /\ tr !! 2%nat = Some (OpStorageAttach (attached_info st meta) fs None)
         /\ scan_event String_other p meta e.
Proof.
  cbv zeta. rewrite OpenPath_run. cbv zeta.
  destruct (ioutil_ReadFile _ w) as [[bytes|err] w1].
  2: { split; [by eexists|]. intros [|[|[|i]]] e Hi; try lia; done. }
  destruct (json_Unmarshal bytes) as [meta|err] eqn:Hm.
  2: { split; [by eexists|]. intros [|[|[|i]]] e Hi; try lia; done. }
  destruct (Stat p w1) as [[fs [err|]] w2]; cbn [fst snd].
  { split; [by eexists|]. intros [|[|[|i]]] e Hi; try lia; done. }
  destruct (StorageAttach _ fs w2) as [[err|] w3].
  { split; [by eexists|]. intros [|[|[|i]]] e Hi; try lia; done. }
  unfold otrace at 1 2. cbn [fst snd].
  split; [by eexists|]. intros i e Hi He.
  exists bytes, meta, fs. repeat split; try done.
  pose proof (open_types_events ParseSectorID os_IsNotExist String_other p meta
                PathTypes w3 (fun _ H => H)) as Hscan.
  rewrite Forall_lookup in Hscan. destruct i as [|[|[|i]]]; try lia.
  simpl in He. by apply (Hscan i).
Qed.

(** X3: a successful [OpenPath] scanned everything.  The directory of each
    of the three file types was listed, and every entry of every directory
    that could be listed has a name that parses as a sector ID and was
    declared to the index, under the descriptor's ID, for the file type of
    that directory, with the descriptor's [CanStore] as primary flag. *)
Theorem OpenPath_declares_every_entry (st : Local) p w :
  let run := OpenPath ParseSectorID json_Unmarshal os_IsNotExist String_other st p w in
  fst (oresult run) = None ->
  exists bytes meta,
    fst (ioutil_ReadFile (filepath.Join [p; MetaFile]) w) = Ok bytes
    /\ json_Unmarshal bytes = Ok meta
    /\ (forall t, t ∈ PathTypes ->
          exists r, OpReadDir (type_dir String_other p t) r ∈ otrace run)
    /\ forall dir names, OpReadDir dir (Ok names) ∈ otrace run ->
         forall name, name ∈ names ->
           exists sid t,
             t ∈ PathTypes /\ dir = type_dir String_other p t
             /\ ParseSectorID name = Ok sid
             /\ OpIndex (EvStorageDeclareSector (LSM_ID meta) sid t (LSM_CanStore meta) None)
                  ∈ otrace run.
Proof.
  cbv zeta. rewrite OpenPath_run. cbv zeta.
  destruct (ioutil_ReadFile _ w) as [[bytes|err] w1]; [|done].
  destruct (json_Unmarshal bytes) as [meta|err] eqn:Hm; [|done].
  destruct (Stat p w1) as [[fs [err|]] w2]; [done|]. cbn [fst snd].
  destruct (StorageAttach _ fs w2) as [[err|] w3]; [done|].
  unfold oresult at 1, otrace at 1 2 3. cbn [fst snd].
  pose proof (open_types_declares ParseSectorID os_IsNotExist String_other p meta
                PathTypes w3) as Hscan.
  destruct (oresult _) as [err|]; [done|]. intros _.
  destruct (Hscan eq_refl) as [Hlist Hdecl].
  exists bytes, meta. repeat split; try done.
  - intros t Ht. destruct (Hlist t Ht) as [r Hr]. exists r.
    apply elem_of_app. by right.
  - intros dir names Hin name Hname.
    apply elem_of_app in Hin as [Hin | Hin].
    { repeat (apply elem_of_cons in Hin as [Hin | Hin]; [done|]).
      by apply elem_of_nil in Hin. }
    destruct (Hdecl dir names Hin name Hname) as (sid & t & ? & ? & ? & ?).
    exists sid, t. repeat split; try done. apply elem_of_app. by right.
Qed.

(** X4: a directory that cannot be listed.  When [ioutil.ReadDir] fails with
    an error that [os.IsNotExist] accepts, the next thing [OpenPath] does is
    to create that directory with mode 0755, and a failure to create it ends
    the call with the wrapped error.  Any other error of [ioutil.ReadDir]
    ends the call at once with the wrapped error. *)
Theorem OpenPath_creates_missing_directories (st : Local) p w :
  let run := OpenPath ParseSectorID json_Unmarshal os_IsNotExist String_other st p w in
  dir_errors_handled os_IsNotExist (fst (oresult run)) (otrace run).
Proof.
  cbv zeta. rewrite OpenPath_run. cbv zeta.
  destruct (ioutil_ReadFile _ w) as [[bytes|err] w1]; [|by intros [|i] ???].
  destruct (json_Unmarshal bytes) as [meta|err] eqn:Hm; [|by intros [|i] ???].
  destruct (Stat p w1) as [[fs [err|]] w2]; cbn [fst snd]; [by intros [|[|i]] ???|].
  destruct (StorageAttach _ fs w2) as [[err|] w3]; [by intros [|[|[|i]]] ???|].
  unfold oresult at 1, otrace at 1. cbn [fst snd].
  pose proof (open_types_dir_errors ParseSectorID os_IsNotExist String_other p meta
                PathTypes w3) as Hscan.
  apply dir_errors_handled_app; [by intros [|[|[|i]]] ??|].
  by destruct (oresult _) as [err|].
Qed.

End OpenPath_properties.

(** ** open and NewLocal *)

Section Open_facts.
Context {W : Type} `{!SectorIndex W} `{!SectorIndexHealth W}
  `{!LocalStorage W} `{!HostDirs W}.
Variable ParseSectorID : string -> Result SectorID.
Variable json_Unmarshal : string -> Result LocalStorageMeta.
Variable os_IsNotExist : error -> bool.
Variable String_other : SectorFileType -> string.

(** The two ways [OpenPath] ends. *)
Lemma OpenPath_outcome (st : Local) p w :
  let run := OpenPath ParseSectorID json_Unmarshal os_IsNotExist String_other st p w in
  match fst (oresult run) with
  | Some _ => snd (oresult run) = st
  | None =>
      exists bytes meta,
        otrace run !! 0%nat = Some (OpReadFile (filepath.Join [p; MetaFile]) (Ok bytes))
        /\ json_Unmarshal bytes = Ok meta
        /\ snd (oresult run)
           = {| urls := urls st;
                paths := <[LSM_ID meta := {| local := p |}]> (paths st) |}
  end.
Proof.
  cbv zeta. rewrite OpenPath_run. cbv zeta.
  destruct (ioutil_ReadFile _ w) as [[bytes|err] w1]; [|done].
  destruct (json_Unmarshal bytes) as [meta|err] eqn:Hm; [|done].
  destruct (Stat p w1) as [[fs [err|]] w2]; [done|]. cbn [fst snd].
  destruct (StorageAttach _ fs w2) as [[err|] w3]; [done|].
  destruct (oresult (open_types _ _ _ _ _ _ w3)) as [err|];
    unfold oresult, otrace; cbn [fst snd]; [done|].
  by exists bytes, meta.
Qed.

(** [OpenPath] neither asks for the configuration nor starts the health
    reports. *)
Lemma OpenPath_trace_kinds (st : Local) p w :
  Forall (fun e => e <> OpGoReportHealth /\ forall r, e <> OpGetStorage r)
    (otrace (OpenPath ParseSectorID json_Unmarshal os_IsNotExist String_other st p w)).
Proof.
  rewrite OpenPath_run. cbv zeta.
  destruct (ioutil_ReadFile _ w) as [[bytes|err] w1]; [|by repeat constructor].
  destruct (json_Unmarshal bytes) as [meta|err] eqn:Hm; [|by repeat constructor].
  destruct (Stat p w1) as [[fs [err|]] w2]; cbn [fst snd]; [by repeat constructor|].
  destruct (StorageAttach _ fs w2) as [[err|] w3]; [by repeat constructor|].
  unfold otrace at 1. cbn [fst snd].
  apply Forall_app. split; [by repeat constructor|].
  eapply Forall_impl;
    [apply (open_types_events ParseSectorID os_IsNotExist String_other p meta
              PathTypes w3 (fun _ H => H))|].
  intros e He. split; [by intros ->|]. intros r ->. done.
Qed.

Lemma open_paths_cons (st : Local) lp rest w :
  open_paths ParseSectorID json_Unmarshal os_IsNotExist String_other st (lp :: rest) w
  = let run := OpenPath ParseSectorID json_Unmarshal os_IsNotExist String_other
                 st (Path lp) w in
    match fst (oresult run) with
    | Some err =>
        ((Some (Wrap "opening path %s" err), snd (oresult run)), oworld run, otrace run)
    | None =>
        let more := open_paths ParseSectorID json_Unmarshal os_IsNotExist String_other
                      (snd (oresult run)) rest (oworld run) in
        (oresult more, oworld more, otrace run ++ otrace more)
    end.
Proof.
  simpl open_paths. unfold obind, oret, oresult, oworld, otrace. cbv zeta.
  destruct (OpenPath _ _ _ _ st (Path lp) w) as [[[[err|] st1] w1] t1]; cbn [fst snd].
  - by rewrite app_nil_r.
  - by destruct (open_paths _ _ _ _ st1 rest w1) as [[r2 w2] t2].
Qed.

(** Opening a list of paths that starts with [cfg1]: when [cfg1] opens
    without error the rest is opened from the state reached. *)
Lemma open_paths_app (st : Local) cfg1 cfg2 w :
  let run1 := open_paths ParseSectorID json_Unmarshal os_IsNotExist String_other
                st cfg1 w in
  fst (oresult run1) = None ->
  open_paths ParseSectorID json_Unmarshal os_IsNotExist String_other st (cfg1 ++ cfg2) w
  = let run2 := open_paths ParseSectorID json_Unmarshal os_IsNotExist String_other
                  (snd (oresult run1)) cfg2 (oworld run1) in
    (oresult run2, oworld run2, otrace run1 ++ otrace run2).
Proof.
  revert st w. induction cfg1 as [|lp rest IH]; intros st w run1; subst run1.
  { intros _. simpl. by rewrite <- orun_eta. }
  rewrite <- app_comm_cons, !open_paths_cons. cbv zeta.
  destruct (fst (oresult (OpenPath _ _ _ _ st (Path lp) w))) as [err|]; [done|].
  rewrite !oresult_tuple, !oworld_tuple, !otrace_tuple.
  intros Hr. rewrite (IH _ _ Hr). cbv zeta.
  by rewrite !oresult_tuple, !oworld_tuple, !otrace_tuple, app_assoc.
Qed.

(** Where the entries of the registry come from, after opening a list of
    paths. *)
Lemma open_paths_provenance cfg : forall (st : Local) w,
  let run := open_paths ParseSectorID json_Unmarshal os_IsNotExist String_other st cfg w in
  urls (snd (oresult run)) = urls st
  /\ forall id pth, paths (snd (oresult run)) !! id = Some pth ->
       paths st !! id = Some pth
       \/ exists lp bytes meta,
            lp ∈ cfg /\ local pth = Path lp
            /\ OpReadFile (filepath.Join [Path lp; MetaFile]) (Ok bytes) ∈ otrace run
            /\ json_Unmarshal bytes = Ok meta /\ LSM_ID meta = id.
Proof.
  induction cfg as [|lp rest IH]; intros st w run; subst run.
  { split; [done|]. intros id pth Hp. by left. }
  rewrite open_paths_cons. cbv zeta.
  pose proof (OpenPath_outcome st (Path lp) w) as Hout. cbv zeta in Hout.
  destruct (fst (oresult (OpenPath _ _ _ _ st (Path lp) w))) as [err|].
  { rewrite !oresult_tuple. cbn [fst snd]. rewrite Hout. split; [done|]. by left. }
  destruct Hout as (bytes & meta & H0 & Hm & Hst).
  rewrite !oresult_tuple, !otrace_tuple.
  destruct (IH (snd (oresult (OpenPath ParseSectorID json_Unmarshal os_IsNotExist
                                String_other st (Path lp) w)))
               (oworld (OpenPath ParseSectorID json_Unmarshal os_IsNotExist
                          String_other st (Path lp) w))) as [Hu Hp].
  rewrite Hst in Hu, Hp |- *. simpl in Hu. split; [done|].
  intros id pth Hid. destruct (Hp id pth Hid) as [Hold | (lp' & b' & m' & Hin & ? & ? & ? & ?)].
  - simpl in Hold. rewrite lookup_insert in Hold. case_decide as Hd.
    + right. injection Hold as <-. exists lp, bytes, meta.
      split; [apply elem_of_cons; by left|]. repeat split; try done.
      apply elem_of_app. left. by apply list_elem_of_lookup_2 in H0.
    + by left.
  - right. exists lp', b', m'. split; [apply elem_of_cons; by right|].
    repeat split; try done. apply elem_of_app. by right.
Qed.

Lemma open_paths_trace_kinds cfg : forall (st : Local) w,
  Forall (fun e => e <> OpGoReportHealth /\ forall r, e <> OpGetStorage r)
    (otrace (open_paths ParseSectorID json_Unmarshal os_IsNotExist String_other st cfg w)).
Proof.
  induction cfg as [|lp rest IH]; intros st w; [by constructor|].
  rewrite open_paths_cons. cbv zeta.
  destruct (fst (oresult _)) as [err|]; rewrite otrace_tuple.
  - apply OpenPath_trace_kinds.
  - apply Forall_app. split; [apply OpenPath_trace_kinds|apply IH].
Qed.

(** When a list of paths opens without error, the descriptor of each was
    read and decoded, and its ID is registered. *)
Lemma open_paths_all_opened cfg : forall (st : Local) w,
  let run := open_paths ParseSectorID json_Unmarshal os_IsNotExist String_other st cfg w in
  fst (oresult run) = None ->
  (forall id, is_Some (paths st !! id) -> is_Some (paths (snd (oresult run)) !! id))
  /\ forall lp, lp ∈ cfg ->
       exists bytes meta,
         OpReadFile (filepath.Join [Path lp; MetaFile]) (Ok bytes) ∈ otrace run
         /\ json_Unmarshal bytes = Ok meta
         /\ is_Some (paths (snd (oresult run)) !! LSM_ID meta).
Proof.
  induction cfg as [|lp rest IH]; intros st w run; subst run.
  { intros _. split; [done|]. intros lp Hin. by apply elem_of_nil in Hin. }
  rewrite open_paths_cons. cbv zeta.
  pose proof (OpenPath_outcome st (Path lp) w) as Hout. cbv zeta in Hout.
  destruct (fst (oresult (OpenPath _ _ _ _ st (Path lp) w))) as [err|]; [done|].
  destruct Hout as (bytes & meta & H0 & Hm & Hst).
  rewrite !oresult_tuple, !otrace_tuple.
  intros Hr. destruct (IH _ _ Hr) as [Hkeep Hall]. rewrite Hst in Hkeep, Hall |- *.
  split.
  - intros id Hid. apply Hkeep. simpl. rewrite lookup_insert. by case_decide.
  - intros lp' [-> | Hin]%elem_of_cons.
    + exists bytes, meta. split; [|split; [done|]].
      * apply elem_of_app. left. by apply list_elem_of_lookup_2 in H0.
      * apply Hkeep. simpl. by rewrite lookup_insert_eq.
    + destruct (Hall lp' Hin) as (b' & m' & ? & ? & ?). exists b', m'.
      split; [apply elem_of_app; by right|done].
Qed.

End Open_facts.

Section Open_properties.
Context {W : Type} `{!SectorIndex W} `{!SectorIndexHealth W}
  `{!LocalStorage W} `{!HostDirs W}.
Variable ParseSectorID : string -> Result SectorID.
Variable json_Unmarshal : string -> Result LocalStorageMeta.
Variable os_IsNotExist : error -> bool.
Variable String_other : SectorFileType -> string.

Lemma NewLocal_run urls0 w :
  NewLocal ParseSectorID json_Unmarshal os_IsNotExist String_other urls0 w
  = let l := {| urls := urls0; paths := ∅ |} in
    let '(cfg, w1) := GetStorage w in
    match cfg with
    | Err err =>
        ((l, Some (Wrap "getting local storage config" err)), w1, [OpGetStorage cfg])
    | Ok c =>
        let run := open_paths ParseSectorID json_Unmarshal os_IsNotExist String_other
                     l (StoragePaths c) w1 in
        match fst (oresult run) with
        | Some err =>
            ((snd (oresult run), Some err), oworld run, OpGetStorage cfg :: otrace run)
        | None =>
            ((snd (oresult run), None), oworld run,
             OpGetStorage cfg :: otrace run ++ [OpGoReportHealth])
        end
    end.
Proof.
  unfold NewLocal, open, obind, localStorage_GetStorage, ocall, oret. cbv zeta.
  destruct (GetStorage w) as [[c|err] w1]; [|done].
  destruct (open_paths _ _ _ _ _ (StoragePaths c) w1) as [[[[err|] st1] w2] t].
  - rewrite !oresult_tuple, !oworld_tuple, !otrace_tuple. cbn [fst snd app].
    by rewrite !app_nil_r.
  - rewrite !oresult_tuple, !oworld_tuple, !otrace_tuple. cbn [fst snd app].
    by rewrite !app_nil_r.
Qed.

(** X5: [open] stops at the first path that fails to open.  The paths
    configured before it stay registered just as they were opened, the error
    is that of the failing path, wrapped, and nothing is done about the paths
    configured after it. *)
Theorem open_paths_stops_at_first_failure (st : Local) cfg1 lp cfg2 w err :
  let run1 := open_paths ParseSectorID json_Unmarshal os_IsNotExist String_other
                st cfg1 w in
  fst (oresult run1) = None ->
  let failing := OpenPath ParseSectorID json_Unmarshal os_IsNotExist String_other
                   (snd (oresult run1)) (Path lp) (oworld run1) in
  fst (oresult failing) = Some err ->
  open_paths ParseSectorID json_Unmarshal os_IsNotExist String_other
    st (cfg1 ++ lp :: cfg2) w
  = ((Some (Wrap "opening path %s" err), snd (oresult run1)),
     oworld failing, otrace run1 ++ otrace failing).
Proof.
  intros run1 H1 failing Hf. subst run1 failing.
  rewrite (open_paths_app _ _ _ _ st cfg1 (lp :: cfg2) w H1). cbv zeta.
  rewrite open_paths_cons. cbv zeta.
  pose proof (OpenPath_outcome ParseSectorID json_Unmarshal os_IsNotExist String_other
                (snd (oresult (open_paths ParseSectorID json_Unmarshal os_IsNotExist
                                 String_other st cfg1 w))) (Path lp)
                (oworld (open_paths ParseSectorID json_Unmarshal os_IsNotExist
                           String_other st cfg1 w))) as Hout.
  cbv zeta in Hout. rewrite Hf in Hout |- *.
  by rewrite !oresult_tuple, !oworld_tuple, !otrace_tuple, Hout.
Qed.

(** X6: the registry [NewLocal] returns holds nothing but what was opened.
    The store has the URLs it was made with, and every entry of its registry
    is the root of a configured path whose descriptor was read and decoded
    and carries that entry's ID.  When [NewLocal] returns no error, the
    descriptor of every configured path was read and decoded and its ID is
    registered. *)
Theorem NewLocal_registers_configured_paths urls0 w :
  let run := NewLocal ParseSectorID json_Unmarshal os_IsNotExist String_other urls0 w in
  let l := fst (oresult run) in
  urls l = urls0
  /\ (forall id pth, paths l !! id = Some pth ->
        exists cfg lp bytes meta,
          otrace run !! 0%nat = Some (OpGetStorage (Ok cfg))
          /\ lp ∈ StoragePaths cfg /\ local pth = Path lp
          /\ OpReadFile (filepath.Join [Path lp; MetaFile]) (Ok bytes) ∈ otrace run
          /\ json_Unmarshal bytes = Ok meta /\ LSM_ID meta = id)
  /\ (snd (oresult run) = None ->
      exists cfg,
        otrace run !! 0%nat = Some (OpGetStorage (Ok cfg))
        /\ forall lp, lp ∈ StoragePaths cfg ->
             exists bytes meta,
               OpReadFile (filepath.Join [Path lp; MetaFile]) (Ok bytes) ∈ otrace run
               /\ json_Unmarshal bytes = Ok meta
               /\ is_Some (paths l !! LSM_ID meta)).
Proof.
  cbv zeta. rewrite NewLocal_run. cbv zeta.
  destruct (GetStorage w) as [[c|err] w1].
  2: { rewrite !oresult_tuple. cbn [fst snd]. split; [done|]. split; [|done].
       intros id pth Hp. simpl in Hp. by rewrite lookup_empty in Hp. }
  pose proof (open_paths_provenance ParseSectorID json_Unmarshal os_IsNotExist String_other
                (StoragePaths c) {| urls := urls0; paths := ∅ |} w1) as [Hu Hp].
  pose proof (open_paths_all_opened ParseSectorID json_Unmarshal os_IsNotExist String_other
                (StoragePaths c) {| urls := urls0; paths := ∅ |} w1) as Hall.
  cbv zeta in Hall.
  destruct (fst (oresult (open_paths _ _ _ _ _ (StoragePaths c) w1))) as [err|];
    rewrite !oresult_tuple, !otrace_tuple; cbn [fst snd].
  - split; [done|]. split; [|done].
    intros id pth Hid. destruct (Hp id pth Hid) as [Hold | (lp & b & m & ? & ? & ? & ? & ?)].
    { simpl in Hold. by rewrite lookup_empty in Hold. }
    exists c, lp, b, m. repeat split; try done. apply elem_of_cons. by right.
  - split; [done|]. split.
    + intros id pth Hid.
      destruct (Hp id pth Hid) as [Hold | (lp & b & m & ? & ? & ? & ? & ?)].
      { simpl in Hold. by rewrite lookup_empty in Hold. }
      exists c, lp, b, m. repeat split; try done.
      apply elem_of_cons. right. apply elem_of_app. by left.
    + intros _. exists c. split; [done|]. intros lp Hin.
      destruct (Hall eq_refl) as [_ Hopened].
      destruct (Hopened lp Hin) as (b & m & ? & ? & ?). exists b, m.
      repeat split; try done. apply elem_of_cons. right. apply elem_of_app. by left.
Qed.

(** X7: [NewLocal] starts the health reports exactly when it returns no
    error, as the last thing it does, and only once. *)
Theorem NewLocal_starts_reportHealth_on_success urls0 w :
  let run := NewLocal ParseSectorID json_Unmarshal os_IsNotExist String_other urls0 w in
  (snd (oresult run) = None <-> OpGoReportHealth ∈ otrace run)
  /\ (snd (oresult run) = None ->
      exists tr, otrace run = tr ++ [OpGoReportHealth] /\ OpGoReportHealth ∉ tr).
Proof.
  cbv zeta. rewrite NewLocal_run. cbv zeta.
  destruct (GetStorage w) as [[c|err] w1].
  2: { rewrite !oresult_tuple, !otrace_tuple. cbn [fst snd]. split; [|done].
       split; [done|]. intros [Hin | Hin]%elem_of_cons; [done|].
       by apply elem_of_nil in Hin. }
  pose proof (open_paths_trace_kinds ParseSectorID json_Unmarshal os_IsNotExist String_other
                (StoragePaths c) {| urls := urls0; paths := ∅ |} w1) as Hk.
  rewrite Forall_forall in Hk.
  destruct (fst (oresult (open_paths _ _ _ _ _ (StoragePaths c) w1))) as [err|];
    rewrite !oresult_tuple, !otrace_tuple; cbn [fst snd].
  - split; [|done]. split; [done|].
    intros [Hin | Hin]%elem_of_cons; [done|]. by apply Hk in Hin as [? _].
  - split.
    + split; [|done]. intros _. apply elem_of_cons. right. apply elem_of_app. right.
      apply elem_of_cons. by left.
    + intros _. eexists (_ :: _). split; [done|].
      intros [Hin | Hin]%elem_of_cons; [done|]. by apply Hk in Hin as [? _].
Qed.

(** X8: after a successful [OpenPath], [FsStat] for the descriptor's ID asks
    the provider for the statistics of the opened root, and returns what the
    provider returns; for an ID that is not registered it returns the zero
    statistics and [errPathNotFound] without asking the provider. *)
Theorem FsStat_after_OpenPath (st : Local) p w :
  let run := OpenPath ParseSectorID json_Unmarshal os_IsNotExist String_other st p w in
  fst (oresult run) = None ->
  exists bytes meta,
    fst (ioutil_ReadFile (filepath.Join [p; MetaFile]) w) = Ok bytes
    /\ json_Unmarshal bytes = Ok meta
    /\ (forall w', Local_FsStat (snd (oresult run)) (LSM_ID meta) w'
                   = (fst (Stat p w'), snd (Stat p w'), [OpStat p (fst (Stat p w'))]))
    /\ forall id w', id <> LSM_ID meta -> paths st !! id = None ->
         Local_FsStat (snd (oresult run)) id w'
         = ((FsStat_zero, Some errPathNotFound), w', []).
Proof.
  intros run Hr. subst run.
  pose proof (OpenPath_outcome ParseSectorID json_Unmarshal os_IsNotExist String_other
                st p w) as Hout.
  cbv zeta in Hout. rewrite Hr in Hout. destruct Hout as (bytes & meta & H0 & Hm & ->).
  exists bytes, meta. split; [|split; [done|split]].
  - rewrite OpenPath_run in H0. cbv zeta in H0.
    destruct (ioutil_ReadFile _ w) as [[b|err] w1]; simpl.
    + destruct (json_Unmarshal b); [|by injection H0 as <-].
      destruct (Stat p w1) as [[fs [e|]] w2]; cbn [fst snd] in H0;
        [by injection H0 as <-|].
      destruct (StorageAttach _ fs w2) as [[e|] w3]; by injection H0 as <-.
    + done.
  - intros w'. unfold Local_FsStat. simpl. rewrite lookup_insert_eq.
    unfold localStorage_Stat, ocall. simpl. by destruct (Stat p w').
  - intros id w' Hne Hid. unfold Local_FsStat. simpl.
    by rewrite lookup_insert_ne, Hid.
Qed.

End Open_properties.

(** ** Local: the list of the registered paths *)

Section Local_properties.
Context {W : Type} `{!SectorIndex W}.
Variable range : forall V : Type, gmap ID V -> list (ID * V).

Lemma NoDup_fst_filter {A B} (g : A * B -> bool) (l : list (A * B)) :
  NoDup (l.*1) -> NoDup ((List.filter g l).*1).
Proof.
  induction l as [|x l IH]; [done|]. simpl. intros [Hx Hl]%NoDup_cons.
  destruct (g x); [|by apply IH]. simpl. apply NoDup_cons. split; [|by apply IH].
  intros (y & Hy & Hin)%list_elem_of_fmap. apply Hx, list_elem_of_fmap.
  exists y. split; [done|]. apply list_elem_of_In in Hin. apply filter_In in Hin as [Hin _].
  by apply list_elem_of_In.
Qed.

Lemma Local_each_spec (ents : list (ID * path)) : forall out0 w res,
  oresult (Local_each ents out0 w) = Ok res ->
  exists res',
    res = out0 ++ res'
    /\ (fun sp => (SP_ID sp, {| local := SP_LocalPath sp |})) <$> res'
       = List.filter kept_entry ents
    /\ forall sp, sp ∈ res' ->
         exists si,
           OpIndex (EvStorageInfo (SP_ID sp) (Ok si)) ∈ otrace (Local_each ents out0 w)
           /\ SP_Weight sp = SI_Weight si /\ SP_CanSeal sp = SI_CanSeal si
           /\ SP_CanStore sp = SI_CanStore si.
Proof.
  induction ents as [|[id p] rest IH]; intros out0 w res.
  { simpl. intros [= <-]. exists []. rewrite app_nil_r. split; [done|]. split; [done|].
    intros sp Hin. by apply elem_of_nil in Hin. }
  simpl Local_each. unfold kept_entry at 1. simpl List.filter. simpl local.
  destruct (String.eqb (local p) "") eqn:Hl; simpl negb; cbv iota.
  { apply IH. }
  rewrite oresult_obind, otrace_obind, oresult_olift, oworld_olift, otrace_olift.
  unfold index_StorageInfo. rewrite !result_of_call, !world_of_call, !trace_of_call.
  destruct (StorageInfoOf id w).1 as [si|err] eqn:Hsi; [|done].
  intros Hr. destruct (IH _ _ _ Hr) as (res' & -> & Hk & Hev).
  eexists (_ :: res'). split; [by rewrite <- app_assoc|]. split.
  - rewrite fmap_cons, Hk. simpl. by destruct p.
  - intros sp [-> | Hin]%elem_of_cons.
    + exists si. simpl. split; [apply elem_of_cons; by left|done].
    + destruct (Hev sp Hin) as (si' & ? & ?). exists si'. split; [|done].
      apply elem_of_app. by right.
Qed.

Lemma Local_each_queries (ents : list (ID * path)) : forall out0 w,
  Forall (fun e => exists id r, e = OpIndex (EvStorageInfo id r))
    (otrace (Local_each ents out0 w))
  /\ forall e, oresult (Local_each ents out0 w) = Err e ->
       exists id err,
         e = Wrap "get storage info for %s" err
         /\ last (otrace (Local_each ents out0 w))
            = Some (OpIndex (EvStorageInfo id (Err err))).
Proof.
  induction ents as [|[id p] rest IH]; intros out0 w.
  { split; [by constructor|done]. }
  simpl Local_each. destruct (String.eqb (local p) ""); [apply IH|].
  rewrite oresult_obind, otrace_obind, oresult_olift, oworld_olift, otrace_olift.
  unfold index_StorageInfo. rewrite !result_of_call, !world_of_call, !trace_of_call.
  destruct (StorageInfoOf id w).1 as [si|err] eqn:Hsi.
  - destruct (IH (out0 ++ [{| SP_ID := id; SP_Weight := SI_Weight si;
                             SP_LocalPath := local p; SP_CanSeal := SI_CanSeal si;
                             SP_CanStore := SI_CanStore si |}])
                 (StorageInfoOf id w).2) as [Hq He].
    split.
    + apply Forall_app. split; [|done]. simpl. constructor; [by eexists _, _|by constructor].
    + intros e Hr. destruct (He e Hr) as (id' & err & -> & Hlast).
      exists id', err. split; [done|]. by rewrite last_app, Hlast.
  - split.
    + simpl. constructor; [by eexists _, _|by constructor].
    + intros e [= <-]. by exists id, err.
Qed.

(** X9: what [Local] lists.  Whatever the order in which the registry is
    visited, a list that [Local] returns has exactly one entry for each
    registered ID whose root is not empty, with that root, and no other
    entry; the weight and the capabilities of each entry are those the index
    answered for its ID during the call. *)
Theorem Local_lists_registered_paths (st : Local) w out :
  range path (paths st) ≡ₚ map_to_list (paths st) ->
  oresult (Local_Local range st w) = Ok out ->
  (forall id root,
     (exists sp, sp ∈ out /\ SP_ID sp = id /\ SP_LocalPath sp = root)
     <-> (paths st !! id = Some {| local := root |} /\ root <> ""))
  /\ NoDup (SP_ID <$> out)
  /\ forall sp, sp ∈ out ->
       exists si,
         OpIndex (EvStorageInfo (SP_ID sp) (Ok si)) ∈ otrace (Local_Local range st w)
         /\ SP_Weight sp = SI_Weight si /\ SP_CanSeal sp = SI_CanSeal si
         /\ SP_CanStore sp = SI_CanStore si.
Proof.
  intros Hperm Hr. unfold Local_Local in *.
  destruct (Local_each_spec _ _ _ _ Hr) as (res' & -> & Hk & Hev). simpl.
  assert (Hmem : forall id root,
            (id, {| local := root |}) ∈ List.filter kept_entry (range path (paths st))
            <-> paths st !! id = Some {| local := root |} /\ root <> "").
  { intros id root. rewrite list_elem_of_In, filter_In, <- list_elem_of_In, Hperm.
    rewrite elem_of_map_to_list. unfold kept_entry. simpl.
    rewrite negb_true_iff, String.eqb_neq. done. }
  split; [|split; [|done]].
  - intros id root. rewrite <- Hmem, <- Hk, list_elem_of_fmap. split.
    + intros (sp & Hin & <- & <-). by exists sp.
    + intros (sp & [= -> ->] & Hin). by exists sp.
  - assert (Hids : SP_ID <$> res' = (List.filter kept_entry (range path (paths st))).*1).
    { rewrite <- Hk, <- list_fmap_compose. done. }
    rewrite Hids. apply NoDup_fst_filter. rewrite Hperm. apply NoDup_fst_map_to_list.
Qed.

(** X10: [Local] only reads.  Every event of a call is a [StorageInfo]
    query, and the call fails only when such a query fails: the failed query
    is then its last event and its error is returned wrapped, with no
    list. *)
Theorem Local_only_queries (st : Local) w :
  Forall (fun e => exists id r, e = OpIndex (EvStorageInfo id r))
    (otrace (Local_Local range st w))
  /\ forall e, oresult (Local_Local range st w) = Err e ->
       exists id err,
         e = Wrap "get storage info for %s" err
         /\ last (otrace (Local_Local range st w))
            = Some (OpIndex (EvStorageInfo id (Err err))).
Proof. apply Local_each_queries. Qed.

End Local_properties.

(** ** reportHealth: one round *)

Section Health_facts.
Context {W : Type} `{!SectorIndex W} `{!SectorIndexHealth W} `{!LocalStorage W}.

Lemma stats_of_app tr1 tr2 : stats_of (tr1 ++ tr2) = stats_of tr1 ++ stats_of tr2.
Proof. apply omap_app. Qed.

Lemma reports_of_app tr1 tr2 : reports_of (tr1 ++ tr2) = reports_of tr1 ++ reports_of tr2.
Proof. apply omap_app. Qed.

Lemma stat_each_spec (ents : list (ID * path)) : forall m w,
  stats_of (otrace (stat_each ents m w)) = (fun x => local x.2) <$> ents
  /\ Forall is_stat (otrace (stat_each ents m w))
  /\ (forall id, is_Some (oresult (stat_each ents m w) !! id)
                 <-> id ∈ ents.*1 \/ is_Some (m !! id))
  /\ (forall id rep, oresult (stat_each ents m w) !! id = Some rep ->
        m !! id = Some rep
        \/ exists p, (id, p) ∈ ents
             /\ OpStat (local p) (HR_Stat rep, HR_Err rep) ∈ otrace (stat_each ents m w)).
Proof.
  induction ents as [|[id p] rest IH]; intros m w.
  { simpl. split; [done|]. split; [by constructor|]. split.
    - intros id. split; [by right|]. intros [Hin|?]; [|done]. by apply elem_of_nil in Hin.
    - intros id rep ?. by left. }
  simpl stat_each. rewrite oresult_obind, otrace_obind.
  unfold localStorage_Stat. rewrite !oresult_ocall, !oworld_ocall, !otrace_ocall.
  destruct (IH (<[id := {| HR_Stat := (Stat (local p) w).1.1;
                           HR_Err := (Stat (local p) w).1.2 |}]> m)
               (Stat (local p) w).2) as (Hs & Hf & Hdom & Hprov).
  split; [|split; [|split]].
  - rewrite stats_of_app, Hs. done.
  - apply Forall_app. split; [|done]. by constructor.
  - intros id'. rewrite Hdom. rewrite fmap_cons, elem_of_cons. simpl.
    destruct (decide (id' = id)) as [->|Hne].
    + rewrite lookup_insert_eq. split; [by left; left|by right].
    + rewrite lookup_insert_ne by done. split.
      * intros [?|?]; [by left; right|by right].
      * intros [[?|?]|?]; [done|by left|by right].
  - intros id' rep Hl. destruct (Hprov id' rep Hl) as [Hm | (p' & Hin & Hev)].
    + destruct (decide (id' = id)) as [->|Hne].
      * rewrite lookup_insert_eq in Hm. injection Hm as <-. right. exists p.
        split; [apply elem_of_cons; by left|]. cbn [HR_Stat HR_Err].
        apply elem_of_app. left. apply list_elem_of_singleton.
        by destruct (Stat (local p) w).1.
      * rewrite lookup_insert_ne in Hm by done. by left.
    + right. exists p'. split; [apply elem_of_cons; by right|].
      apply elem_of_app. by right.
Qed.

Lemma report_each_spec (reps : list (ID * HealthReport)) : forall w,
  reports_of (otrace (report_each reps w)) = reps
  /\ Forall is_report (otrace (report_each reps w)).
Proof.
  induction reps as [|[id rep] rest IH]; intros w.
  { split; [done|by constructor]. }
  simpl report_each. rewrite otrace_obind, ?oresult_obind, ?oworld_obind.
  unfold index_StorageReportHealth. rewrite !oresult_ocall, !oworld_ocall, !otrace_ocall.
  destruct (StorageReportHealth id rep w).1 as [err|].
  - rewrite otrace_obind, oworld_olift, otrace_olift.
    rewrite world_of_log, trace_of_log.
    destruct (IH (StorageReportHealth id rep w).2) as [Hr Hf].
    split.
    + rewrite !reports_of_app, Hr. done.
    + apply Forall_app. split; [by constructor|].
      apply Forall_app. split; [by constructor|done].
  - destruct (IH (StorageReportHealth id rep w).2) as [Hr Hf].
    split.
    + rewrite reports_of_app, Hr. done.
    + apply Forall_app. split; [by constructor|done].
Qed.

Lemma stats_of_reports (tr : list OpEvent) : Forall is_report tr -> stats_of tr = [].
Proof.
  induction 1 as [|e tr He _ IH]; [done|].
  change (e :: tr) with ([e] ++ tr). rewrite stats_of_app, IH, app_nil_r. by destruct e.
Qed.

Lemma reports_of_stats (tr : list OpEvent) : Forall is_stat tr -> reports_of tr = [].
Proof.
  induction 1 as [|e tr He _ IH]; [done|].
  change (e :: tr) with ([e] ++ tr). rewrite reports_of_app, IH, app_nil_r. by destruct e.
Qed.

End Health_facts.

Section Health_properties.
Context {W : Type} `{!SectorIndex W} `{!SectorIndexHealth W} `{!LocalStorage W}.
Variable range : forall V : Type, gmap ID V -> list (ID * V).

(** X11: a round of [reportHealth] covers the registry.  Whatever the order
    in which the maps are visited, a round asks for the statistics of the
    root of every registered path once (a path whose root is empty
    included), and sends the index one report for every registered ID and for
    no other; the report of an ID carries the statistics and the error that
    [Stat] returned for the root of that ID during the round.  A failure of
    [Stat] or of a report does not end the round. *)
Theorem reportHealth_round_covers_registry (st : Local) w :
  (forall V (m : gmap ID V), range V m ≡ₚ map_to_list m) ->
  stats_of (otrace (reportHealth_round range st w))
    ≡ₚ (fun x => local x.2) <$> map_to_list (paths st)
  /\ (reports_of (otrace (reportHealth_round range st w))).*1
       ≡ₚ (map_to_list (paths st)).*1
  /\ forall id rep,
       (id, rep) ∈ reports_of (otrace (reportHealth_round range st w)) ->
       exists p, paths st !! id = Some p
         /\ OpStat (local p) (HR_Stat rep, HR_Err rep)
              ∈ otrace (reportHealth_round range st w).
Proof.
  intros Hrange. unfold reportHealth_round.
  rewrite otrace_obind, stats_of_app, reports_of_app.
  destruct (stat_each_spec (range path (paths st)) ∅ w) as (Hs & Hf & Hdom & Hprov).
  destruct (report_each_spec
              (range HealthReport (oresult (stat_each (range path (paths st)) ∅ w)))
              (oworld (stat_each (range path (paths st)) ∅ w))) as [Hr Hfr].
  rewrite Hs, Hr, (stats_of_reports _ Hfr), (reports_of_stats _ Hf), app_nil_r.
  simpl app. split; [|split].
  - by rewrite Hrange.
  - rewrite !Hrange. apply NoDup_Permutation; try apply NoDup_fst_map_to_list.
    intros id. rewrite !list_elem_of_fmap. split.
    + intros ([id' rep] & -> & Hin%elem_of_map_to_list). simpl.
      assert (Hsome : is_Some (oresult (stat_each (range path (paths st)) ∅ w) !! id'))
        by by eexists.
      apply Hdom in Hsome as [Hin'|[? Hemp]]; [|by rewrite lookup_empty in Hemp].
      rewrite Hrange in Hin'. by apply list_elem_of_fmap in Hin'.
    + intros ([id' p] & -> & Hin). simpl.
      assert (Hsome : is_Some (oresult (stat_each (range path (paths st)) ∅ w) !! id')).
      { apply Hdom. left. rewrite Hrange. apply list_elem_of_fmap. by exists (id', p). }
      destruct Hsome as [rep Hrep]. exists (id', rep). split; [done|].
      by apply elem_of_map_to_list.
  - intros id rep Hin. rewrite Hrange in Hin. apply elem_of_map_to_list in Hin.
    destruct (Hprov id rep Hin) as [Hemp | (p & Hp & Hev)];
      [by rewrite lookup_empty in Hemp|].
    rewrite Hrange in Hp. apply elem_of_map_to_list in Hp.
    exists p. split; [done|]. apply elem_of_app. by left.
Qed.

(** X12: the two phases of a round of [reportHealth].  The events of a
    round split in two: first only calls of [Stat], then only reports to the
    index and the warnings logged for failed reports.  No statistics are
    asked for once reporting has begun, and a round changes nothing on disk
    and declares or drops nothing in the index. *)
Theorem reportHealth_round_stats_then_reports (st : Local) w :
  exists tr1 tr2,
    otrace (reportHealth_round range st w) = tr1 ++ tr2
    /\ Forall is_stat tr1 /\ Forall is_report tr2
    /\ length tr1 = length (range path (paths st)).
Proof.
  unfold reportHealth_round. rewrite otrace_obind.
  destruct (stat_each_spec (range path (paths st)) ∅ w) as (Hs & Hf & _ & _).
  destruct (report_each_spec
              (range HealthReport (oresult (stat_each (range path (paths st)) ∅ w)))
              (oworld (stat_each (range path (paths st)) ∅ w))) as [_ Hfr].
  eexists _, _. split; [done|]. split; [done|]. split; [done|].
  assert (Hlen : forall tr, Forall is_stat tr -> length tr = length (stats_of tr)).
  { induction 1 as [|e tr He _ IH]; [done|]. destruct e; try done.
    change (OpStat spath r :: tr) with ([OpStat spath r] ++ tr).
    rewrite stats_of_app, length_app. simpl. by rewrite IH. }
  rewrite (Hlen _ Hf), Hs. by rewrite length_fmap.
Qed.

End Health_properties.

(** ** Remove and RemoveCopies: the holders and the early errors *)

Section Removal_coverage.
Context {W : Type} `{!SectorIndex W} `{!HostFS W}.
Variable SectorName : SectorID -> string.
Variable String_other : SectorFileType -> string.

Lemma holder_unusable_root (st : Local) (info : SectorStorageInfo) :
  holder_usable st info = false -> mount_root st (SSI_ID info) = "".
Proof.
  unfold holder_usable, mount_root.
  destruct (paths st !! SSI_ID info) as [p|]; [|done].
  intros Hl. apply negb_false_iff in Hl. by apply String.eqb_eq.
Qed.

Lemma remove_each_none_local (st : Local) sid typ : forall si (w : W),
  (forall info, info ∈ si -> holder_usable st info = false) ->
  remove_each SectorName String_other st sid typ si w = (None, w, []).
Proof.
  induction si as [|info rest IH]; intros w Hall; [done|].
  simpl remove_each. unfold bind.
  destruct (removeSector_cases SectorName String_other st sid typ (SSI_ID info) w)
    as [[Hroot ->] | [(Hroot & _) | (Hroot & _)]].
  - rewrite IH; [done|]. intros info' Hin. apply Hall, elem_of_cons. by right.
  - destruct Hroot. apply holder_unusable_root, Hall, elem_of_cons. by left.
  - destruct Hroot. apply holder_unusable_root, Hall, elem_of_cons. by left.
Qed.

(** X13: what [Remove] removes.  When the index reports holders (or
    [force] is set), every drop of a run of [Remove] is for the sector and
    the file type of the call and for a reported holder that is registered
    here on a non-empty root, primary or not; when the call returns no error,
    every such holder was dropped from the index and its file deleted; and
    when no reported holder is registered here, the call returns no error
    after the query alone. *)
Theorem Remove_removes_local_holders (st : Local) sid typ force si w :
  OnesCount (uint typ) = 1%Z ->
  fst (StorageFindSector sid typ false w) = Ok si ->
  si <> [] \/ force = true ->
  let run := Remove SectorName String_other st sid typ force w in
  (forall i id s t r,
     trace_of run !! i = Some (EvStorageDropSector id s t r) ->
     s = sid /\ t = typ
     /\ exists info, info ∈ si /\ SSI_ID info = id /\ holder_usable st info = true)
  /\ (result_of run = None ->
      forall info, info ∈ si -> holder_usable st info = true ->
        EvStorageDropSector (SSI_ID info) sid typ None ∈ trace_of run
        /\ exists res,
             EvRemoveAll (path_under SectorName String_other st (SSI_ID info) typ sid) res
               ∈ trace_of run)
  /\ ((forall info, info ∈ si -> holder_usable st info = false) ->
      run = (None, snd (StorageFindSector sid typ false w),
             [EvStorageFindSector sid typ false (Ok si)])).
Proof.
  intros Hone Hfind Hgo run. subst run.
  rewrite Remove_run, Hone. simpl negb. cbv iota.
  destruct (StorageFindSector sid typ false w) as [r w1]. simpl in Hfind. subst r.
  assert (Hguard : (length si =? 0)%nat && negb force = false).
  { destruct Hgo as [Hne | ->]; [|by rewrite andb_false_r].
    destruct si; [done|]. done. }
  rewrite Hguard. cbv zeta. simpl snd.
  pose proof (remove_each_touches SectorName String_other st sid typ si w1) as Htouch.
  pose proof (remove_each_covers SectorName String_other st sid typ si w1) as Hcover.
  split; [|split].
  - intros [|i] id s t r Hi; [done|]. unfold trace_of at 1 in Hi. simpl in Hi.
    by apply Htouch in Hi.
  - unfold result_of at 1, trace_of at 1 3. simpl. intros Hr info Hin Hu.
    destruct (Hcover Hr info Hin Hu) as [Hd (res & Hrm)].
    split; [apply elem_of_cons; by right|]. exists res. apply elem_of_cons; by right.
  - intros Hnone. by rewrite remove_each_none_local.
Qed.

(** X14: the errors of a removal that come before any holder is touched.
    [Remove] and [RemoveCopies] return [ErrSingleFileTypeRequired] without
    any interaction unless exactly one bit of the file type is set (so also
    for [FTNone]); and when the query of the index fails they return its
    error wrapped, with the query as their only interaction. *)
Theorem removal_fails_before_touching (st : Local) sid typ force w :
  (OnesCount (uint typ) <> 1%Z ->
   Remove SectorName String_other st sid typ force w
   = (Some ErrSingleFileTypeRequired, w, [])
   /\ RemoveCopies SectorName String_other st sid typ w
      = (Some ErrSingleFileTypeRequired, w, []))
  /\ (OnesCount (uint typ) = 1%Z ->
      forall err, fst (StorageFindSector sid typ false w) = Err err ->
        let failed := (Some (Wrap "finding existing sector %d(t:%d) failed" err),
                       snd (StorageFindSector sid typ false w),
                       [EvStorageFindSector sid typ false (Err err)]) in
        Remove SectorName String_other st sid typ force w = failed
        /\ RemoveCopies SectorName String_other st sid typ w = failed).
Proof.
  rewrite Remove_run, RemoveCopies_run. split.
  - intros Hne. by destruct (Z.eqb_spec (OnesCount (uint typ)) 1).
  - intros -> err Hf. simpl negb. cbv iota zeta.
    destruct (StorageFindSector sid typ false w) as [r w1]. simpl in Hf. by subst r.
Qed.

End Removal_coverage.

(** ** MoveStorage: failures *)

Section MoveStorage_failures.
Context {W : Type} `{!SectorIndex W} `{!HostFS W}.
Variable SectorName : SectorID -> string.
Variable PathSealing : PathType.
Variable String_other : SectorFileType -> string.

Lemma failure_ends_quiet r tr :
  Forall (fun ev => is_mutation ev = false) tr -> failure_ends r tr.
Proof.
  intros Hq i e msg err Hi Hf. rewrite Forall_lookup in Hq. apply Hq in Hi.
  by destruct e as [? ? ? ? [?|] | ? ? ? [?|] | | | | | ? ? [?|] | ].
Qed.

Lemma failure_ends_none tr i e msg err :
  failure_ends None tr -> tr !! i = Some e -> failed_step e = Some (msg, err) -> False.
Proof. intros Hf Hi He. by destruct (Hf i e msg err Hi He) as [_ ?]. Qed.

Lemma failure_ends_app r1 r t1 t2 :
  failure_ends r1 t1 ->
  (r1 = None -> failure_ends r t2) ->
  (forall e, r1 = Some e -> t2 = [] /\ r = r1) ->
  failure_ends r (t1 ++ t2).
Proof.
  intros H1 H2 H3 i e msg err Hi He. destruct r1 as [e1|].
  - destruct (H3 e1 eq_refl) as [-> ->]. rewrite app_nil_r in Hi |- *. by apply (H1 i e).
  - apply lookup_app_Some in Hi as [Hi | [Hl Hi]].
    + by destruct (failure_ends_none _ _ _ _ _ H1 Hi He).
    + destruct (H2 eq_refl _ _ _ _ Hi He) as [Hlen ->]. split; [|done].
      rewrite length_app. lia.
Qed.

Lemma failure_ends_after_quiet r t1 t2 :
  Forall (fun ev => is_mutation ev = false) t1 -> failure_ends r t2 ->
  failure_ends r (t1 ++ t2).
Proof.
  intros Hq H2. apply (failure_ends_app None); [by apply failure_ends_quiet|done|done].
Qed.

Lemma move_one_failure_ends s src srcIds dest destIds ft (w : W) :
  failure_ends (result_of (move_one s src srcIds dest destIds ft w))
    (trace_of (move_one s src srcIds dest destIds ft w)).
Proof.
  unfold move_one, bind, index_StorageInfo, index_StorageDropSector,
    index_StorageDeclareSector, host_move, call, log, ret, trace_of, result_of.
  destruct (StorageInfoOf (PathByType srcIds ft) w) as [[sst|err] w1];
    [|by apply failure_ends_quiet; repeat constructor].
  destruct (StorageInfoOf (PathByType destIds ft) w1) as [[dst|err] w2];
    [|by apply failure_ends_quiet; repeat constructor].
  destruct (String.eqb (SI_ID sst) (SI_ID dst));
    [by apply failure_ends_quiet; repeat constructor|].
  destruct (SI_CanStore sst); [by apply failure_ends_quiet; repeat constructor|].
  destruct (StorageDropSector _ s ft w2) as [[err|] w3]; simpl.
  { intros [|[|[|[|i]]]] e msg err' Hi He; simpl in Hi; try done;
      injection Hi as <-; try done. by injection He as <- <-. }
  destruct (move _ _ w3) as [[err|] w4]; simpl.
  { intros [|[|[|[|[|i]]]]] e msg err' Hi He; simpl in Hi; try done;
      injection Hi as <-; try done. by injection He as <- <-. }
  destruct (StorageDeclareSector _ s ft true w4) as [[err|] w5]; simpl.
  all: intros [|[|[|[|[|[|i]]]]]] e msg err' Hi He; simpl in Hi; try done;
         injection Hi as <-; try done.
  by injection He as <- <-.
Qed.

Lemma move_each_failure_ends s types src srcIds dest destIds : forall fileTypes (w : W),
  failure_ends (result_of (move_each s types src srcIds dest destIds fileTypes w))
    (trace_of (move_each s types src srcIds dest destIds fileTypes w)).
Proof.
  induction fileTypes as [|ft rest IH]; intros w.
  { apply failure_ends_quiet. by constructor. }
  simpl move_each. destruct (Z.land ft types =? 0)%Z; [apply IH|].
  rewrite trace_of_bind, result_of_bind.
  eapply failure_ends_app; [apply move_one_failure_ends| |].
  - intros ->. apply IH.
  - by intros e ->.
Qed.

Lemma MoveStorage_protocol (st : Local) s spt types (w : W) :
  move_protocol s
    (trace_of (MoveStorage SectorName PathSealing String_other st s spt types w)).
Proof.
  unfold MoveStorage. rewrite trace_of_bind.
  apply move_protocol_app; [apply move_protocol_quiet, AcquireSector_quiet|].
  destruct (result_of _) as [[dest destIds]|err];
    [|apply move_protocol_quiet; by constructor].
  rewrite trace_of_bind.
  apply move_protocol_app; [apply move_protocol_quiet, AcquireSector_quiet|].
  destruct (result_of _) as [[src srcIds]|err];
    [|apply move_protocol_quiet; by constructor].
  apply move_each_protocol.
Qed.

(** X15: a failed step ends [MoveStorage].  In every run, a drop from the
    index, a move of a file or a declaration that fails is the last event of
    the run, and the run returns its error wrapped in the message of that
    step.  In particular a failed move comes right after the successful drop
    of the source holder and nothing follows it: the holder is not declared
    again. *)
Theorem MoveStorage_failure_ends_run (st : Local) s spt types (w : W) :
  let run := MoveStorage SectorName PathSealing String_other st s spt types w in
  failure_ends (result_of run) (trace_of run)
  /\ forall i from to err,
       trace_of run !! i = Some (EvMove from to (Some err)) ->
       S i = length (trace_of run)
       /\ result_of run = Some (Wrap "moving sector %v(%d)" err)
       /\ exists j id ft,
            i = S j /\ trace_of run !! j = Some (EvStorageDropSector id s ft None).
Proof.
  cbv zeta.
  assert (Hends : failure_ends
            (result_of (MoveStorage SectorName PathSealing String_other st s spt types w))
            (trace_of (MoveStorage SectorName PathSealing String_other st s spt types w))).
  { unfold MoveStorage. rewrite trace_of_bind, result_of_bind.
    apply failure_ends_after_quiet; [apply AcquireSector_quiet|].
    destruct (result_of (AcquireSector _ _ _ _ _ _ _ _ _ _ _)) as [[dest destIds]|err];
      [|apply failure_ends_quiet; by constructor].
    rewrite trace_of_bind, result_of_bind.
    apply failure_ends_after_quiet; [apply AcquireSector_quiet|].
    destruct (result_of (AcquireSector _ _ _ _ _ _ _ _ _ _ _)) as [[src srcIds]|err];
      [|apply failure_ends_quiet; by constructor].
    apply move_each_failure_ends. }
  split; [done|]. intros i from to err Hi.
  destruct (Hends i _ _ _ Hi eq_refl) as [Hlen Hr].
  destruct (MoveStorage_protocol st s spt types w) as (Hmove & _ & _).
  split; [done|]. split; [done|]. by apply Hmove in Hi.
Qed.

End MoveStorage_failures.

(** ** AcquireSector: what it asks and what it fills *)

Section AcquireSector_scope.
Context {W : Type} `{!SectorIndex W} `{!HostFS W}.
Variable SectorName : SectorID -> string.
Variable PathSealing : PathType.
Variable String_other : SectorFileType -> string.

Lemma scan_existing_cases (st : Local) sid ft si out ids ex :
  scan_existing SectorName String_other st sid ft si out ids ex = (out, ids, ex)
  \/ exists p id,
       scan_existing SectorName String_other st sid ft si out ids ex
       = (SetPathByType out ft p, SetPathByType ids ft id, Z.lxor ex ft).
Proof.
  rewrite scan_existing_find.
  destruct (List.find (holder_usable st) si) as [info|]; [|by left].
  right. by eexists _, _.
Qed.

Lemma acquire_event_weaken sid spt ex ex' al al' pathType e :
  (forall ft, ft ∈ PathTypes -> Z.land ft ex <> 0%Z -> Z.land ft ex' <> 0%Z) ->
  (forall ft, ft ∈ PathTypes -> Z.land ft al <> 0%Z -> Z.land ft al' <> 0%Z) ->
  acquire_event sid spt ex al pathType e -> acquire_event sid spt ex' al' pathType e.
Proof.
  intros Hex Hal. destruct e; simpl; try done.
  - intros (? & ? & ? & ?). auto.
  - intros (? & ? & ? & ?). auto.
Qed.

Lemma acquire_existing_events (st : Local) sid spt allocate pathType existing0 :
  forall types out ids existing (w : W),
  NoDup types -> (forall ft, ft ∈ types -> ft ∈ PathTypes) ->
  (forall ft, ft ∈ types -> Z.land ft existing <> 0%Z -> Z.land ft existing0 <> 0%Z) ->
  Forall (acquire_event sid spt existing0 allocate pathType)
    (trace_of (acquire_existing SectorName String_other st sid types out ids existing w)).
Proof.
  induction types as [|ft0 rest IH]; intros out ids existing w Hnd Hsub Hbits;
    [by constructor|].
  apply NoDup_cons in Hnd as [Hnotin Hnd].
  assert (Hsub' : forall ft, ft ∈ rest -> ft ∈ PathTypes).
  { intros f Hf. apply Hsub. by apply elem_of_cons; right. }
  assert (Hft0 : ft0 ∈ PathTypes) by (apply Hsub; apply elem_of_cons; by left).
  assert (Hbits' : forall ft, ft ∈ rest -> Z.land ft existing <> 0%Z ->
                     Z.land ft existing0 <> 0%Z).
  { intros f Hf. apply Hbits. by apply elem_of_cons; right. }
  simpl acquire_existing.
  destruct (Z.land ft0 existing =? 0)%Z eqn:Hbit; [by apply IH|].
  apply Z.eqb_neq in Hbit.
  rewrite trace_of_bind. unfold index_StorageFindSector.
  rewrite trace_of_call, result_of_call, world_of_call.
  apply Forall_app. split.
  { constructor; [|by constructor]. simpl. repeat split; try done.
    apply Hbits; [apply elem_of_cons; by left|done]. }
  destruct (StorageFindSector sid ft0 false w).1 as [si|err].
  - destruct (scan_existing_cases st sid ft0 si out ids existing)
      as [-> | (p & id & ->)]; [by apply IH|].
    apply IH; try done. intros f Hf.
    rewrite land_lxor_other; auto. by intros ->.
  - rewrite trace_of_bind, trace_of_log, world_of_log.
    apply Forall_app. split; [by repeat constructor|by apply IH].
Qed.

Lemma acquire_allocate_events (st : Local) sid spt existing pathType allocate0 :
  forall types out ids allocate (w : W),
  NoDup types -> (forall ft, ft ∈ types -> ft ∈ PathTypes) ->
  (forall ft, ft ∈ types -> Z.land ft allocate <> 0%Z -> Z.land ft allocate0 <> 0%Z) ->
  Forall (acquire_event sid spt existing allocate0 pathType)
    (trace_of (acquire_allocate SectorName PathSealing String_other st sid spt pathType
                 types out ids allocate w)).
Proof.
  induction types as [|ft0 rest IH]; intros out ids allocate w Hnd Hsub Hbits;
    [by constructor|].
  apply NoDup_cons in Hnd as [Hnotin Hnd].
  assert (Hsub' : forall ft, ft ∈ rest -> ft ∈ PathTypes).
  { intros f Hf. apply Hsub. by apply elem_of_cons; right. }
  assert (Hft0 : ft0 ∈ PathTypes) by (apply Hsub; apply elem_of_cons; by left).
  assert (Hbits' : forall ft, ft ∈ rest -> Z.land ft allocate <> 0%Z ->
                     Z.land ft allocate0 <> 0%Z).
  { intros f Hf. apply Hbits. by apply elem_of_cons; right. }
  simpl acquire_allocate.
  destruct (Z.land ft0 allocate =? 0)%Z eqn:Hbit; [by apply IH|].
  apply Z.eqb_neq in Hbit.
  rewrite trace_of_bind. unfold index_StorageBestAlloc.
  rewrite trace_of_call, result_of_call, world_of_call.
  apply Forall_app. split.
  { constructor; [|by constructor]. simpl. repeat split; try done.
    apply Hbits; [apply elem_of_cons; by left|done]. }
  destruct (StorageBestAlloc ft0 spt pathType w).1 as [sis|err]; [|by constructor].
  destruct (scan_best _ _ _ _ _ _ _ _ _ _) as [best bestID].
  destruct (String.eqb best ""); [by constructor|].
  apply IH; try done. intros f Hf.
  rewrite land_lxor_other; auto. by intros ->.
Qed.

(** X16: [AcquireSector] only asks.  Every event of a call is a query for
    the holders of the sector's file of a file type requested in [existing],
    never allowing a fetch; or a query for allocation candidates of a file
    type requested in [allocate], for the proof type and the path type of the
    call; or a warning.  The call drops, declares, moves and deletes nothing,
    and asks nothing about a file type that was not requested. *)
Theorem AcquireSector_only_queries (st : Local) sid spt existing allocate pathType op
    (w : W) :
  Forall (acquire_event sid spt existing allocate pathType)
    (trace_of (AcquireSector SectorName PathSealing String_other st sid spt
                 existing allocate pathType op w)).
Proof.
  unfold AcquireSector. destruct (negb _); [by constructor|].
  rewrite trace_of_bind. apply Forall_app. split.
  - apply acquire_existing_events; [apply NoDup_PathTypes|done|done].
  - destruct (result_of _) as [[out ids] ex].
    apply acquire_allocate_events; [apply NoDup_PathTypes|done|done].
Qed.

Lemma land_lxor_self (a e : SectorFileType) :
  a ∈ PathTypes -> Z.land a e <> 0%Z -> Z.land a (Z.lxor e a) = 0%Z.
Proof.
  intros (k & Hk & ->)%PathTypes_pow2. rewrite !land_pow2 by done.
  rewrite Z.lxor_spec, Z.pow2_bits_true by done.
  by destruct (Z.testbit e k).
Qed.

Lemma land_distinct (a b e : SectorFileType) :
  Z.land a e = 0%Z -> Z.land b e <> 0%Z -> a <> b.
Proof. by intros Ha Hb ->. Qed.

(** The first loop leaves the entries of the file types it does not look
    for as they are. *)
Lemma acquire_existing_keeps (st : Local) sid ft :
  forall types out ids existing (w : W),
  ft ∈ PathTypes -> (forall f, f ∈ types -> f ∈ PathTypes) ->
  Z.land ft existing = 0%Z ->
  let r := result_of (acquire_existing SectorName String_other st sid types
                        out ids existing w) in
  PathByType r.1.1 ft = PathByType out ft /\ PathByType r.1.2 ft = PathByType ids ft.
Proof.
  induction types as [|ft0 rest IH]; intros out ids existing w Hft Hsub Hbit; [done|].
  assert (Hsub' : forall f, f ∈ rest -> f ∈ PathTypes).
  { intros f Hf. apply Hsub. by apply elem_of_cons; right. }
  assert (Hft0 : ft0 ∈ PathTypes) by (apply Hsub; apply elem_of_cons; by left).
  cbv zeta. simpl acquire_existing.
  destruct (Z.land ft0 existing =? 0)%Z eqn:Hbit0; [by apply IH|].
  apply Z.eqb_neq in Hbit0.
  rewrite result_of_bind. unfold index_StorageFindSector.
  rewrite result_of_call, world_of_call.
  destruct (StorageFindSector sid ft0 false w).1 as [si|err].
  - destruct (scan_existing_cases st sid ft0 si out ids existing)
      as [-> | (p & id & ->)]; [by apply IH|].
    assert (Hne : ft <> ft0) by by apply (land_distinct _ _ existing).
    destruct (IH (SetPathByType out ft0 p) (SetPathByType ids ft0 id)
                 (Z.lxor existing ft0) (StorageFindSector sid ft0 false w).2 Hft Hsub')
      as [E1 E2].
    { rewrite land_lxor_other; auto. }
    cbv zeta in E1, E2. rewrite E1, E2, !PathByType_Set by done.
    case_decide; [by subst|done].
  - rewrite result_of_bind, world_of_log. by apply IH.
Qed.

(** The second loop, when it succeeds, fills the entry of every file type
    it allocates, and leaves the others as they are. *)
Lemma acquire_allocate_fills (st : Local) sid spt pathType ft :
  forall types out ids allocate (w : W) out' ids',
  ft ∈ PathTypes -> NoDup types -> (forall f, f ∈ types -> f ∈ PathTypes) ->
  result_of (acquire_allocate SectorName PathSealing String_other st sid spt pathType
               types out ids allocate w) = Ok (out', ids') ->
  (Z.land ft allocate = 0%Z ->
   PathByType out' ft = PathByType out ft /\ PathByType ids' ft = PathByType ids ft)
  /\ (ft ∈ types -> Z.land ft allocate <> 0%Z -> PathByType out' ft <> "").
Proof.
  induction types as [|ft0 rest IH]; intros out ids allocate w out' ids' Hft Hnd Hsub.
  { simpl. intros [= <- <-]. split; [done|]. intros Hin. by apply elem_of_nil in Hin. }
  apply NoDup_cons in Hnd as [Hnotin Hnd].
  assert (Hsub' : forall f, f ∈ rest -> f ∈ PathTypes).
  { intros f Hf. apply Hsub. by apply elem_of_cons; right. }
  assert (Hft0 : ft0 ∈ PathTypes) by (apply Hsub; apply elem_of_cons; by left).
  simpl acquire_allocate.
  destruct (Z.land ft0 allocate =? 0)%Z eqn:Hbit0.
  { apply Z.eqb_eq in Hbit0. intros Hr.
    destruct (IH _ _ _ _ _ _ Hft Hnd Hsub' Hr) as [Hkeep Hfill].
    split; [done|]. intros [-> | Hin]%elem_of_cons; [done|auto]. }
  apply Z.eqb_neq in Hbit0.
  rewrite result_of_bind. unfold index_StorageBestAlloc.
  rewrite result_of_call, world_of_call.
  destruct (StorageBestAlloc ft0 spt pathType w).1 as [sis|err]; [|done].
  destruct (scan_best _ _ _ _ _ _ _ _ _ _) as [best bestID].
  destruct (String.eqb_spec best "") as [He|Hne]; [done|].
  intros Hr.
  destruct (IH _ _ _ _ _ _ Hft Hnd Hsub' Hr) as [Hkeep Hfill].
  split.
  - intros Hbit. assert (Hd : ft <> ft0) by by apply (land_distinct _ _ allocate).
    destruct Hkeep as [E1 E2]; [rewrite land_lxor_other; auto|].
    rewrite E1, E2, !PathByType_Set by done. case_decide; [by subst|done].
  - intros [-> | Hin]%elem_of_cons Hbit.
    + assert (Hclear : Z.land ft0 (Z.lxor allocate ft0) = 0%Z)
        by by apply land_lxor_self.
      destruct (Hkeep Hclear) as [E1 _].
      rewrite E1, PathByType_Set by done. by case_decide.
    + apply Hfill; [done|]. rewrite land_lxor_other; auto. by intros ->.
Qed.

(** X17: the entries of a successful [AcquireSector].  Whatever the index
    answers, when the call returns no error the entry of every file type
    requested in [allocate] holds a path (it is not empty), and the entries
    of the file types requested neither in [existing] nor in [allocate] are
    empty, in the paths and in the storage IDs. *)
Theorem AcquireSector_fills_requested (st : Local) sid spt existing allocate pathType op
    (w : W) out ids :
  result_of (AcquireSector SectorName PathSealing String_other st sid spt
               existing allocate pathType op w) = Ok (out, ids) ->
  forall ft, ft ∈ PathTypes ->
    (Z.land ft allocate <> 0%Z -> PathByType out ft <> "")
    /\ (Z.land ft existing = 0%Z -> Z.land ft allocate = 0%Z ->
        PathByType out ft = "" /\ PathByType ids ft = "").
Proof.
  unfold AcquireSector. destruct (negb _); [done|].
  rewrite result_of_bind. intros Hr ft Hft.
  pose proof (acquire_existing_keeps st sid ft PathTypes SectorPaths_zero
                SectorPaths_zero existing w Hft (fun _ H => H)) as Hkeep.
  cbv zeta in Hkeep.
  destruct (result_of (acquire_existing _ _ _ _ _ _ _ _ _)) as [[out1 ids1] ex1].
  simpl in Hkeep.
  destruct (acquire_allocate_fills st sid spt pathType ft _ _ _ _ _ _ _ Hft
              NoDup_PathTypes (fun _ H => H) Hr) as [Hsame Hfill].
  split; [by apply Hfill|].
  intros Hex Hal. destruct (Hkeep Hex) as [K1 K2]. destruct (Hsame Hal) as [E1 E2].
  by rewrite E1, E2, K1, K2, !PathByType_zero.
Qed.

End AcquireSector_scope.

(** ** MoveStorage: between the acquired places *)

Section MoveStorage_places.
Context {W : Type} `{!SectorIndex W} `{!HostFS W}.
Variable SectorName : SectorID -> string.
Variable PathSealing : PathType.
Variable String_other : SectorFileType -> string.

Lemma move_one_events s types src srcIds dest destIds ft (w : W) :
  ft ∈ PathTypes -> Z.land ft types <> 0%Z ->
  Forall (move_event s types src srcIds dest destIds)
    (trace_of (move_one s src srcIds dest destIds ft w)).
Proof.
  intros Hft Hbit.
  unfold move_one, bind, index_StorageInfo, index_StorageDropSector,
    index_StorageDeclareSector, host_move, call, log, ret, trace_of.
  destruct (StorageInfoOf (PathByType srcIds ft) w) as [[sst|err] w1]; simpl;
    [|repeat (constructor; [simpl; eauto 10|]); by constructor].
  destruct (StorageInfoOf (PathByType destIds ft) w1) as [[dst|err] w2]; simpl;
    [|repeat (constructor; [simpl; eauto 10|]); by constructor].
  destruct (String.eqb (SI_ID sst) (SI_ID dst)); simpl;
    [repeat (constructor; [simpl; eauto 10|]); by constructor|].
  destruct (SI_CanStore sst); simpl;
    [repeat (constructor; [simpl; eauto 10|]); by constructor|].
  destruct (StorageDropSector _ s ft w2) as [[err|] w3]; simpl;
    [repeat (constructor; [simpl; eauto 10|]); by constructor|].
  destruct (move _ _ w3) as [[err|] w4]; simpl;
    [repeat (constructor; [simpl; eauto 10|]); by constructor|].
  destruct (StorageDeclareSector _ s ft true w4) as [[err|] w5]; simpl;
    repeat (constructor; [simpl; eauto 10|]); by constructor.
Qed.

Lemma move_each_events s types src srcIds dest destIds : forall fileTypes (w : W),
  (forall ft, ft ∈ fileTypes -> ft ∈ PathTypes) ->
  Forall (move_event s types src srcIds dest destIds)
    (trace_of (move_each s types src srcIds dest destIds fileTypes w)).
Proof.
  induction fileTypes as [|ft rest IH]; intros w Hsub; [by constructor|].
  assert (Hsub' : forall f, f ∈ rest -> f ∈ PathTypes).
  { intros f Hf. apply Hsub. by apply elem_of_cons; right. }
  simpl move_each. destruct (Z.land ft types =? 0)%Z eqn:Hbit; [by apply IH|].
  apply Z.eqb_neq in Hbit. rewrite trace_of_bind. apply Forall_app. split.
  - apply move_one_events; [|done]. apply Hsub, elem_of_cons. by left.
  - destruct (result_of _) as [err|]; [by constructor|by apply IH].
Qed.

(** X19: [MoveStorage] works between the places [AcquireSector] resolved.
    The destination is acquired first (nothing existing, the requested types
    to allocate, path type [false]), then the source (the requested types as
    existing); a failure of either ends the call with the wrapped error
    before anything is changed.  After both, every event concerns a
    requested file type of [PathTypes]: the index is asked about the resolved
    source or destination storage, the holder dropped is the resolved source
    storage, the file goes from the resolved source path to the resolved
    destination path, and the holder declared, as primary, is the resolved
    destination storage.  Nothing is ever deleted. *)
Theorem MoveStorage_between_acquired_places (st : Local) s spt types (w : W) :
  let acq_dest := AcquireSector SectorName PathSealing String_other st s spt
                    FTNone types false AcquireMove w in
  let acq_src := AcquireSector SectorName PathSealing String_other st s spt
                   types FTNone false AcquireMove (world_of acq_dest) in
  let run := MoveStorage SectorName PathSealing String_other st s spt types w in
  match result_of acq_dest with
  | Err err =>
      run = (Some (Wrap "acquire dest storage" err), world_of acq_dest, trace_of acq_dest)
  | Ok (dest, destIds) =>
      match result_of acq_src with
      | Err err =>
          run = (Some (Wrap "acquire src storage" err), world_of acq_src,
                 trace_of acq_dest ++ trace_of acq_src)
      | Ok (src, srcIds) =>
          exists tr,
            trace_of run = trace_of acq_dest ++ trace_of acq_src ++ tr
            /\ Forall (move_event s types src srcIds dest destIds) tr
      end
  end.
Proof.
  cbv zeta. unfold MoveStorage.
  rewrite (run_eta (bind _ _ w)).
  rewrite result_of_bind, world_of_bind, trace_of_bind. cbv beta.
  destruct (result_of (AcquireSector _ _ _ st s spt FTNone types false AcquireMove w))
    as [[dest destIds]|err].
  - rewrite result_of_bind, world_of_bind, trace_of_bind. cbv beta.
    destruct (result_of (AcquireSector _ _ _ st s spt types FTNone false AcquireMove _))
      as [[src srcIds]|err].
    + eexists. split; [done|]. by apply move_each_events.
    + unfold ret, result_of, world_of, trace_of. cbn [fst snd]. by rewrite app_nil_r.
  - unfold ret, result_of, world_of, trace_of. cbn [fst snd]. by rewrite app_nil_r.
Qed.

End MoveStorage_places.

(** ** An opened path in the listing and in the health reports *)

Section Opened_paths.
Context {W : Type} `{!SectorIndex W} `{!SectorIndexHealth W}
  `{!LocalStorage W} `{!HostDirs W}.
Variable ParseSectorID : string -> Result SectorID.
Variable json_Unmarshal : string -> Result LocalStorageMeta.
Variable os_IsNotExist : error -> bool.
Variable String_other : SectorFileType -> string.
Variable range : forall V : Type, gmap ID V -> list (ID * V).

Lemma Local_each_lists (ents : list (ID * path)) (w : W) out id pth :
  oresult (Local_each ents [] w) = Ok out -> (id, pth) ∈ ents -> local pth <> "" ->
  exists sp, sp ∈ out /\ SP_ID sp = id /\ SP_LocalPath sp = local pth.
Proof.
  intros Hr Hin Hne. destruct (Local_each_spec _ _ _ _ Hr) as (res' & -> & Hk & _).
  assert (Hf : (id, pth) ∈ List.filter kept_entry ents).
  { apply list_elem_of_In, filter_In. split; [by apply list_elem_of_In|].
    unfold kept_entry. simpl. by apply negb_true_iff, String.eqb_neq. }
  rewrite <- Hk in Hf. apply list_elem_of_fmap in Hf as (sp & Heq & Hsp).
  exists sp. injection Heq as -> ->. done.
Qed.

Lemma reports_of_elem (tr : list OpEvent) id rep :
  (id, rep) ∈ reports_of tr -> exists r, OpStorageReportHealth id rep r ∈ tr.
Proof.
  unfold reports_of. rewrite list_elem_of_omap. intros (e & Hin & He).
  destruct e; try done. injection He as -> ->. by eexists.
Qed.

Lemma reportHealth_round_reports_entry (st : Local) (w : W) id pth :
  (forall V (m : gmap ID V), range V m ≡ₚ map_to_list m) ->
  paths st !! id = Some pth ->
  exists rep r,
    OpStat (local pth) (HR_Stat rep, HR_Err rep) ∈ otrace (reportHealth_round range st w)
    /\ OpStorageReportHealth id rep r ∈ otrace (reportHealth_round range st w).
Proof.
  intros Hrange Hid. unfold reportHealth_round. rewrite otrace_obind.
  destruct (stat_each_spec (range path (paths st)) ∅ w) as (_ & _ & Hdom & Hprov).
  destruct (report_each_spec
              (range HealthReport (oresult (stat_each (range path (paths st)) ∅ w)))
              (oworld (stat_each (range path (paths st)) ∅ w))) as [Hr _].
  assert (Hin : (id, pth) ∈ range path (paths st)).
  { rewrite Hrange. by apply elem_of_map_to_list. }
  assert (Hsome : is_Some (oresult (stat_each (range path (paths st)) ∅ w) !! id)).
  { apply Hdom. left. apply list_elem_of_fmap. by exists (id, pth). }
  destruct Hsome as [rep Hrep].
  destruct (Hprov id rep Hrep) as [Hemp | (p' & Hp' & Hev)];
    [by rewrite lookup_empty in Hemp|].
  rewrite Hrange in Hp'. apply elem_of_map_to_list in Hp'.
  assert (p' = pth) by congruence. subst p'.
  assert (Hrepd : (id, rep)
            ∈ reports_of (otrace (report_each
                 (range HealthReport (oresult (stat_each (range path (paths st)) ∅ w)))
                 (oworld (stat_each (range path (paths st)) ∅ w))))).
  { rewrite Hr, Hrange. by apply elem_of_map_to_list. }
  apply reports_of_elem in Hrepd as [r Hrepd].
  exists rep, r. split; apply elem_of_app; [by left|by right].
Qed.

(** X18: a path that [OpenPath] opened is listed and reported.  After a
    successful [OpenPath] of a root, whatever the order in which the registry
    is visited: every list [Local] returns for the new registry has an entry
    with the descriptor's ID and that root, provided the root is not the
    empty string (a path opened with an empty root is registered but never
    listed); and every round of [reportHealth] asks for the statistics of
    that root and reports them to the index under the descriptor's ID. *)
Theorem opened_path_is_listed_and_reported (st : Local) p w :
  (forall V (m : gmap ID V), range V m ≡ₚ map_to_list m) ->
  let run := OpenPath ParseSectorID json_Unmarshal os_IsNotExist String_other st p w in
  fst (oresult run) = None ->
  exists bytes meta,
    otrace run !! 0%nat = Some (OpReadFile (filepath.Join [p; MetaFile]) (Ok bytes))
    /\ json_Unmarshal bytes = Ok meta
    /\ (p <> "" ->
        forall w1 out,
          oresult (Local_Local range (snd (oresult run)) w1) = Ok out ->
          exists sp, sp ∈ out /\ SP_ID sp = LSM_ID meta /\ SP_LocalPath sp = p)
    /\ (p = "" ->
        forall w1 out,
          oresult (Local_Local range (snd (oresult run)) w1) = Ok out ->
          forall sp, sp ∈ out -> SP_ID sp <> LSM_ID meta)
    /\ forall w2,
         exists rep r,
           OpStat p (HR_Stat rep, HR_Err rep)
             ∈ otrace (reportHealth_round range (snd (oresult run)) w2)
           /\ OpStorageReportHealth (LSM_ID meta) rep r
                ∈ otrace (reportHealth_round range (snd (oresult run)) w2).
Proof.
  intros Hrange run Hok. subst run.
  pose proof (OpenPath_outcome ParseSectorID json_Unmarshal os_IsNotExist String_other
                st p w) as Hout.
  cbv zeta in Hout. rewrite Hok in Hout.
  destruct Hout as (bytes & meta & H0 & Hmeta & ->).
  exists bytes, meta. split; [done|]. split; [done|].
  assert (Hreg : paths {| urls := urls st;
                          paths := <[LSM_ID meta := {| local := p |}]> (paths st) |}
                 !! LSM_ID meta = Some {| local := p |}) by apply lookup_insert_eq.
  split; [|split].
  - intros Hp w1 out Hr. unfold Local_Local in Hr.
    apply (Local_each_lists _ _ _ (LSM_ID meta) {| local := p |}) in Hr; [done| |done].
    rewrite Hrange. by apply elem_of_map_to_list.
  - intros -> w1 out Hr sp Hsp Hid. unfold Local_Local in Hr.
    destruct (Local_each_spec _ _ _ _ Hr) as (res' & -> & Hk & _). simpl in Hsp.
    assert (Hin : (SP_ID sp, {| local := SP_LocalPath sp |})
                  ∈ List.filter kept_entry
                      (range path
                         (paths {| urls := urls st;
                                   paths := <[LSM_ID meta := {| local := "" |}]> (paths st) |}))).
    { rewrite <- Hk. apply list_elem_of_fmap. by exists sp. }
    apply list_elem_of_In, filter_In in Hin as [Hin Hkept].
    apply list_elem_of_In in Hin. rewrite Hrange in Hin.
    apply elem_of_map_to_list in Hin. rewrite Hid, Hreg in Hin.
    injection Hin as Hl. unfold kept_entry in Hkept. simpl in Hkept.
    by rewrite <- Hl in Hkept.
  - intros w2. by apply (reportHealth_round_reports_entry _ w2 (LSM_ID meta) {| local := p |}).
Qed.

End Opened_paths.

(** ** Concrete runs on the scripted disk *)

(** Opening /p1: the sealed file of [sector7] is declared under [s1], and
    the missing directory of cache files is created. *)
Example OpenPath_p1_run :
  otrace (disk_OpenPath no_paths "/p1")
  = [OpReadFile "/p1/sectorstore.json" (Ok "{s1}");
     OpStat "/p1" (stat_100, None);
     OpStorageAttach
       {| SI_ID := "s1"; SI_URLs := ["http://miner/remote"]; SI_Weight := 10;
          SI_CanSeal := true; SI_CanStore := false |} stat_100 None;
     OpReadDir "/p1/unsealed" (Ok []);
     OpReadDir "/p1/sealed" (Ok ["s-t01000-7"]);
     OpIndex (EvStorageDeclareSector "s1" sector7 FTSealed false None);
     OpReadDir "/p1/cache" (Err err_not_exist);
     OpMkdirAll "/p1/cache" 493 None].
Proof. by vm_compute. Qed.

Lemma OpenPath_declares_every_entry_witness :
  fst (oresult (disk_OpenPath no_paths "/p1")) = None
  /\ exists bytes meta,
       on_read_file disk_two (filepath.Join ["/p1"; MetaFile]) = Ok bytes
       /\ decode_meta bytes = Ok meta
       /\ (forall t, t ∈ PathTypes ->
             exists r, OpReadDir (type_dir String_unknown "/p1" t) r
                         ∈ otrace (disk_OpenPath no_paths "/p1"))
       /\ forall dir names,
            OpReadDir dir (Ok names) ∈ otrace (disk_OpenPath no_paths "/p1") ->
            forall name, name ∈ names ->
              exists sid t,
                t ∈ PathTypes /\ dir = type_dir String_unknown "/p1" t
                /\ parse_t0 name = Ok sid
                /\ OpIndex (EvStorageDeclareSector (LSM_ID meta) sid t
                              (LSM_CanStore meta) None)
                     ∈ otrace (disk_OpenPath no_paths "/p1").
Proof.
  split; [by vm_compute|].
  exact (OpenPath_declares_every_entry (SectorIndex0 := scripted_index script_two)
           (SectorIndexHealth0 := scripted_health disk_two)
           (LocalStorage0 := scripted_storage disk_two)
           (HostDirs0 := scripted_dirs disk_two)
           parse_t0 decode_meta is_not_exist String_unknown no_paths "/p1" tt eq_refl).
Defined.

(** The configuration /p1, /p3, /p2: /p3 has no descriptor, so /p1 stays
    registered and /p2 is never looked at. *)
Lemma open_paths_stops_at_first_failure_witness :
  fst (oresult (disk_open_paths no_paths [{| Path := "/p1" |}])) = None
  /\ fst (oresult (disk_OpenPath
                     (snd (oresult (disk_open_paths no_paths [{| Path := "/p1" |}])))
                     "/p3"))
     = Some (Wrap "reading storage metadata for %s" err_not_exist)
  /\ disk_open_paths no_paths [{| Path := "/p1" |}; {| Path := "/p3" |}; {| Path := "/p2" |}]
     = ((Some (Wrap "opening path %s"
                 (Wrap "reading storage metadata for %s" err_not_exist)),
         snd (oresult (disk_open_paths no_paths [{| Path := "/p1" |}]))),
        tt,
        otrace (disk_open_paths no_paths [{| Path := "/p1" |}])
        ++ otrace (disk_OpenPath
                     (snd (oresult (disk_open_paths no_paths [{| Path := "/p1" |}])))
                     "/p3")).
Proof.
  split; [by vm_compute|]. split; [by vm_compute|].
  exact (open_paths_stops_at_first_failure (SectorIndex0 := scripted_index script_two)
           (SectorIndexHealth0 := scripted_health disk_two)
           (LocalStorage0 := scripted_storage disk_two)
           (HostDirs0 := scripted_dirs disk_two)
           parse_t0 decode_meta is_not_exist String_unknown
           no_paths [{| Path := "/p1" |}] {| Path := "/p3" |} [{| Path := "/p2" |}] tt
           (Wrap "reading storage metadata for %s" err_not_exist) eq_refl eq_refl).
Defined.

Lemma FsStat_after_OpenPath_witness :
  fst (oresult (disk_OpenPath no_paths "/p1")) = None
  /\ exists bytes meta,
       on_read_file disk_two (filepath.Join ["/p1"; MetaFile]) = Ok bytes
       /\ decode_meta bytes = Ok meta
       /\ (forall w',
             Local_FsStat (LocalStorage0 := scripted_storage disk_two)
               (snd (oresult (disk_OpenPath no_paths "/p1"))) (LSM_ID meta) w'
             = (on_stat disk_two "/p1", w', [OpStat "/p1" (on_stat disk_two "/p1")]))
       /\ forall id w', id <> LSM_ID meta -> paths no_paths !! id = None ->
            Local_FsStat (LocalStorage0 := scripted_storage disk_two)
              (snd (oresult (disk_OpenPath no_paths "/p1"))) id w'
            = ((FsStat_zero, Some errPathNotFound), w', []).
Proof.
  split; [by vm_compute|].
  exact (FsStat_after_OpenPath (SectorIndex0 := scripted_index script_two)
           (SectorIndexHealth0 := scripted_health disk_two)
           (LocalStorage0 := scripted_storage disk_two)
           (HostDirs0 := scripted_dirs disk_two)
           parse_t0 decode_meta is_not_exist String_unknown no_paths "/p1" tt eq_refl).
Defined.

Lemma Local_lists_registered_paths_witness :
  range_entries path (paths two_paths) ≡ₚ map_to_list (paths two_paths)
  /\ oresult (disk_Local two_paths) = Ok listing_two
  /\ (forall id root,
        (exists sp, sp ∈ listing_two /\ SP_ID sp = id /\ SP_LocalPath sp = root)
        <-> (paths two_paths !! id = Some {| local := root |} /\ root <> ""))
  /\ NoDup (SP_ID <$> listing_two).
Proof.
  split; [reflexivity|]. split; [by vm_compute|].
  destruct (Local_lists_registered_paths (SectorIndex0 := scripted_index script_two)
              range_entries two_paths tt listing_two
              (reflexivity _) eq_refl) as (Hmem & Hnd & _).
  split; [exact Hmem|exact Hnd].
Defined.

Lemma reportHealth_round_covers_registry_witness :
  (forall V (m : gmap ID V), range_entries V m ≡ₚ map_to_list m)
  /\ stats_of (otrace (disk_reportHealth_round two_paths))
       ≡ₚ (fun x => local x.2) <$> map_to_list (paths two_paths)
  /\ (reports_of (otrace (disk_reportHealth_round two_paths))).*1
       ≡ₚ (map_to_list (paths two_paths)).*1.
Proof.
  assert (Hrange : forall V (m : gmap ID V), range_entries V m ≡ₚ map_to_list m)
    by (intros V m; reflexivity).
  split; [exact Hrange|].
  destruct (reportHealth_round_covers_registry
              (SectorIndexHealth0 := scripted_health disk_two)
              (LocalStorage0 := scripted_storage disk_two)
              range_entries two_paths tt Hrange) as (Hstats & Hreports & _).
  split; [exact Hstats|exact Hreports].
Defined.

(** [Remove] drops and deletes the copy on [s2] and the primary on [s1],
    and leaves the copy on [s9], which is not opened here. *)
Lemma Remove_removes_local_holders_witness :
  OnesCount (uint FTSealed) = 1%Z
  /\ fst (StorageFindSector (SectorIndex := scripted_index script_copies)
            sector7 FTSealed false tt) = Ok copies
  /\ copies <> []
  /\ result_of remove_copies_run = None
  /\ forall info, info ∈ copies -> holder_usable two_paths info = true ->
       EvStorageDropSector (SSI_ID info) sector7 FTSealed None ∈ trace_of remove_copies_run
       /\ exists res,
            EvRemoveAll (path_under SectorName_t0 String_unknown two_paths
                           (SSI_ID info) FTSealed sector7) res
              ∈ trace_of remove_copies_run.
Proof.
  assert (Hne : copies <> []) by done.
  split; [done|]. split; [done|]. split; [exact Hne|].
  assert (Hr : result_of remove_copies_run = None) by (by vm_compute).
  split; [exact Hr|].
  destruct (Remove_removes_local_holders (SectorIndex0 := scripted_index script_copies)
              (HostFS0 := scripted_host script_copies)
              SectorName_t0 String_unknown two_paths sector7 FTSealed false copies tt
              eq_refl eq_refl (or_introl Hne)) as (_ & Hcover & _).
  exact (Hcover Hr).
Defined.

Lemma AcquireSector_fills_requested_witness :
  result_of acquire_sealed_cache = Ok (paths_sealed_cache, ids_sealed_cache)
  /\ FTCache ∈ PathTypes /\ FTUnsealed ∈ PathTypes
  /\ (Z.land FTCache FTCache <> 0%Z -> PathByType paths_sealed_cache FTCache <> "")
  /\ (Z.land FTUnsealed FTSealed = 0%Z -> Z.land FTUnsealed FTCache = 0%Z ->
      PathByType paths_sealed_cache FTUnsealed = ""
      /\ PathByType ids_sealed_cache FTUnsealed = "").
Proof.
  assert (Hr : result_of acquire_sealed_cache = Ok (paths_sealed_cache, ids_sealed_cache))
    by (by vm_compute).
  split; [exact Hr|]. split; [exact PathTypes_Cache|]. split; [exact PathTypes_Unsealed|].
  split.
  - exact (proj1 (AcquireSector_fills_requested
                    (SectorIndex0 := scripted_index script_two)
                    SectorName_t0 true String_unknown two_paths sector7 0%Z
                    FTSealed FTCache true AcquireMove tt
                    paths_sealed_cache ids_sealed_cache Hr FTCache PathTypes_Cache)).
  - exact (proj2 (AcquireSector_fills_requested
                    (SectorIndex0 := scripted_index script_two)
                    SectorName_t0 true String_unknown two_paths sector7 0%Z
                    FTSealed FTCache true AcquireMove tt
                    paths_sealed_cache ids_sealed_cache Hr FTUnsealed PathTypes_Unsealed)).
Defined.

(** A removal for [FTNone], which has no bit set. *)
Lemma removal_fails_before_touching_witness :
  OnesCount (uint FTNone) <> 1%Z
  /\ Remove (SectorIndex0 := scripted_index script_copies)
       (HostFS0 := scripted_host script_copies)
       SectorName_t0 String_unknown two_paths sector7 FTNone true tt
     = (Some ErrSingleFileTypeRequired, tt, [])
  /\ RemoveCopies (SectorIndex0 := scripted_index script_copies)
       (HostFS0 := scripted_host script_copies)
       SectorName_t0 String_unknown two_paths sector7 FTNone tt
     = (Some ErrSingleFileTypeRequired, tt, []).
Proof.
  assert (H0 : OnesCount (uint FTNone) <> 1%Z) by done.
  split; [exact H0|].
  exact (proj1 (removal_fails_before_touching
                  (SectorIndex0 := scripted_index script_copies)
                  (HostFS0 := scripted_host script_copies)
                  SectorName_t0 String_unknown two_paths sector7 FTNone true tt) H0).
Defined.

(** /p1, once opened, is listed under [s1] and its statistics are
    reported under [s1]. *)
Lemma opened_path_is_listed_and_reported_witness :
  (forall V (m : gmap ID V), range_entries V m ≡ₚ map_to_list m)
  /\ fst (oresult (disk_OpenPath no_paths "/p1")) = None
  /\ exists bytes meta,
       otrace (disk_OpenPath no_paths "/p1") !! 0%nat
       = Some (OpReadFile (filepath.Join ["/p1"; MetaFile]) (Ok bytes))
       /\ decode_meta bytes = Ok meta
       /\ (forall out,
             oresult (disk_Local (snd (oresult (disk_OpenPath no_paths "/p1")))) = Ok out ->
             exists sp, sp ∈ out /\ SP_ID sp = LSM_ID meta /\ SP_LocalPath sp = "/p1")
       /\ exists rep r,
            OpStat "/p1" (HR_Stat rep, HR_Err rep)
              ∈ otrace (disk_reportHealth_round
                          (snd (oresult (disk_OpenPath no_paths "/p1"))))
            /\ OpStorageReportHealth (LSM_ID meta) rep r
                 ∈ otrace (disk_reportHealth_round
                             (snd (oresult (disk_OpenPath no_paths "/p1")))).
Proof.
  assert (Hrange : forall V (m : gmap ID V), range_entries V m ≡ₚ map_to_list m)
    by (intros V m; reflexivity).
  assert (Hok : fst (oresult (disk_OpenPath no_paths "/p1")) = None) by (by vm_compute).
  split; [exact Hrange|]. split; [exact Hok|].
  destruct (opened_path_is_listed_and_reported
              (SectorIndex0 := scripted_index script_two)
              (SectorIndexHealth0 := scripted_health disk_two)
              (LocalStorage0 := scripted_storage disk_two)
              (HostDirs0 := scripted_dirs disk_two)
              parse_t0 decode_meta is_not_exist String_unknown range_entries
              no_paths "/p1" tt Hrange Hok)
    as (bytes & meta & H0 & Hmeta & Hlisted & _ & Hreported).
  exists bytes, meta. split; [exact H0|]. split; [exact Hmeta|]. split.
  - intros out Hout. apply (Hlisted ltac:(done) tt out Hout).
  - exact (Hreported tt).
Defined.
